(** * sc2reader/objects.py: a shallow embedding

    The module [sc2reader.objects] holds the replay object model: [Team],
    [Attribute], the participant classes ([Entity], [Player], [User] and
    their combinations [Observer], [Computer], [Participant]) and the
    [MapInfo] decoder.  Python objects are modelled as attribute
    dictionaries (the instance [__dict__]), exceptions as an error monad,
    and the byte cursor as an explicit state. *)

From Stdlib Require Import QArith Qround.
From Stdlib Require Import Strings.Byte Strings.Ascii DecimalString.
From Stdlib Require DecimalPos.
From stdpp Require Import gmap strings list fin_maps sorting.

Local Open Scope Z_scope.
Local Open Scope string_scope.
Local Open Scope list_scope.

(** ** Exceptions *)

(** The Python exceptions the module can raise.  [StructError] stands for
    the fault of the byte cursor on a truncated buffer;
    [UnicodeDecodeError] is what [bytes.decode] raises. *)
Inductive exn : Type :=
| KeyError
| ValueError
| IndexError
| AttributeError
| StructError
| UnicodeDecodeError.

Inductive result (A : Type) : Type :=
| Ok (a : A)
| Raise (e : exn).
Arguments Ok {A} a.
Arguments Raise {A} e.

#[global] Instance result_ret : MRet result := fun _ a => Ok a.
#[global] Instance result_bind : MBind result := fun _ _ f m =>
  match m with
  | Ok a => f a
  | Raise e => Raise e
  end.

Definition is_Ok {A} (r : result A) : Prop := exists a, r = Ok a.

Definition succeeds {A} (r : result A) : bool :=
  match r with
  | Ok _ => true
  | Raise _ => false
  end.

(** Python's subscript [d[k]] on a dictionary. *)
Definition subscript `{Countable K} {V} (d : gmap K V) (k : K) : result V :=
  match d !! k with
  | Some v => Ok v
  | None => Raise KeyError
  end.

(** Python's subscript [l[i]] on a list, for a non-negative index. *)
Definition index {A} (l : list A) (i : nat) : result A :=
  match l !! i with
  | Some a => Ok a
  | None => Raise IndexError
  end.

(** ** Raw input records

    The records of the decoding layer ([replay.initData],
    [replay.details], [replay.attributes.events]), with the keys this
    module reads. *)

Record slot_data : Type := {
  sd_handicap : Z;
  sd_team_id : Z;
  sd_control : Z;
  sd_observe : Z;
  sd_hero : string;
  sd_skin : string;
  sd_mount : string;
  sd_toon_handle : option string;
  sd_tandem_leader_user_id : option Z
}.

Record init_data : Type := {
  id_clan_tag : string;
  id_name : string;
  id_combined_race_levels : Z;
  id_highest_league : Z
}.

Record color_data : Type := { cd_r : Z; cd_g : Z; cd_b : Z; cd_a : Z }.

Record bnet_data : Type := { bd_region : Z; bd_subregion : Z; bd_uid : Z }.

Record detail_data : Type := {
  dd_name : string;
  dd_result : Z;
  dd_race : string;
  dd_color : color_data;
  dd_bnet : bnet_data
}.

(** [MapInfoPlayer.__init__] stores its eight arguments. *)
Record MapInfoPlayer : Type := {
  mp_pid : Z;
  mp_control : Z;
  mp_color : Z;
  mp_race : string;
  mp_unknown : Z;
  mp_start_point : Z;
  mp_ai : Z;
  mp_decal : string
}.

(** ** Values and objects *)

#[warnings="-register-all"]
Inductive value : Type :=
| VNone
| VBool (b : bool)
| VInt (n : Z)
| VFloat (q : Q)
| VStr (s : string)
| VBytes (bs : list byte)
| VList (l : list value)
| VSlotData (d : slot_data)
| VInitData (d : init_data)
| VDetailData (d : detail_data)
| VAttributeData (d : gmap string string)
| VColor (c : color_data)
| VMapInfoPlayer (p : MapInfoPlayer).

(** The attributes set on an instance so far. *)
Abbreviation attrs := (gmap string value).

Definition setattr (name : string) (v : value) (self : attrs) : attrs :=
  <[name := v]> self.

(** Reading an attribute that was never set raises [AttributeError]. *)
Definition getattr (self : attrs) (name : string) : result value :=
  match self !! name with
  | Some v => Ok v
  | None => Raise AttributeError
  end.

(** ** The byte cursor *)

#[global] Instance byte_eq_dec : EqDecision byte := Byte.byte_eq_dec.

(** Modelled from the spec: the class [ByteDecoder] of
    [sc2reader.decoders] is not part of this module.  Section 6 of the
    specification gives its interface: a sequential reader over a fixed
    buffer with fixed-width little-endian integer reads, raw byte-range
    reads, null-terminated and fixed-length string reads, the current
    offset and the total length.  Section 4.1 adds that a relation matrix
    is read as one big-endian bit sequence and that a truncated buffer is
    a fault.  Strings are kept as the bytes read. *)
Module ByteDecoder.

Record t : Type := { tell : nat; rest : list byte }.

Definition make (contents : list byte) : t :=
  {| tell := 0; rest := contents |}.

Definition length (d : t) : nat := (tell d + List.length (rest d))%nat.

Definition read_bytes (count : nat) (d : t) : result (list byte * t) :=
  if decide (count <= List.length (rest d))%nat
  then Ok (take count (rest d),
           {| tell := (tell d + count)%nat; rest := drop count (rest d) |})
  else Raise StructError.

(** The value of a byte sequence, least significant byte first. *)
Fixpoint little_endian (bs : list byte) : Z :=
  match bs with
  | [] => 0
  | b :: bs' => Z.of_N (Byte.to_N b) + 256 * little_endian bs'
  end.

(** The value of a byte sequence, most significant byte first. *)
Definition big_endian (bs : list byte) : Z :=
  fold_left (fun acc b => Z.lor (Z.shiftl acc 8) (Z.of_N (Byte.to_N b))) bs 0.

Definition read_uint_le (count : nat) (d : t) : result (Z * t) :=
  '(bs, d') ← read_bytes count d; mret (little_endian bs, d').

Definition read_uint8 : t -> result (Z * t) := read_uint_le 1.
Definition read_uint16 : t -> result (Z * t) := read_uint_le 2.
Definition read_uint32 : t -> result (Z * t) := read_uint_le 4.

Definition read_uint (count : nat) (d : t) : result (Z * t) :=
  '(bs, d') ← read_bytes count d; mret (big_endian bs, d').

Definition read_string (count : nat) (d : t) : result (string * t) :=
  '(bs, d') ← read_bytes count d; mret (String.string_of_list_byte bs, d').

(** The bytes before the first null byte, and what follows that byte. *)
Fixpoint split_null (bs : list byte) : option (list byte * list byte) :=
  match bs with
  | [] => None
  | b :: bs' =>
      if decide (b = x00) then Some ([], bs')
      else '(s, r) ← split_null bs'; Some (b :: s, r)
  end.

Definition read_cstring (d : t) : result (string * t) :=
  match split_null (rest d) with
  | Some (s, r) =>
      Ok (String.string_of_list_byte s,
          {| tell := (tell d + List.length s + 1)%nat; rest := r |})
  | None => Raise StructError
  end.

End ByteDecoder.

(** ** Constructors that read a buffer

    [MapInfo.__init__] threads three things: the local cursor [data], the
    instance under construction [self], and the class logger.  An
    exception discards all three. *)

Inductive level : Type := INFO | WARN.

Record init_state : Type := {
  data : ByteDecoder.t;
  self : attrs;
  logger : list (level * string)
}.

Definition Init (A : Type) : Type := init_state -> result (A * init_state).

#[global] Instance Init_ret : MRet Init := fun _ a s => Ok (a, s).
#[global] Instance Init_bind : MBind Init := fun _ _ f m s =>
  match m s with
  | Ok (a, s') => f a s'
  | Raise e => Raise e
  end.

(** [data.read_...()] *)
Definition read {A} (f : ByteDecoder.t -> result (A * ByteDecoder.t)) : Init A :=
  fun s =>
    match f (data s) with
    | Ok (a, d) => Ok (a, {| data := d; self := self s; logger := logger s |})
    | Raise e => Raise e
    end.

(** [self.name = v] *)
Definition assign (name : string) (v : value) : Init unit :=
  fun s => Ok (tt, {| data := data s; self := setattr name v (self s);
                      logger := logger s |}).

(** [self.logger.warn(msg)] *)
Definition warn (msg : string) : Init unit :=
  fun s => Ok (tt, {| data := data s; self := self s;
                      logger := logger s ++ [(WARN, msg)] |}).

(** A step that touches neither the cursor nor the instance: its value,
    or its exception. *)
Definition lift {A} (r : result A) : Init A :=
  fun s =>
    match r with
    | Ok a => Ok (a, s)
    | Raise e => Raise e
    end.

(** [for i in range(count): acc.append(item)] *)
Fixpoint for_range {A} (count : nat) (item : Init A) : Init (list A) :=
  match count with
  | O => mret []
  | S count' => x ← item; xs ← for_range count' item; mret (x :: xs)
  end.

(** ** Decoding a text

    [bs.decode('utf8')] of Python 3: the bytes must be well-formed UTF-8
    (no stray continuation byte, no truncated or overlong sequence, no
    surrogate, nothing above U+10FFFF); texts are kept as their UTF-8
    bytes, so the text decoded is the byte sequence itself. *)

Definition between (lo hi : N) (b : byte) : bool :=
  ((lo <=? Byte.to_N b) && (Byte.to_N b <=? hi))%N.

(** A continuation byte, 0x80 to 0xBF. *)
Definition continuation : byte -> bool := between 0x80 0xBF.

Fixpoint utf8_valid (bs : list byte) : bool :=
  match bs with
  | [] => true
  | b0 :: r0 =>
      if between 0x00 0x7F b0 then utf8_valid r0
      else
        match r0 with
        | [] => false
        | b1 :: r1 =>
            if between 0xC2 0xDF b0 then continuation b1 && utf8_valid r1
            else
              match r1 with
              | [] => false
              | b2 :: r2 =>
                  if between 0xE0 0xE0 b0 then
                    between 0xA0 0xBF b1 && continuation b2 && utf8_valid r2
                  else if between 0xE1 0xEC b0 || between 0xEE 0xEF b0 then
                    continuation b1 && continuation b2 && utf8_valid r2
                  else if between 0xED 0xED b0 then
                    between 0x80 0x9F b1 && continuation b2 && utf8_valid r2
                  else
                    match r2 with
                    | [] => false
                    | b3 :: r3 =>
                        if between 0xF0 0xF0 b0 then
                          between 0x90 0xBF b1 && continuation b2
                          && continuation b3 && utf8_valid r3
                        else if between 0xF1 0xF3 b0 then
                          continuation b1 && continuation b2
                          && continuation b3 && utf8_valid r3
                        else if between 0xF4 0xF4 b0 then
                          between 0x80 0x8F b1 && continuation b2
                          && continuation b3 && utf8_valid r3
                        else false
                    end
              end
        end
  end.

Definition decode_utf8 (bs : list byte) : result string :=
  if utf8_valid bs then Ok (String.string_of_list_byte bs)
  else Raise UnicodeDecodeError.

(** ** MapInfo *)

(** [small_preview_type] and [small_preview_path]:
    0 = None, 1 = Minimap, 2 = Custom. *)
Definition small_preview : Init unit :=
  small_preview_type ← read ByteDecoder.read_uint32;
  assign "small_preview_type" (VInt small_preview_type);;
  assign "small_preview_path" (VStr "");;
  if decide (small_preview_type = 2) then
    small_preview_path ← read ByteDecoder.read_cstring;
    assign "small_preview_path" (VStr small_preview_path)
  else mret tt.

(** [large_preview_type] and [large_preview_path]:
    0 = None, 1 = Minimap, 2 = Custom. *)
Definition large_preview : Init unit :=
  large_preview_type ← read ByteDecoder.read_uint32;
  assign "large_preview_type" (VInt large_preview_type);;
  assign "large_preview_path" (VStr "");;
  if decide (large_preview_type = 2) then
    large_preview_path ← read ByteDecoder.read_cstring;
    assign "large_preview_path" (VStr large_preview_path)
  else mret tt.

(** [load_screen_type] and [load_screen_path]: 0 = default, 1 = custom. *)
Definition load_screen : Init unit :=
  load_screen_type ← read ByteDecoder.read_uint32;
  assign "load_screen_type" (VInt load_screen_type);;
  load_screen_path ← read ByteDecoder.read_cstring;
  assign "load_screen_path" (VStr load_screen_path).

(** The statements of [MapInfo.__init__] from the version field to the
    [return] after [player_count]. *)
Definition MapInfo_fields : Init unit :=
  version ← read ByteDecoder.read_uint32;
  assign "version" (VInt version);;
  (if decide (version >= 0x18) then
     unknown1 ← read ByteDecoder.read_uint32;
     assign "unknown1" (VInt unknown1);;
     unknown2 ← read ByteDecoder.read_uint32;
     assign "unknown2" (VInt unknown2)
   else mret tt);;
  width ← read ByteDecoder.read_uint32;
  assign "width" (VInt width);;
  height ← read ByteDecoder.read_uint32;
  assign "height" (VInt height);;
  small_preview;;
  large_preview;;
  (if decide (version >= 0x1f) then
     unknown3 ← read ByteDecoder.read_cstring;
     assign "unknown3" (VStr unknown3);;
     unknown4 ← read ByteDecoder.read_uint32;
     assign "unknown4" (VInt unknown4)
   else mret tt);;
  unknown5 ← read ByteDecoder.read_uint32;
  assign "unknown5" (VInt unknown5);;
  fog_type ← read ByteDecoder.read_cstring;
  assign "fog_type" (VStr fog_type);;
  tile_set ← read ByteDecoder.read_cstring;
  assign "tile_set" (VStr tile_set);;
  camera_left ← read ByteDecoder.read_uint32;
  assign "camera_left" (VInt camera_left);;
  camera_bottom ← read ByteDecoder.read_uint32;
  assign "camera_bottom" (VInt camera_bottom);;
  camera_right ← read ByteDecoder.read_uint32;
  assign "camera_right" (VInt camera_right);;
  camera_top ← read ByteDecoder.read_uint32;
  assign "camera_top" (VInt camera_top);;
  base_height ← read ByteDecoder.read_uint32;
  assign "base_height" (VFloat (inject_Z base_height / 4096));;
  load_screen;;
  unknown6_length ← read ByteDecoder.read_uint16;
  unknown6 ← read (ByteDecoder.read_bytes (Z.to_nat unknown6_length));
  unknown6 ← lift (decode_utf8 unknown6);
  assign "unknown6" (VStr unknown6);;
  load_screen_scaling ← read ByteDecoder.read_uint32;
  assign "load_screen_scaling" (VInt load_screen_scaling);;
  text_position ← read ByteDecoder.read_uint32;
  assign "text_position" (VInt text_position);;
  text_position_offset_x ← read ByteDecoder.read_uint32;
  assign "text_position_offset_x" (VInt text_position_offset_x);;
  text_position_offset_y ← read ByteDecoder.read_uint32;
  assign "text_position_offset_y" (VInt text_position_offset_y);;
  text_position_size_x ← read ByteDecoder.read_uint32;
  assign "text_position_size_x" (VInt text_position_size_x);;
  text_position_size_y ← read ByteDecoder.read_uint32;
  assign "text_position_size_y" (VInt text_position_size_y);;
  data_flags ← read ByteDecoder.read_uint32;
  assign "data_flags" (VInt data_flags);;
  unknown7 ← read ByteDecoder.read_uint32;
  assign "unknown7" (VInt unknown7);;
  (if decide (version >= 0x19) then
     unknown8 ← read (ByteDecoder.read_bytes 8);
     assign "unknown8" (VBytes unknown8)
   else mret tt);;
  (if decide (version >= 0x1f) then
     unknown9 ← read (ByteDecoder.read_bytes 9);
     assign "unknown9" (VBytes unknown9)
   else mret tt);;
  (if decide (version >= 0x20) then
     unknown10 ← read (ByteDecoder.read_bytes 4);
     assign "unknown10" (VBytes unknown10)
   else mret tt);;
  player_count ← read ByteDecoder.read_uint32;
  assign "player_count" (VInt player_count).

(** [MapInfo.__init__(self, contents)] after the cursor is created: the
    magic test, then the fields; the constructor returns after
    [player_count]. *)
Definition MapInfo_init : Init unit :=
  magic ← read (ByteDecoder.read_string 4);
  if decide (magic ≠ "MapI") then
    warn ("Invalid MapInfo file: " +:+ magic)
  else
    MapInfo_fields.

(** [MapInfo(contents)]: the instance and what was logged, or the
    exception. *)
Definition start (contents : list byte) : init_state :=
  {| data := ByteDecoder.make contents; self := ∅; logger := [] |}.

Definition MapInfo (contents : list byte) : result (attrs * list (level * string)) :=
  match MapInfo_init (start contents) with
  | Ok (_, s) => Ok (self s, logger s)
  | Raise e => Raise e
  end.

(** [self.player_count], an integer once it is set. *)
Definition self_player_count : Init Z :=
  fun s =>
    match getattr (self s) "player_count" with
    | Ok (VInt n) => Ok (n, s)
    | Ok _ => Raise ValueError
    | Raise e => Raise e
    end.

(** [data.length != data.tell()] *)
Definition data_not_all_read : Init bool :=
  fun s => Ok (bool_decide (ByteDecoder.length (data s) ≠ ByteDecoder.tell (data s)), s).

(** The two statements that read a relation matrix, once for
    [alliance_flags] and once for [enemy_flags]:

      self.x_length = data.read_uint32()
      self.x = data.read_uint(int(math.ceil(self.x_length/8.0))) *)
Definition relation_flags (length_name flags_name : string) : Init unit :=
  flags_length ← read ByteDecoder.read_uint32;
  assign length_name (VInt flags_length);;
  flags ← read (ByteDecoder.read_uint
    (Z.to_nat (Qceiling (inject_Z flags_length / 8))));
  assign flags_name (VInt flags).

(** The statements of [MapInfo.__init__] below the [return]: the player
    list, the start locations and the two relation matrices.  No path of
    [MapInfo_init] runs them.  The lists are assigned once filled. *)
Definition MapInfo_unreachable : Init unit :=
  player_count ← self_player_count;
  players ← for_range (Z.to_nat player_count)
    (pid ← read ByteDecoder.read_uint8;
     control ← read ByteDecoder.read_uint32;
     color ← read ByteDecoder.read_uint32;
     race ← read ByteDecoder.read_cstring;
     unknown ← read ByteDecoder.read_uint32;
     start_point ← read ByteDecoder.read_uint32;
     ai ← read ByteDecoder.read_uint32;
     decal ← read ByteDecoder.read_cstring;
     mret {| mp_pid := pid; mp_control := control; mp_color := color;
             mp_race := race; mp_unknown := unknown;
             mp_start_point := start_point; mp_ai := ai; mp_decal := decal |});
  assign "players" (VList (VMapInfoPlayer <$> players));;
  start_locations_count ← read ByteDecoder.read_uint32;
  start_locations ← for_range (Z.to_nat start_locations_count)
    (read ByteDecoder.read_uint32);
  assign "start_locations" (VList (VInt <$> start_locations));;
  start_location_used ← read ByteDecoder.read_uint32;
  assign "start_location_used" (VInt start_location_used);;
  relation_flags "alliance_flags_length" "alliance_flags";;
  advanced_start_locations_count ← read ByteDecoder.read_uint32;
  advanced_start_locations ← for_range (Z.to_nat advanced_start_locations_count)
    (read ByteDecoder.read_uint32);
  assign "advanced_start_locations" (VList (VInt <$> advanced_start_locations));;
  advanced_teams_flags_count ← read ByteDecoder.read_uint32;
  advanced_teams_flags ← for_range (Z.to_nat advanced_teams_flags_count)
    (read ByteDecoder.read_uint32);
  assign "advanced_teams_flags" (VList (VInt <$> advanced_teams_flags));;
  advanced_teams_count2 ← read ByteDecoder.read_uint32;
  assign "advanced_teams_count2" (VInt advanced_teams_count2);;
  relation_flags "enemy_flags_length" "enemy_flags";;
  unread ← data_not_all_read;
  if unread : bool then warn "Not all of the MapInfo file was read!"
  else mret tt.

(** Modelled from the spec: the module stores a relation matrix as the
    integer it reads and has no function that maps the bits of that
    integer to pairs; the comments above the two reads only sketch a loop
    in pseudo-code.  Section 4.1 of the specification gives the mapping:
    "Bit k corresponds to the pair (i, j) with i < j, enumerated in
    row-major order over ascending i, then ascending j".  [pairs count]
    is that enumeration for [count] entities; bit [k] of a matrix is the
    binary digit of weight [2^k] of the integer read. *)
Definition row (count i : nat) : list (nat * nat) :=
  pair i <$> seq (S i) (count - S i).

Definition pairs (count : nat) : list (nat * nat) :=
  seq 0 count ≫= row count.

(** The pairs a matrix marks: those whose bit is set. *)
Definition marked (count : nat) (flags : Z) : list (nat * nat) :=
  (filter (fun kp => Z.testbit flags (Z.of_nat kp.1) = true)
          (imap pair (pairs count))).*2.

(** The pairs before row [i] in the enumeration. *)
Fixpoint row_offset (count i : nat) : nat :=
  match i with
  | O => O
  | S i' => (row_offset count i' + (count - S i'))%nat
  end.

(** The rank of the pair [(i, j)] in the enumeration, from 0: the
    triangular arithmetic that maps a pair to its bit. *)
Definition pair_index (count i j : nat) : nat :=
  (row_offset count i + (j - S i))%nat.

(** ** Python text operations *)

Module Py.

(** [s.split(sep)] for a one-character separator. *)
Fixpoint split (sep : ascii) (s : string) : list string :=
  match s with
  | EmptyString => [""]
  | String c s' =>
      if decide (c = sep) then "" :: split sep s'
      else match split sep s' with
           | [] => [String c ""]
           | part :: parts => String c part :: parts
           end
  end.

(** [s.lstrip(chars)] *)
Fixpoint lstrip (chars : list ascii) (s : string) : string :=
  match s with
  | EmptyString => ""
  | String c s' => if bool_decide (c ∈ chars) then lstrip chars s' else s
  end.

(** [s.rstrip(chars)] *)
Fixpoint rstrip (chars : list ascii) (s : string) : string :=
  match s with
  | EmptyString => ""
  | String c s' =>
      match rstrip chars s' with
      | EmptyString => if bool_decide (c ∈ chars) then "" else String c ""
      | r => String c r
      end
  end.

(** [s.strip(chars)] *)
Definition strip (chars : list ascii) (s : string) : string :=
  rstrip chars (lstrip chars s).

(** [s[::-1]] *)
Definition reversed (s : string) : string := String.rev s.

(** [sep.join(parts)] *)
Fixpoint join (sep : string) (parts : list string) : string :=
  match parts with
  | [] => ""
  | [part] => part
  | part :: parts' => part +:+ sep +:+ join sep parts'
  end.

(** The characters [int] ignores around a numeral. *)
Definition whitespace : list ascii :=
  [" "; "009"; "010"; "011"; "012"; "013"]%char.

Definition digit (c : ascii) : option Z :=
  let n := Z.of_N (N_of_ascii c) in
  if decide (48 <= n <= 57) then Some (n - 48) else None.

Fixpoint digits (acc : Z) (s : string) : option Z :=
  match s with
  | EmptyString => Some acc
  | String c s' => d ← digit c; digits (10 * acc + d) s'
  end.

(** [int(s)] for a text [s]: optional blanks, an optional sign, and
    decimal digits; anything else raises [ValueError].  This is [int] on
    the texts of ASCII characters without an underscore and without the
    separators 0x1c to 0x1f; digit grouping with underscores, those
    separators as blanks, and blanks and digits outside ASCII, which
    [int] accepts too, are not modelled, and neither is its refusal of a
    text of more than 4300 digits. *)
Definition int (s : string) : result Z :=
  let s := strip whitespace s in
  let '(sign, body) :=
    match s with
    | String "-" body => (-1, body)
    | String "+" body => (1, body)
    | _ => (1, s)
    end in
  match body with
  | EmptyString => Raise ValueError
  | _ => match digits 0 body with
         | Some n => Ok (sign * n)
         | None => Raise ValueError
         end
  end.

(** [str(n)] for an integer. *)
Definition str_int (n : Z) : string :=
  DecimalString.NilZero.string_of_int (Z.to_int n).

(** [sorted(l)] for a list of texts: the order on texts is total and
    antisymmetric, so the sorted list does not depend on the sorting
    algorithm. *)
Definition sorted (l : list string) : list string := merge_sort String.le l.

End Py.

(** ** Objects of the replay model *)

Inductive class : Type :=
| Entity | Player | User | Observer | Computer | Participant.

(** The classes that inherit from [User], and with it the [url]
    property. *)
Definition is_User (c : class) : bool :=
  match c with
  | User | Observer | Participant => true
  | Entity | Player | Computer => false
  end.

Record object : Type := { class_of : class; dict : attrs }.

(** [Team]: the class attributes [number], [players], [result] are
    replaced by instance attributes in [__init__]; [hash] and [lineup]
    are properties. *)
Record Team : Type := {
  number : Z;
  players : list object;
  result_of : string
}.

Definition Team_init (number : Z) : Team :=
  {| number := number; players := []; result_of := "Unknown" |}.

(** Modelled from the spec: nothing in this module appends to
    [Team.players]; section 4.3 of the specification has the callers add
    a participant at the end of the list, keeping insertion order and
    duplicates. *)
Definition Team_add (p : object) (t : Team) : Team :=
  {| number := number t; players := players t ++ [p];
     result_of := result_of t |}.

(** [x or default] for an optional text: [None] and the empty text are
    false. *)
Definition or_default (x : option string) (default : string) : string :=
  match x with
  | None | Some EmptyString => default
  | Some s => s
  end.

Definition opt_str (x : option string) : value :=
  match x with Some s => VStr s | None => VNone end.

Definition opt_int (x : option Z) : value :=
  match x with Some n => VInt n | None => VNone end.

Section constants.

(** The tables of [sc2reader.constants] and the digest of [hashlib]
    are not part of this module.  The tables are dictionaries; the
    digest may refuse a text it cannot encode. *)
Context (GATEWAY_LOOKUP : gmap Z string).
Context (LOCALIZED_RACES : gmap string string).
Context (LOBBY_PROPERTIES : gmap Z (string * gmap string string)).
Context (sha256_hexdigest : string -> result string).

(** [Entity.__init__(self, sid, slot_data)] *)
Definition Entity_init (sid : Z) (slot : slot_data) (self : attrs) : result attrs :=
  let self := setattr "sid" (VInt sid) self in
  let self := setattr "slot_data" (VSlotData slot) self in
  let self := setattr "handicap" (VInt (sd_handicap slot)) self in
  let self := setattr "team_id" (VInt (sd_team_id slot + 1)) self in
  let self := setattr "is_human" (VBool (bool_decide (sd_control slot = 2))) self in
  let self := setattr "is_observer" (VBool (bool_decide (sd_observe slot ≠ 0))) self in
  let self := setattr "is_referee" (VBool (bool_decide (sd_observe slot = 2))) self in
  let self := setattr "hero_name" (VStr (sd_hero slot)) self in
  let self := setattr "hero_skin" (VStr (sd_skin slot)) self in
  let self := setattr "hero_mount" (VStr (sd_mount slot)) self in
  let self := setattr "toon_handle" (opt_str (sd_toon_handle slot)) self in
  let toon_handle := or_default (sd_toon_handle slot) "0-S2-0-0" in
  let parts := Py.split "-" toon_handle in
  part0 ← index parts 0;
  region_id ← Py.int part0;
  region ← subscript GATEWAY_LOOKUP region_id;
  let self := setattr "region" (VStr region) self in
  let self := setattr "gateway" (VStr region) self in
  part2 ← index parts 2;
  subregion ← Py.int part2;
  let self := setattr "subregion" (VInt subregion) self in
  part3 ← index parts 3;
  toon_id ← Py.int part3;
  let self := setattr "toon_id" (VInt toon_id) self in
  let self := setattr "archon_leader_id"
                (opt_int (sd_tandem_leader_user_id slot)) self in
  let self := setattr "events" (VList []) self in
  let self := setattr "messages" (VList []) self in
  Ok self.

(** [Player.__init__(self, pid, detail_data, attribute_data)] *)
Definition Player_init (pid : Z) (detail : detail_data)
    (attribute_data : gmap string string) (self : attrs) : result attrs :=
  let self := setattr "pid" (VInt pid) self in
  let self := setattr "detail_data" (VDetailData detail) self in
  let self := setattr "attribute_data" (VAttributeData attribute_data) self in
  let self := setattr "result" VNone self in
  let self :=
    if decide (dd_result detail = 1) then setattr "result" (VStr "Win") self
    else if decide (dd_result detail = 2) then setattr "result" (VStr "Loss") self
    else self in
  let self := setattr "team" VNone self in
  let self := setattr "pick_race"
                (VStr (default "Unknown" (attribute_data !! "Race"))) self in
  let self := setattr "difficulty"
                (VStr (default "Unknown" (attribute_data !! "Difficulty"))) self in
  let self := setattr "play_race"
                (VStr (default (dd_race detail)
                         (LOCALIZED_RACES !! dd_race detail))) self in
  let self := setattr "color" (VColor (dd_color detail)) self in
  let self := setattr "units" (VList []) self in
  let self := setattr "killed_units" (VList []) self in
  region ← subscript GATEWAY_LOOKUP (bd_region (dd_bnet detail));
  let self := setattr "region" (VStr region) self in
  let self := setattr "gateway" (VStr region) self in
  let self := setattr "subregion" (VInt (bd_subregion (dd_bnet detail))) self in
  let self := setattr "toon_id" (VInt (bd_uid (dd_bnet detail))) self in
  Ok self.

(** [User.__init__(self, uid, init_data)] *)
Definition User_init (uid : Z) (init : init_data) (self : attrs) : result attrs :=
  let self := setattr "uid" (VInt uid) self in
  let self := setattr "init_data" (VInitData init) self in
  let self := setattr "clan_tag" (VStr (id_clan_tag init)) self in
  let self := setattr "name" (VStr (id_name init)) self in
  let self := setattr "combined_race_levels"
                (VInt (id_combined_race_levels init)) self in
  let self := setattr "highest_league" (VInt (id_highest_league init)) self in
  let self := setattr "recorder" VNone self in
  Ok self.

(** [Observer(sid, slot_data, uid, init_data, pid)] *)
Definition Observer_new (sid : Z) (slot : slot_data) (uid : Z)
    (init : init_data) (pid : Z) : result object :=
  self ← Entity_init sid slot ∅;
  self ← User_init uid init self;
  let self := setattr "pid" (VInt pid) self in
  Ok {| class_of := Observer; dict := self |}.

(** [Computer(sid, slot_data, pid, detail_data, attribute_data)] *)
Definition Computer_new (sid : Z) (slot : slot_data) (pid : Z)
    (detail : detail_data) (attribute_data : gmap string string) : result object :=
  self ← Entity_init sid slot ∅;
  self ← Player_init pid detail attribute_data self;
  let self := setattr "name" (VStr (dd_name detail)) self in
  Ok {| class_of := Computer; dict := self |}.

(** [Participant(sid, slot_data, uid, init_data, pid, detail_data,
    attribute_data)] *)
Definition Participant_new (sid : Z) (slot : slot_data) (uid : Z)
    (init : init_data) (pid : Z) (detail : detail_data)
    (attribute_data : gmap string string) : result object :=
  self ← Entity_init sid slot ∅;
  self ← User_init uid init self;
  self ← Player_init pid detail attribute_data self;
  Ok {| class_of := Participant; dict := self |}.

(** A replacement field [{name}] of [str.format] over [self.__dict__]: a
    missing key raises [KeyError].  The fields of the URL template hold
    texts and integers; other values do not occur there. *)
Definition format_field (self : attrs) (name : string) : result string :=
  v ← subscript self name;
  match v with
  | VStr s => Ok s
  | VInt n => Ok (Py.str_int n)
  | VNone => Ok "None"
  | VBool true => Ok "True"
  | VBool false => Ok "False"
  | _ => Raise ValueError
  end.

(** The property [User.url]:
    "http://{region}.battle.net/sc2/en/profile/{toon_id}/{subregion}/{name}/" *)
Definition url (p : object) : result string :=
  if is_User (class_of p) then
    region ← format_field (dict p) "region";
    toon_id ← format_field (dict p) "toon_id";
    subregion ← format_field (dict p) "subregion";
    name ← format_field (dict p) "name";
    Ok ("http://" +:+ region +:+ ".battle.net/sc2/en/profile/" +:+ toon_id
        +:+ "/" +:+ subregion +:+ "/" +:+ name +:+ "/")
  else Raise AttributeError.

(** [p.url for p in self.players], stopping at the first exception. *)
Fixpoint urls (ps : list object) : result (list string) :=
  match ps with
  | [] => Ok []
  | p :: ps' => u ← url p; us ← urls ps'; Ok (u :: us)
  end.

(** The property [Team.hash]. *)
Definition Team_hash (t : Team) : result string :=
  us ← urls (players t);
  let raw_hash := Py.join "," (Py.sorted us) in
  sha256_hexdigest raw_hash.

(** [Attribute(header, attr_id, player, value)]: the instance and what
    was logged. *)
Definition Attribute_new (header : Z) (attr_id : Z) (player : Z)
    (value : string) : result (attrs * list (level * string)) :=
  let self := setattr "header" (VInt header) ∅ in
  let self := setattr "id" (VInt attr_id) self in
  let self := setattr "player" (VInt player) self in
  match LOBBY_PROPERTIES !! attr_id with
  | None =>
      let log := [(INFO, "Unknown attribute id: " +:+ Py.str_int attr_id)] in
      let self := setattr "name" (VStr "Unknown") self in
      let self := setattr "value" VNone self in
      Ok (self, log)
  | Some (name, lookup) =>
      let self := setattr "name" (VStr name) self in
      v ← subscript lookup (Py.reversed (Py.strip ["000"; " "]%char value));
      let self := setattr "value" (VStr v) self in
      Ok (self, [])
  end.

End constants.

(** ** Composition of a participant *)

Inductive composed : Type :=
| Composed (p : object)
| InconsistentInput
| Raised (e : exn).

Definition of_result (r : result object) : composed :=
  match r with
  | Ok p => Composed p
  | Raise e => Raised e
  end.

Section compose.

Context (GATEWAY_LOOKUP : gmap Z string).
Context (LOCALIZED_RACES : gmap string string).

(** Modelled from the spec: the code that chooses which class to
    instantiate for a slot is not part of this module.  Section 4.2 of
    the specification has [compose] pick the kind from which of the user
    and detail records are present, and report the absence of both as
    the fault InconsistentInput; the attribute record defaults to an
    empty one.  Each kind is built by the constructor of its class. *)
Definition compose (sid : Z) (slot : slot_data) (uid pid : Z)
    (user : option init_data) (detail : option detail_data)
    (attributes : option (gmap string string)) : composed :=
  let attribute_data := default ∅ attributes in
  match user, detail with
  | None, Some detail =>
      of_result (Computer_new GATEWAY_LOOKUP LOCALIZED_RACES
                   sid slot pid detail attribute_data)
  | Some init, Some detail =>
      of_result (Participant_new GATEWAY_LOOKUP LOCALIZED_RACES
                   sid slot uid init pid detail attribute_data)
  | Some init, None =>
      of_result (Observer_new GATEWAY_LOOKUP sid slot uid init pid)
  | None, None => InconsistentInput
  end.

End compose.

(** ** Sample inputs *)

Module Sample.

Definition byte_of_Z (n : Z) : byte :=
  default x00 (Byte.of_N (Z.to_N (n mod 256))).

(** [count] bytes of [n], least significant first. *)
Fixpoint le_bytes (count : nat) (n : Z) : list byte :=
  match count with
  | O => []
  | S count' => byte_of_Z n :: le_bytes count' (n / 256)
  end.

Definition u8 : Z -> list byte := le_bytes 1.
Definition u16 : Z -> list byte := le_bytes 2.
Definition u32 : Z -> list byte := le_bytes 4.

Definition text (s : string) : list byte := String.list_byte_of_string s.
Definition cstring (s : string) : list byte := text s ++ [x00].

(** A version 0x20 descriptor up to the player count: a custom small
    preview, no large preview, the default loading screen. *)
Definition prefix : list byte :=
  text "MapI" ++ u32 0x20 ++ u32 7 ++ u32 8
  ++ u32 176 ++ u32 152
  ++ u32 2 ++ cstring "Minimap.tga"
  ++ u32 0
  ++ cstring "" ++ u32 0
  ++ u32 0 ++ cstring "Dark" ++ cstring "Agria"
  ++ u32 7 ++ u32 4 ++ u32 169 ++ u32 148
  ++ u32 4096
  ++ u32 0 ++ cstring "x"
  ++ u16 3 ++ text "abc"
  ++ u32 0 ++ u32 0xffffffff ++ u32 0 ++ u32 0 ++ u32 0 ++ u32 0
  ++ u32 1 ++ u32 0
  ++ text "12345678" ++ text "123456789" ++ text "1234"
  ++ u32 1.

(** The rest of that descriptor: one player, three start locations, an
    alliance matrix and an enemy matrix of four bits each. *)
Definition tail : list byte :=
  u8 1 ++ u32 1 ++ u32 2 ++ cstring "Terr" ++ u32 0 ++ u32 1 ++ u32 0
  ++ cstring ""
  ++ u32 3 ++ u32 10 ++ u32 11 ++ u32 12
  ++ u32 3
  ++ u32 4 ++ [x02]
  ++ u32 0
  ++ u32 0
  ++ u32 0
  ++ u32 4 ++ [x04].

Definition GATEWAY_LOOKUP : gmap Z string :=
  {[ 0 := ""; 1 := "us"; 2 := "eu" ]}.

Definition LOCALIZED_RACES : gmap string string :=
  {[ "Terr" := "Terran"; "Prot" := "Protoss"; "Zerg" := "Zerg" ]}.

Definition LOBBY_PROPERTIES : gmap Z (string * gmap string string) :=
  {[ 3001 := ("Race", {[ "Terr" := "Terran"; "Prot" := "Protoss" ]});
     3004 := ("Difficulty", {[ "EM" := "Medium"; "yEyV" := "Very Easy" ]}) ]}.

Definition slot (observe : Z) (toon_handle : option string) : slot_data :=
  {| sd_handicap := 100; sd_team_id := 0; sd_control := 2;
     sd_observe := observe; sd_hero := ""; sd_skin := ""; sd_mount := "";
     sd_toon_handle := toon_handle; sd_tandem_leader_user_id := None |}.

Definition init (name : string) : init_data :=
  {| id_clan_tag := ""; id_name := name; id_combined_race_levels := 0;
     id_highest_league := 8 |}.

Definition detail (name : string) : detail_data :=
  {| dd_name := name; dd_result := 1; dd_race := "Terr";
     dd_color := {| cd_r := 180; cd_g := 20; cd_b := 30; cd_a := 255 |};
     dd_bnet := {| bd_region := 1; bd_subregion := 3; bd_uid := 12345 |} |}.

(** What a constructor returned; an empty instance if it raised. *)
Definition returned (r : result object) : object :=
  match r with
  | Ok p => p
  | Raise _ => {| class_of := Entity; dict := ∅ |}
  end.

Definition bob : object :=
  returned (Observer_new GATEWAY_LOOKUP 4 (slot 1 (Some "1-S2-3-12345"))
              7 (init "bob") 0).

Definition al : object :=
  returned (Observer_new GATEWAY_LOOKUP 5 (slot 1 (Some "2-S2-1-77"))
              8 (init "al") 0).

End Sample.

(** * Properties *)

(** ** The byte cursor *)

Section cursor.

Import ByteDecoder.

(** Bytes appended to the buffer. *)
Definition extend (extra : list byte) (d : t) : t :=
  {| tell := tell d; rest := rest d ++ extra |}.

(** A read that succeeds does not look past what it consumes. *)
Definition local {A} (f : t -> result (A * t)) : Prop :=
  forall d a d' extra,
    f d = Ok (a, d') -> f (extend extra d) = Ok (a, extend extra d').

(** A read fails only on a truncated buffer. *)
Definition strict {A} (f : t -> result (A * t)) : Prop :=
  forall d e, f d = Raise e -> e = StructError.

Lemma read_bytes_Ok count d bs d' :
  read_bytes count d = Ok (bs, d') ->
  (count <= List.length (rest d))%nat /\ bs = take count (rest d) /\
  d' = {| tell := (tell d + count)%nat; rest := drop count (rest d) |}.
Proof.
  unfold read_bytes. case_decide; [|discriminate].
  intros [= <- <-]. auto.
Qed.

Lemma read_bytes_local count : local (read_bytes count).
Proof.
  intros d a d' extra (Hle & -> & ->)%read_bytes_Ok.
  unfold read_bytes, extend; simpl.
  rewrite decide_True by (rewrite length_app; lia).
  by rewrite take_app_le, drop_app_le.
Qed.

Lemma read_bytes_strict count : strict (read_bytes count).
Proof. intros d e. unfold read_bytes. case_decide; congruence. Qed.

Lemma read_uint_le_local count : local (read_uint_le count).
Proof.
  intros d a d' extra. unfold read_uint_le.
  destruct (read_bytes count d) as [[bs d1]|] eqn:H; [|discriminate].
  simpl. intros [= <- <-].
  by rewrite (read_bytes_local _ _ _ _ extra H).
Qed.

Lemma read_uint_le_strict count : strict (read_uint_le count).
Proof.
  intros d e. unfold read_uint_le.
  destruct (read_bytes count d) as [[bs d1]|] eqn:H; [discriminate|].
  simpl. intros [= <-]. by eapply read_bytes_strict.
Qed.

Lemma read_uint_local count : local (read_uint count).
Proof.
  intros d a d' extra. unfold read_uint.
  destruct (read_bytes count d) as [[bs d1]|] eqn:H; [|discriminate].
  simpl. intros [= <- <-].
  by rewrite (read_bytes_local _ _ _ _ extra H).
Qed.

Lemma read_string_local count : local (read_string count).
Proof.
  intros d a d' extra. unfold read_string.
  destruct (read_bytes count d) as [[bs d1]|] eqn:H; [|discriminate].
  simpl. intros [= <- <-].
  by rewrite (read_bytes_local _ _ _ _ extra H).
Qed.

Lemma split_null_app bs s r extra :
  split_null bs = Some (s, r) -> split_null (bs ++ extra) = Some (s, r ++ extra).
Proof.
  revert s r. induction bs as [|b bs IH]; intros s r; simpl; [discriminate|].
  case_decide.
  - by intros [= <- <-].
  - destruct (split_null bs) as [[s1 r1]|]; [|discriminate].
    simpl. intros [= <- <-]. by rewrite (IH _ _ eq_refl).
Qed.

Lemma read_cstring_local : local read_cstring.
Proof.
  intros d a d' extra. unfold read_cstring.
  destruct (split_null (rest d)) as [[s r]|] eqn:H; [|discriminate].
  intros [= <- <-]. simpl. by rewrite (split_null_app _ _ _ extra H).
Qed.

Lemma read_cstring_strict : strict read_cstring.
Proof.
  intros d e. unfold read_cstring.
  destruct (split_null (rest d)) as [[s r]|]; congruence.
Qed.

Lemma read_uint8_local : local read_uint8.
Proof. apply read_uint_le_local. Qed.
Lemma read_uint16_local : local read_uint16.
Proof. apply read_uint_le_local. Qed.
Lemma read_uint32_local : local read_uint32.
Proof. apply read_uint_le_local. Qed.
Lemma read_uint16_strict : strict read_uint16.
Proof. apply read_uint_le_strict. Qed.
Lemma read_uint32_strict : strict read_uint32.
Proof. apply read_uint_le_strict. Qed.

End cursor.

Create HintDb cursor.
#[local] Hint Resolve read_bytes_local read_uint_le_local read_uint_local
  read_string_local read_cstring_local read_bytes_strict read_uint_le_strict
  read_cstring_strict read_uint8_local read_uint16_local read_uint32_local
  read_uint16_strict read_uint32_strict : cursor.

(** ** Constructors that read a buffer *)

Section init.

(** From states that satisfy [P], the action ends in a state that
    satisfies [Q], or raises an exception that satisfies [E]. *)
Definition triple {A} (P : init_state -> Prop) (m : Init A)
    (Q : A -> init_state -> Prop) (E : exn -> Prop) : Prop :=
  forall s, P s ->
    match m s with
    | Ok (a, s') => Q a s'
    | Raise e => E e
    end.

Lemma triple_ret {A} (P : init_state -> Prop) (a : A) Q E :
  (forall s, P s -> Q a s) -> triple P (mret a) Q E.
Proof. intros H s Hs. by apply H. Qed.

Lemma triple_bind {A B} P (m : Init A) (f : A -> Init B) R Q E :
  triple P m R E -> (forall a, triple (R a) (f a) Q E) ->
  triple P (m ≫= f) Q E.
Proof.
  intros Hm Hf s Hs. specialize (Hm s Hs).
  unfold mbind, Init_bind. destruct (m s) as [[a s']|e]; [|done].
  by apply Hf.
Qed.

Lemma triple_read {A} P (f : ByteDecoder.t -> result (A * ByteDecoder.t)) Q E :
  strict f -> E StructError ->
  (forall s a d, P s ->
     Q a {| data := d; self := self s; logger := logger s |}) ->
  triple P (read f) Q E.
Proof.
  intros Hf HE H s Hs. unfold read.
  destruct (f (data s)) as [[a d]|e] eqn:Hfd; [by apply H|].
  by rewrite (Hf _ _ Hfd).
Qed.

Lemma triple_lift {A} P (r : result A) Q E :
  (forall e, r = Raise e -> E e) ->
  (forall s a, P s -> Q a s) ->
  triple P (lift r) Q E.
Proof.
  intros HE H s Hs. unfold lift. destruct r as [a|e]; [by apply H|by apply HE].
Qed.

Lemma triple_assign P name v (Q : unit -> init_state -> Prop) E :
  (forall s, P s ->
     Q tt {| data := data s; self := setattr name v (self s);
             logger := logger s |}) ->
  triple P (assign name v) Q E.
Proof. intros H s Hs. by apply H. Qed.

(** The state with bytes appended to the buffer. *)
Definition extend_state (extra : list byte) (s : init_state) : init_state :=
  {| data := extend extra (data s); self := self s; logger := logger s |}.

(** An action that succeeds gives the same result when bytes are
    appended to the buffer, and leaves them unread. *)
Definition framed {A} (m : Init A) : Prop :=
  forall s a s' extra,
    m s = Ok (a, s') -> m (extend_state extra s) = Ok (a, extend_state extra s').

Lemma framed_ret {A} (a : A) : framed (mret a).
Proof. by intros s a' s' extra [= <- <-]. Qed.

Lemma framed_bind {A B} (m : Init A) (f : A -> Init B) :
  framed m -> (forall a, framed (f a)) -> framed (m ≫= f).
Proof.
  intros Hm Hf s b s' extra. unfold mbind, Init_bind.
  destruct (m s) as [[a s1]|e] eqn:Hs; [|discriminate].
  intros Hfa. rewrite (Hm _ _ _ extra Hs). by apply Hf.
Qed.

Lemma framed_read {A} (f : ByteDecoder.t -> result (A * ByteDecoder.t)) :
  local f -> framed (read f).
Proof.
  intros Hf s a s' extra. unfold read.
  destruct (f (data s)) as [[a1 d]|e] eqn:Hfd; [|discriminate].
  intros [= <- <-]. simpl. by rewrite (Hf _ _ _ extra Hfd).
Qed.

Lemma framed_lift {A} (r : result A) : framed (lift r).
Proof.
  intros s a s' extra. unfold lift. destruct r; [|discriminate].
  by intros [= <- <-].
Qed.

Lemma framed_assign name v : framed (assign name v).
Proof. by intros s a s' extra [= <- <-]. Qed.

Lemma framed_warn msg : framed (warn msg).
Proof. by intros s a s' extra [= <- <-]. Qed.

End init.

(** What [MapInfo.__init__] can raise: the fault of the cursor on a
    truncated buffer, and that of [decode] on a text that is not UTF-8. *)
Definition decoding_fault (e : exn) : Prop :=
  e = StructError \/ e = UnicodeDecodeError.

Lemma decode_utf8_strict (bs : list byte) (e : exn) :
  decode_utf8 bs = Raise e -> e = UnicodeDecodeError.
Proof. unfold decode_utf8. destruct (utf8_valid bs); congruence. Qed.

(** The exception at hand is one the postcondition allows. *)
Ltac allowed :=
  first [ reflexivity | exact I | by left | by right ].

Ltac head_of t :=
  lazymatch t with
  | ?f _ => head_of f
  | _ => t
  end.

(** One step of a constructor in which every read is from the cursor and
    every assignment keeps the invariant [I]. *)
Ltac triple_inv I :=
  lazymatch goal with
  | |- triple _ (_ ≫= _) _ _ =>
      eapply triple_bind with (R := fun _ => I);
      [triple_inv I | intros ?; triple_inv I]
  | |- triple _ (if decide _ then _ else _) _ _ =>
      case_decide; triple_inv I
  | |- triple _ (read _) _ _ =>
      apply triple_read; [auto with cursor | allowed | by intros ? ? ?]
  | |- triple _ (lift _) _ _ =>
      apply triple_lift;
      [intros ? ->%decode_utf8_strict; allowed | by intros ? ? ?]
  | |- triple _ (mret _) _ _ =>
      apply triple_ret; by intros ?
  | |- triple _ (assign _ _) _ _ =>
      apply triple_assign
  | |- triple _ ?m _ _ =>
      let h := head_of m in unfold h; triple_inv I
  end.

Ltac framed_steps :=
  lazymatch goal with
  | |- framed (_ ≫= _) =>
      apply framed_bind; [framed_steps | intros ?; framed_steps]
  | |- framed (if decide _ then _ else _) => case_decide; framed_steps
  | |- framed (read _) => apply framed_read; auto with cursor
  | |- framed (lift _) => apply framed_lift
  | |- framed (mret _) => apply framed_ret
  | |- framed (assign _ _) => apply framed_assign
  | |- framed (warn _) => apply framed_warn
  | |- framed ?m => let h := head_of m in unfold h; framed_steps
  end.

Lemma MapInfo_fields_framed : framed MapInfo_fields.
Proof. framed_steps. Qed.

Lemma MapInfo_init_framed : framed MapInfo_init.
Proof. framed_steps. Qed.

(** ** MapInfo *)

(** The first four bytes of a buffer, as [read_string(4)] returns them. *)
Definition magic_of (contents : list byte) : string :=
  String.string_of_list_byte (take 4 contents).

(** The attributes that only the statements below the [return] assign. *)
Definition tail_attributes : list string :=
  [ "players"; "start_locations"; "start_location_used";
    "alliance_flags_length"; "alliance_flags"; "advanced_start_locations";
    "advanced_teams_flags"; "advanced_teams_count2"; "enemy_flags_length";
    "enemy_flags" ].

Definition no_tail (self : attrs) : Prop :=
  forall name, name ∈ tail_attributes -> self !! name = None.

(** Nothing of the tail is set and nothing was logged. *)
Definition quiet (s : init_state) : Prop :=
  no_tail (self s) /\ logger s = [].

Lemma no_tail_setattr name v self :
  name ∉ tail_attributes -> no_tail self -> no_tail (setattr name v self).
Proof.
  intros Hname Hself k Hk. unfold setattr.
  rewrite lookup_insert_ne; [by apply Hself | by intros ->].
Qed.

Ltac not_in_tail :=
  apply (bool_decide_unpack _); vm_compute; exact I.

Ltac keeps_quiet :=
  intros ? [? ?]; unfold quiet; simpl;
  repeat lazymatch goal with
    | |- _ /\ _ => split
    | |- no_tail (setattr _ _ _) => apply no_tail_setattr; [not_in_tail | done]
    | |- exists _, _ => eexists; apply lookup_insert_eq
    | |- _ => done
    end.

Lemma MapInfo_fields_quiet :
  triple quiet MapInfo_fields
    (fun _ s => quiet s /\ exists n, self s !! "player_count" = Some (VInt n))
    decoding_fault.
Proof. triple_inv quiet; keeps_quiet. Qed.

Lemma read_magic contents :
  (4 <= length contents)%nat ->
  read (ByteDecoder.read_string 4) (start contents)
  = Ok (magic_of contents,
        {| data := {| ByteDecoder.tell := 4; ByteDecoder.rest := drop 4 contents |};
           self := ∅; logger := [] |}).
Proof.
  intros Hlen. unfold read, ByteDecoder.read_string, ByteDecoder.read_bytes.
  simpl. by rewrite decide_True by done.
Qed.

(** C4.  A buffer whose first four bytes are not the signature "MapI":
    the constructor returns at once, without an exception; no attribute
    of the instance is set, not even the version, and the one thing done
    is the warning "Invalid MapInfo file" with the bytes found. *)
Theorem MapInfo_invalid_magic (contents : list byte) :
  (4 <= length contents)%nat ->
  magic_of contents ≠ "MapI" ->
  MapInfo contents
  = Ok (∅, [(WARN, "Invalid MapInfo file: " +:+ magic_of contents)]).
Proof.
  intros Hlen Hmagic. unfold MapInfo, MapInfo_init.
  unfold mbind at 1, Init_bind at 1. rewrite read_magic by done.
  by rewrite decide_True by done.
Qed.

Lemma MapInfo_invalid_magic_witness :
  MapInfo (Sample.text "MapX" ++ Sample.u32 0x20 ++ Sample.u32 7)
  = Ok (∅, [(WARN, "Invalid MapInfo file: MapX")]).
Proof.
  apply (MapInfo_invalid_magic (Sample.text "MapX" ++ Sample.u32 0x20 ++ Sample.u32 7)).
  - vm_compute. lia.
  - vm_compute. discriminate.
Defined.

(** ** The layout of the prefix *)

(** The fields of a descriptor up to the player count, as the file holds
    them: counts and codes as numbers, texts and blobs as bytes.  The
    fields of a block that the version or the preview type leaves out
    are not written. *)
Record descriptor : Type := {
  d_version : Z;
  d_unknown1 : Z;
  d_unknown2 : Z;
  d_width : Z;
  d_height : Z;
  d_small_preview_type : Z;
  d_small_preview_path : list byte;
  d_large_preview_type : Z;
  d_large_preview_path : list byte;
  d_unknown3 : list byte;
  d_unknown4 : Z;
  d_unknown5 : Z;
  d_fog_type : list byte;
  d_tile_set : list byte;
  d_camera_left : Z;
  d_camera_bottom : Z;
  d_camera_right : Z;
  d_camera_top : Z;
  d_base_height : Z;
  d_load_screen_type : Z;
  d_load_screen_path : list byte;
  d_unknown6 : list byte;
  d_load_screen_scaling : Z;
  d_text_position : Z;
  d_text_position_offset_x : Z;
  d_text_position_offset_y : Z;
  d_text_position_size_x : Z;
  d_text_position_size_y : Z;
  d_data_flags : Z;
  d_unknown7 : Z;
  d_unknown8 : list byte;
  d_unknown9 : list byte;
  d_unknown10 : list byte;
  d_player_count : Z
}.

(** A text followed by its null byte. *)
Definition cstr (bs : list byte) : list byte := bs ++ [x00].

(** A preview type, and the path when the type is 2 (Custom). *)
Definition encode_preview (type : Z) (path : list byte) : list byte :=
  Sample.u32 type ++ (if decide (type = 2) then cstr path else []).

(** The type of the loading screen and its path, which is always
    there. *)
Definition encode_load_screen (type : Z) (path : list byte) : list byte :=
  Sample.u32 type ++ cstr path.

(** The bytes of a descriptor after the signature. *)
Definition encode_fields (d : descriptor) : list byte :=
  Sample.u32 (d_version d) ++
  (if decide (d_version d >= 0x18)
   then Sample.u32 (d_unknown1 d) ++ Sample.u32 (d_unknown2 d) else []) ++
  Sample.u32 (d_width d) ++
  Sample.u32 (d_height d) ++
  encode_preview (d_small_preview_type d) (d_small_preview_path d) ++
  encode_preview (d_large_preview_type d) (d_large_preview_path d) ++
  (if decide (d_version d >= 0x1f)
   then cstr (d_unknown3 d) ++ Sample.u32 (d_unknown4 d) else []) ++
  Sample.u32 (d_unknown5 d) ++
  cstr (d_fog_type d) ++
  cstr (d_tile_set d) ++
  Sample.u32 (d_camera_left d) ++
  Sample.u32 (d_camera_bottom d) ++
  Sample.u32 (d_camera_right d) ++
  Sample.u32 (d_camera_top d) ++
  Sample.u32 (d_base_height d) ++
  encode_load_screen (d_load_screen_type d) (d_load_screen_path d) ++
  Sample.u16 (Z.of_nat (length (d_unknown6 d))) ++
  d_unknown6 d ++
  Sample.u32 (d_load_screen_scaling d) ++
  Sample.u32 (d_text_position d) ++
  Sample.u32 (d_text_position_offset_x d) ++
  Sample.u32 (d_text_position_offset_y d) ++
  Sample.u32 (d_text_position_size_x d) ++
  Sample.u32 (d_text_position_size_y d) ++
  Sample.u32 (d_data_flags d) ++
  Sample.u32 (d_unknown7 d) ++
  (if decide (d_version d >= 0x19) then d_unknown8 d else []) ++
  (if decide (d_version d >= 0x1f) then d_unknown9 d else []) ++
  (if decide (d_version d >= 0x20) then d_unknown10 d else []) ++
  Sample.u32 (d_player_count d).

(** The bytes of a descriptor up to the player count. *)
Definition encode (d : descriptor) : list byte :=
  Sample.text "MapI" ++ encode_fields d.

(** A text of the file, as the cursor returns it. *)
Definition text_of (bs : list byte) : value :=
  VStr (String.string_of_list_byte bs).

Definition preview_assignments (type_name path_name : string) (type : Z)
    (path : list byte) : list (string * value) :=
  [(type_name, VInt type); (path_name, VStr "")] ++
  (if decide (type = 2) then [(path_name, text_of path)] else []).

Definition load_screen_assignments (type : Z) (path : list byte) :
    list (string * value) :=
  [("load_screen_type", VInt type); ("load_screen_path", text_of path)].

(** The assignments [MapInfo.__init__] makes for a descriptor, in
    order. *)
Definition assignments (d : descriptor) : list (string * value) :=
  [("version", VInt (d_version d))] ++
  (if decide (d_version d >= 0x18)
   then [("unknown1", VInt (d_unknown1 d)); ("unknown2", VInt (d_unknown2 d))]
   else []) ++
  [("width", VInt (d_width d)); ("height", VInt (d_height d))] ++
  preview_assignments "small_preview_type" "small_preview_path"
    (d_small_preview_type d) (d_small_preview_path d) ++
  preview_assignments "large_preview_type" "large_preview_path"
    (d_large_preview_type d) (d_large_preview_path d) ++
  (if decide (d_version d >= 0x1f)
   then [("unknown3", text_of (d_unknown3 d)); ("unknown4", VInt (d_unknown4 d))]
   else []) ++
  [("unknown5", VInt (d_unknown5 d));
   ("fog_type", text_of (d_fog_type d));
   ("tile_set", text_of (d_tile_set d));
   ("camera_left", VInt (d_camera_left d));
   ("camera_bottom", VInt (d_camera_bottom d));
   ("camera_right", VInt (d_camera_right d));
   ("camera_top", VInt (d_camera_top d));
   ("base_height", VFloat (inject_Z (d_base_height d) / 4096))] ++
  load_screen_assignments (d_load_screen_type d) (d_load_screen_path d) ++
  [("unknown6", text_of (d_unknown6 d));
   ("load_screen_scaling", VInt (d_load_screen_scaling d));
   ("text_position", VInt (d_text_position d));
   ("text_position_offset_x", VInt (d_text_position_offset_x d));
   ("text_position_offset_y", VInt (d_text_position_offset_y d));
   ("text_position_size_x", VInt (d_text_position_size_x d));
   ("text_position_size_y", VInt (d_text_position_size_y d));
   ("data_flags", VInt (d_data_flags d));
   ("unknown7", VInt (d_unknown7 d))] ++
  (if decide (d_version d >= 0x19)
   then [("unknown8", VBytes (d_unknown8 d))] else []) ++
  (if decide (d_version d >= 0x1f)
   then [("unknown9", VBytes (d_unknown9 d))] else []) ++
  (if decide (d_version d >= 0x20)
   then [("unknown10", VBytes (d_unknown10 d))] else []) ++
  [("player_count", VInt (d_player_count d))].

(** The instance after the assignments, made in order. *)
Definition assign_all (l : list (string * value)) (self : attrs) : attrs :=
  foldl (fun self kv => setattr kv.1 kv.2 self) self l.

Definition uint32 (n : Z) : Prop := 0 <= n < 2 ^ 32.

Definition null_free (bs : list byte) : Prop := x00 ∉ bs.

(** What the file format can hold: numbers of 32 bits, texts without a
    null byte, an [unknown6] of fewer than 2^16 bytes that are UTF-8, and
    blobs of 8, 9 and 4 bytes. *)
Definition well_formed (d : descriptor) : Prop :=
  Forall uint32
    [ d_version d; d_unknown1 d; d_unknown2 d; d_width d; d_height d;
      d_small_preview_type d; d_large_preview_type d; d_unknown4 d;
      d_unknown5 d; d_camera_left d; d_camera_bottom d; d_camera_right d;
      d_camera_top d; d_base_height d; d_load_screen_type d;
      d_load_screen_scaling d; d_text_position d;
      d_text_position_offset_x d; d_text_position_offset_y d;
      d_text_position_size_x d; d_text_position_size_y d;
      d_data_flags d; d_unknown7 d; d_player_count d ] /\
  Forall null_free
    [ d_small_preview_path d; d_large_preview_path d; d_unknown3 d;
      d_fog_type d; d_tile_set d; d_load_screen_path d ] /\
  Z.of_nat (length (d_unknown6 d)) < 65536 /\
  utf8_valid (d_unknown6 d) = true /\
  length (d_unknown8 d) = 8%nat /\
  length (d_unknown9 d) = 9%nat /\
  length (d_unknown10 d) = 4%nat.

(** [runs m bytes a l]: on a buffer that goes on with [bytes], the action
    [m] consumes exactly them, returns [a] and makes the assignments [l],
    whatever follows in the buffer. *)
Definition runs {A} (m : Init A) (bytes : list byte) (a : A)
    (l : list (string * value)) : Prop :=
  forall t r self log,
    m {| data := {| ByteDecoder.tell := t; ByteDecoder.rest := bytes ++ r |};
         self := self; logger := log |}
    = Ok (a, {| data := {| ByteDecoder.tell := (t + length bytes)%nat;
                           ByteDecoder.rest := r |};
                self := assign_all l self; logger := log |}).

Section layout.

Lemma byte_of_Z_value (n : Z) :
  Z.of_N (Byte.to_N (Sample.byte_of_Z n)) = n mod 256.
Proof.
  unfold Sample.byte_of_Z.
  assert (Hlt : 0 <= n mod 256 < 256) by (apply Z.mod_pos_bound; lia).
  destruct (Byte.of_N (Z.to_N (n mod 256))) as [b|] eqn:Hb.
  - apply Byte.to_of_N in Hb. change (default x00 (Some b)) with b.
    rewrite Hb. lia.
  - apply Byte.of_N_None_iff in Hb. lia.
Qed.

Lemma length_le_bytes (count : nat) (n : Z) :
  length (Sample.le_bytes count n) = count.
Proof. revert n. induction count as [|count IH]; intros n; simpl; by f_equal. Qed.

Lemma little_endian_le_bytes (count : nat) : forall n,
  0 <= n < 256 ^ Z.of_nat count ->
  ByteDecoder.little_endian (Sample.le_bytes count n) = n.
Proof.
  induction count as [|count IH]; intros n Hn.
  - simpl in *. lia.
  - cbn [Sample.le_bytes ByteDecoder.little_endian]. rewrite byte_of_Z_value.
    rewrite Nat2Z.inj_succ, Z.pow_succ_r in Hn by lia.
    rewrite IH.
    + pose proof (Z.div_mod n 256). lia.
    + split; [apply Z.div_pos; lia|].
      apply Z.div_lt_upper_bound; lia.
Qed.

Lemma read_bytes_here (bs r : list byte) (t : nat) :
  ByteDecoder.read_bytes (length bs)
    {| ByteDecoder.tell := t; ByteDecoder.rest := bs ++ r |}
  = Ok (bs, {| ByteDecoder.tell := (t + length bs)%nat;
               ByteDecoder.rest := r |}).
Proof.
  unfold ByteDecoder.read_bytes. cbn [ByteDecoder.rest ByteDecoder.tell].
  rewrite decide_True by (rewrite length_app; lia).
  by rewrite take_app_length, drop_app_length.
Qed.

Lemma read_uint_le_here (count : nat) (n : Z) (r : list byte) (t : nat) :
  0 <= n < 256 ^ Z.of_nat count ->
  ByteDecoder.read_uint_le count
    {| ByteDecoder.tell := t;
       ByteDecoder.rest := Sample.le_bytes count n ++ r |}
  = Ok (n, {| ByteDecoder.tell := (t + length (Sample.le_bytes count n))%nat;
              ByteDecoder.rest := r |}).
Proof.
  intros Hn. unfold ByteDecoder.read_uint_le.
  pose proof (read_bytes_here (Sample.le_bytes count n) r t) as Hread.
  rewrite length_le_bytes in Hread at 1. rewrite Hread.
  unfold mbind, result_bind, mret, result_ret.
  by rewrite little_endian_le_bytes.
Qed.

Lemma split_null_here (bs r : list byte) :
  null_free bs -> ByteDecoder.split_null (cstr bs ++ r) = Some (bs, r).
Proof.
  unfold null_free, cstr. induction bs as [|b bs IH]; intros Hfree.
  - reflexivity.
  - apply not_elem_of_cons in Hfree as [Hb Hbs].
    change (((b :: bs) ++ [x00]) ++ r) with (b :: (bs ++ [x00]) ++ r).
    cbn [ByteDecoder.split_null].
    rewrite decide_False by (by intros ->). by rewrite IH.
Qed.

Lemma read_cstring_here (bs r : list byte) (t : nat) :
  null_free bs ->
  ByteDecoder.read_cstring
    {| ByteDecoder.tell := t; ByteDecoder.rest := cstr bs ++ r |}
  = Ok (String.string_of_list_byte bs,
        {| ByteDecoder.tell := (t + length (cstr bs))%nat;
           ByteDecoder.rest := r |}).
Proof.
  intros Hfree. unfold ByteDecoder.read_cstring. cbn [ByteDecoder.rest ByteDecoder.tell].
  rewrite split_null_here by done. unfold cstr.
  rewrite length_app. cbn [length]. do 3 f_equal. lia.
Qed.

Lemma decode_utf8_valid (bs : list byte) :
  utf8_valid bs = true -> decode_utf8 bs = Ok (String.string_of_list_byte bs).
Proof. intros H. unfold decode_utf8. by rewrite H. Qed.

Context {A B : Type}.

Lemma runs_bind (m : Init A) (f : A -> Init B) b1 b2 a c l1 l2 :
  runs m b1 a l1 -> runs (f a) b2 c l2 ->
  runs (m ≫= f) (b1 ++ b2) c (l1 ++ l2).
Proof.
  intros Hm Hf t r self log. unfold mbind, Init_bind.
  rewrite <- app_assoc, Hm, Hf. unfold assign_all.
  rewrite foldl_app, length_app, Nat.add_assoc. reflexivity.
Qed.

Lemma runs_read (f : ByteDecoder.t -> result (A * ByteDecoder.t)) bytes a :
  (forall t r,
     f {| ByteDecoder.tell := t; ByteDecoder.rest := bytes ++ r |}
     = Ok (a, {| ByteDecoder.tell := (t + length bytes)%nat;
                 ByteDecoder.rest := r |})) ->
  runs (read f) bytes a [].
Proof. intros Hf t r self log. unfold read. cbn [data]. by rewrite Hf. Qed.

Lemma runs_lift (x : result A) (a : A) : x = Ok a -> runs (lift x) [] a [].
Proof.
  intros -> t r self log. unfold lift. cbn [app length].
  by rewrite Nat.add_0_r.
Qed.

Lemma runs_ret (a : A) : runs (mret a) [] a [].
Proof.
  intros t r self log. cbn [app length]. by rewrite Nat.add_0_r.
Qed.

Lemma runs_if (c : Prop) `{Decision c} (m1 m2 : Init A) b1 b2 a l1 l2 :
  runs m1 b1 a l1 -> runs m2 b2 a l2 ->
  runs (if decide c then m1 else m2) (if decide c then b1 else b2) a
       (if decide c then l1 else l2).
Proof. by case_decide. Qed.

Lemma runs_pad (m : Init A) bytes a l :
  runs m (bytes ++ []) a l -> runs m bytes a l.
Proof. by rewrite app_nil_r. Qed.

End layout.

Lemma runs_assign k v : runs (assign k v) [] tt [(k, v)].
Proof.
  intros t r self log. unfold assign. cbn [app length].
  by rewrite Nat.add_0_r.
Qed.

Section steps.

Context {A B : Type}.

Lemma runs_u32_bind (f : Z -> Init B) n bytes c l :
  uint32 n -> runs (f n) bytes c l ->
  runs (read ByteDecoder.read_uint32 ≫= f) (Sample.u32 n ++ bytes) c l.
Proof.
  intros Hn Hf. apply (runs_bind _ f _ _ n c [] l); [|done].
  apply runs_read. intros t r. by apply read_uint_le_here.
Qed.

Lemma runs_u16_bind (f : Z -> Init B) n bytes c l :
  0 <= n < 65536 -> runs (f n) bytes c l ->
  runs (read ByteDecoder.read_uint16 ≫= f) (Sample.u16 n ++ bytes) c l.
Proof.
  intros Hn Hf. apply (runs_bind _ f _ _ n c [] l); [|done].
  apply runs_read. intros t r. by apply read_uint_le_here.
Qed.

Lemma runs_cstring_bind (f : string -> Init B) bs bytes c l :
  null_free bs -> runs (f (String.string_of_list_byte bs)) bytes c l ->
  runs (read ByteDecoder.read_cstring ≫= f) (cstr bs ++ bytes) c l.
Proof.
  intros Hbs Hf.
  apply (runs_bind _ f _ _ (String.string_of_list_byte bs) c [] l); [|done].
  apply runs_read. intros t r. by apply read_cstring_here.
Qed.

Lemma runs_bytes_bind (f : list byte -> Init B) count bs bytes c l :
  count = length bs -> runs (f bs) bytes c l ->
  runs (read (ByteDecoder.read_bytes count) ≫= f) (bs ++ bytes) c l.
Proof.
  intros -> Hf. apply (runs_bind _ f _ _ bs c [] l); [|done].
  apply runs_read. intros t r. apply read_bytes_here.
Qed.

Lemma runs_lift_bind (r : result A) (a : A) (f : A -> Init B) bytes c l :
  r = Ok a -> runs (f a) bytes c l -> runs (lift r ≫= f) bytes c l.
Proof.
  intros Hr Hf. apply (runs_bind _ f [] bytes a c [] l); [|done].
  by apply runs_lift.
Qed.

Lemma runs_assign_bind k v (f : unit -> Init B) bytes c l :
  runs (f tt) bytes c l -> runs (assign k v ≫= f) bytes c ((k, v) :: l).
Proof.
  intros Hf. apply (runs_bind _ f [] bytes tt c [(k, v)] l); [|done].
  apply runs_assign.
Qed.

End steps.

(** What a step needs of the descriptor. *)
Ltac runs_side :=
  first
    [ assumption
    | by apply decode_utf8_valid
    | apply Nat2Z.id
    | lia ].

(** The steps of a constructor along the bytes of a descriptor; [block]
    settles a step that is a block of its own. *)
Ltac runs_steps_with block :=
  cbv beta; cbn [app];
  lazymatch goal with
  | |- runs (read ByteDecoder.read_uint32 ≫= _) (Sample.u32 _ ++ _) _ _ =>
      apply runs_u32_bind; [runs_side | runs_steps_with block]
  | |- runs (read ByteDecoder.read_uint16 ≫= _) (Sample.u16 _ ++ _) _ _ =>
      apply runs_u16_bind; [runs_side | runs_steps_with block]
  | |- runs (read ByteDecoder.read_cstring ≫= _) (cstr _ ++ _) _ _ =>
      apply runs_cstring_bind; [runs_side | runs_steps_with block]
  | |- runs (read (ByteDecoder.read_bytes _) ≫= _) (_ ++ _) _ _ =>
      apply runs_bytes_bind; [runs_side | runs_steps_with block]
  | |- runs (read _ ≫= _) _ _ _ =>
      apply runs_pad; runs_steps_with block
  | |- runs (lift _ ≫= _) _ _ _ =>
      eapply runs_lift_bind; [runs_side | runs_steps_with block]
  | |- runs (assign _ _ ≫= _) _ _ _ =>
      apply runs_assign_bind; runs_steps_with block
  | |- runs (assign _ _) _ _ _ => apply runs_assign
  | |- runs (mret _) _ _ _ => apply runs_ret
  | |- runs (if decide _ then _ else _) _ _ _ =>
      apply runs_if; runs_steps_with block
  | |- runs ((if decide _ then _ else _) ≫= _) _ _ _ =>
      eapply runs_bind;
      [apply runs_if; runs_steps_with block | runs_steps_with block]
  | |- runs (_ ≫= _) _ _ _ =>
      eapply runs_bind; [block | runs_steps_with block]
  end.

Ltac runs_steps := runs_steps_with fail.

Lemma preview_runs (type_name path_name : string) (type : Z)
    (path : list byte) :
  uint32 type -> null_free path ->
  runs (small_preview_type ← read ByteDecoder.read_uint32;
        assign type_name (VInt small_preview_type);;
        assign path_name (VStr "");;
        if decide (small_preview_type = 2) then
          small_preview_path ← read ByteDecoder.read_cstring;
          assign path_name (VStr small_preview_path)
        else mret tt)
       (encode_preview type path) tt
       (preview_assignments type_name path_name type path).
Proof.
  intros Htype Hpath. unfold encode_preview, preview_assignments.
  runs_steps.
Qed.

Lemma load_screen_runs (type : Z) (path : list byte) :
  uint32 type -> null_free path ->
  runs load_screen (encode_load_screen type path) tt
       (load_screen_assignments type path).
Proof.
  intros Htype Hpath.
  unfold load_screen, encode_load_screen, load_screen_assignments.
  runs_steps.
Qed.

(** [MapInfo.__init__] after the signature, on the bytes of a
    descriptor: it consumes them all and makes the assignments of the
    descriptor. *)
Lemma MapInfo_fields_runs (d : descriptor) :
  well_formed d -> runs MapInfo_fields (encode_fields d) tt (assignments d).
Proof.
  intros (Hints & Htexts & Hlength & Hutf8 & H8 & H9 & H10).
  repeat lazymatch goal with
    | H : Forall _ (_ :: _) |- _ => apply Forall_cons in H as [? H]
    end.
  unfold MapInfo_fields, encode_fields, assignments.
  runs_steps_with
    ltac:(first [ by apply preview_runs | by apply load_screen_runs ]).
Qed.

Lemma MapInfo_init_valid_magic (contents : list byte) :
  (4 <= length contents)%nat ->
  magic_of contents = "MapI" ->
  MapInfo_init (start contents)
  = MapInfo_fields
      {| data := {| ByteDecoder.tell := 4;
                    ByteDecoder.rest := drop 4 contents |};
         self := ∅; logger := [] |}.
Proof.
  intros Hlen Hmagic. unfold MapInfo_init. unfold mbind at 1, Init_bind at 1.
  rewrite read_magic by done. by rewrite decide_False by (by intros []).
Qed.

(** Decoding undoes encoding: on the bytes of a well-formed descriptor,
    whatever follows them, the constructor returns the instance with the
    assignments of the descriptor and logs nothing. *)
Lemma MapInfo_encode (d : descriptor) (extra : list byte) :
  well_formed d ->
  MapInfo (encode d ++ extra) = Ok (assign_all (assignments d) ∅, []).
Proof.
  intros Hd. unfold MapInfo.
  rewrite MapInfo_init_valid_magic; [|unfold encode; simpl; lia|reflexivity].
  change (drop 4 (encode d ++ extra)) with (encode_fields d ++ extra).
  by rewrite (MapInfo_fields_runs d Hd).
Qed.

Lemma assign_all_snoc (l : list (string * value)) k v (self : attrs) :
  assign_all (l ++ [(k, v)]) self !! k = Some v.
Proof.
  unfold assign_all. rewrite foldl_app. cbn [foldl fst snd].
  apply lookup_insert_eq.
Qed.

(** The sample descriptor, field by field. *)
Definition sample_descriptor : descriptor :=
  {| d_version := 0x20; d_unknown1 := 7; d_unknown2 := 8;
     d_width := 176; d_height := 152;
     d_small_preview_type := 2;
     d_small_preview_path := Sample.text "Minimap.tga";
     d_large_preview_type := 0; d_large_preview_path := [];
     d_unknown3 := []; d_unknown4 := 0; d_unknown5 := 0;
     d_fog_type := Sample.text "Dark"; d_tile_set := Sample.text "Agria";
     d_camera_left := 7; d_camera_bottom := 4;
     d_camera_right := 169; d_camera_top := 148;
     d_base_height := 4096;
     d_load_screen_type := 0; d_load_screen_path := Sample.text "x";
     d_unknown6 := Sample.text "abc";
     d_load_screen_scaling := 0; d_text_position := 0xffffffff;
     d_text_position_offset_x := 0; d_text_position_offset_y := 0;
     d_text_position_size_x := 0; d_text_position_size_y := 0;
     d_data_flags := 1; d_unknown7 := 0;
     d_unknown8 := Sample.text "12345678";
     d_unknown9 := Sample.text "123456789";
     d_unknown10 := Sample.text "1234";
     d_player_count := 1 |}.

Lemma sample_descriptor_well_formed :
  well_formed sample_descriptor /\ encode sample_descriptor = Sample.prefix.
Proof.
  split; [|vm_compute; reflexivity].
  split.
  { repeat (apply Forall_cons; split; [vm_compute; by split|]).
    constructor. }
  split.
  { repeat (apply Forall_cons;
            split; [apply (bool_decide_unpack _); vm_compute; exact I|]).
    constructor. }
  split; [vm_compute; reflexivity|]. by repeat split.
Qed.

(** What [MapInfo] does on the sample descriptor when the three bytes of
    [unknown6] are replaced. *)
Definition with_unknown6 (bs : list byte) : list byte :=
  take 92 Sample.prefix ++ bs ++ drop 95 Sample.prefix.

(** A complete descriptor whose [unknown6] is not UTF-8 is refused by
    [decode], not by the cursor. *)
Lemma MapInfo_unknown6_not_utf8 :
  with_unknown6 (Sample.text "abc") = Sample.prefix /\
  MapInfo (with_unknown6 [xff; "a"%byte; "b"%byte]) = Raise UnicodeDecodeError.
Proof. split; vm_compute; reflexivity. Qed.

(** On a buffer that starts with the signature, the constructor fails on
    a truncated buffer, or fails on an [unknown6] that is not UTF-8, or
    returns after the player count with nothing logged and nothing of the
    tail set, and then returns the same whatever follows the buffer. *)
Lemma MapInfo_prefix_outcome (contents : list byte) :
  (4 <= length contents)%nat ->
  magic_of contents = "MapI" ->
  MapInfo contents = Raise StructError \/
  MapInfo contents = Raise UnicodeDecodeError \/
  exists m n,
    MapInfo contents = Ok (m, []) /\
    m !! "player_count" = Some (VInt n) /\
    no_tail m /\
    forall extra, MapInfo (contents ++ extra) = Ok (m, []).
Proof.
  intros Hlen Hmagic.
  pose proof (MapInfo_fields_quiet
    {| data := {| ByteDecoder.tell := 4; ByteDecoder.rest := drop 4 contents |};
       self := ∅; logger := [] |}) as Hfields.
  rewrite <- (MapInfo_init_valid_magic contents Hlen Hmagic) in Hfields.
  unfold MapInfo.
  destruct (MapInfo_init (start contents)) as [[[] s]|e] eqn:Hrun.
  - right. right. destruct Hfields as [[Htail Hlog] [n Hn]].
    { split; [|done]. intros k _. apply lookup_empty. }
    exists (self s), n. rewrite Hlog. repeat split; try done.
    intros extra.
    pose proof (MapInfo_init_framed _ _ _ extra Hrun) as Hext.
    change (start (contents ++ extra))
      with (extend_state extra (start contents)).
    rewrite Hext. simpl. by rewrite Hlog.
  - destruct Hfields as [->| ->]; [|by left|right; by left].
    split; [|done]. intros k _. apply lookup_empty.
Qed.

(** C1, as the code has it.  On a buffer that starts with the signature,
    the constructor either fails on a truncated buffer ([StructError]),
    or fails on an [unknown6] text that is not UTF-8
    ([UnicodeDecodeError]), or returns after the player count, with
    nothing logged: [player_count] is set, none of the attributes of the
    tail (players, start locations, the two relation matrices) is, and
    whatever bytes follow are left unread: the same instance results when
    more bytes are appended.  It does return on every complete prefix:
    on the bytes of a well-formed descriptor, whatever follows them, the
    player count is the descriptor's and nothing of the tail is set.  The
    constructor takes the buffer and nothing else, so no caller can ask
    for the tail. *)
Theorem MapInfo_stops_after_player_count :
  (forall contents,
     (4 <= length contents)%nat ->
     magic_of contents = "MapI" ->
     MapInfo contents = Raise StructError \/
     MapInfo contents = Raise UnicodeDecodeError \/
     exists m n,
       MapInfo contents = Ok (m, []) /\
       m !! "player_count" = Some (VInt n) /\
       no_tail m /\
       forall extra, MapInfo (contents ++ extra) = Ok (m, [])) /\
  (forall d extra,
     well_formed d ->
     exists m,
       MapInfo (encode d ++ extra) = Ok (m, []) /\
       m !! "player_count" = Some (VInt (d_player_count d)) /\
       no_tail m).
Proof.
  split; [exact MapInfo_prefix_outcome|].
  intros d extra Hd.
  pose proof (MapInfo_encode d extra Hd) as Hrun.
  exists (assign_all (assignments d) ∅). split; [exact Hrun|]. split.
  - unfold assignments. rewrite !app_assoc. apply assign_all_snoc.
  - destruct (MapInfo_prefix_outcome (encode d ++ extra))
      as [H|[H|(m & n & H & _ & Htail & _)]].
    + unfold encode. simpl. lia.
    + reflexivity.
    + rewrite Hrun in H. discriminate H.
    + rewrite Hrun in H. discriminate H.
    + rewrite Hrun in H. injection H as <-. exact Htail.
Qed.

(** On the sample descriptor the constructor returns, with or without
    the tail behind it. *)
Lemma MapInfo_stops_after_player_count_witness :
  (exists m n,
     MapInfo Sample.prefix = Ok (m, []) /\
     m !! "player_count" = Some (VInt n) /\
     no_tail m /\
     forall extra, MapInfo (Sample.prefix ++ extra) = Ok (m, [])) /\
  (exists m,
     MapInfo (encode sample_descriptor ++ Sample.tail) = Ok (m, []) /\
     m !! "player_count" = Some (VInt 1) /\
     no_tail m).
Proof.
  assert (Hlen : (4 <= length Sample.prefix)%nat) by (vm_compute; lia).
  assert (Hmagic : magic_of Sample.prefix = "MapI") by (vm_compute; reflexivity).
  assert (Hrun : succeeds (MapInfo Sample.prefix) = true)
    by (vm_compute; reflexivity).
  split.
  - destruct (proj1 MapInfo_stops_after_player_count Sample.prefix Hlen Hmagic)
      as [H|[H|H]].
    + rewrite H in Hrun. discriminate Hrun.
    + rewrite H in Hrun. discriminate Hrun.
    + exact H.
  - exact (proj2 MapInfo_stops_after_player_count sample_descriptor
             Sample.tail (proj1 sample_descriptor_well_formed)).
Defined.

(** C1, as the claim has it, fails: a buffer that holds the whole
    descriptor, tail included, is decoded up to the player count only.
    The players and the two relation matrices are there (the statements
    below the [return] would decode them from the bytes left) and the
    instance has none of them. *)
Lemma MapInfo_tail_left_undecoded :
  exists m,
    MapInfo (Sample.prefix ++ Sample.tail) = Ok (m, []) /\
    m !! "player_count" = Some (VInt 1) /\
    m !! "players" = None /\
    m !! "alliance_flags" = None /\
    m !! "enemy_flags" = None /\
    exists s,
      (MapInfo_init ≫= fun _ => MapInfo_unreachable)
        (start (Sample.prefix ++ Sample.tail)) = Ok (tt, s) /\
      self s !! "alliance_flags" = Some (VInt 2) /\
      self s !! "enemy_flags" = Some (VInt 4) /\
      logger s = [].
Proof.
  pose (look := fun (r : result (attrs * list (level * string))) name =>
                  match r with
                  | Ok (m, log) => Some (m !! name, log)
                  | Raise _ => None
                  end).
  pose (look' := fun (r : result (unit * init_state)) name =>
                   match r with
                   | Ok (_, s) => Some (self s !! name, logger s)
                   | Raise _ => None
                   end).
  assert (H1 : look (MapInfo (Sample.prefix ++ Sample.tail)) "player_count"
               = Some (Some (VInt 1), [])) by (vm_compute; reflexivity).
  assert (H2 : look (MapInfo (Sample.prefix ++ Sample.tail)) "players"
               = Some (None, [])) by (vm_compute; reflexivity).
  assert (H3 : look (MapInfo (Sample.prefix ++ Sample.tail)) "alliance_flags"
               = Some (None, [])) by (vm_compute; reflexivity).
  assert (H4 : look (MapInfo (Sample.prefix ++ Sample.tail)) "enemy_flags"
               = Some (None, [])) by (vm_compute; reflexivity).
  assert (H5 : look' ((MapInfo_init ≫= fun _ => MapInfo_unreachable)
                        (start (Sample.prefix ++ Sample.tail))) "alliance_flags"
               = Some (Some (VInt 2), [])) by (vm_compute; reflexivity).
  assert (H6 : look' ((MapInfo_init ≫= fun _ => MapInfo_unreachable)
                        (start (Sample.prefix ++ Sample.tail))) "enemy_flags"
               = Some (Some (VInt 4), [])) by (vm_compute; reflexivity).
  destruct (MapInfo (Sample.prefix ++ Sample.tail)) as [[m log]|e];
    [|discriminate H1].
  destruct ((MapInfo_init ≫= fun _ => MapInfo_unreachable)
              (start (Sample.prefix ++ Sample.tail))) as [[[] s]|e];
    [|discriminate H5].
  simpl in *. exists m.
  injection H1 as H1 ->. injection H2 as H2. injection H3 as H3.
  injection H4 as H4. injection H5 as H5 Hlog. injection H6 as H6.
  repeat split; try done. exists s. by repeat split.
Qed.

(** The two-step pattern for a type [type_name] and a path [path_name]:
    the type is read first; when it is [custom] a null-terminated path is
    read after it, and when it is not, nothing more is consumed and the
    path is left empty. *)
Definition two_step (custom : Z -> Prop) (type_name path_name : string)
    (m : Init unit) : Prop :=
  forall s s', m s = Ok (tt, s') ->
    exists t d,
      ByteDecoder.read_uint32 (data s) = Ok (t, d) /\
      self s' !! type_name = Some (VInt t) /\
      ((custom t /\
        exists path, ByteDecoder.read_cstring d = Ok (path, data s') /\
                     self s' !! path_name = Some (VStr path))
       \/ (~ custom t /\ data s' = d /\ self s' !! path_name = Some (VStr ""))).

(** Looking an attribute up in an instance given by its assignments. *)
Ltac attr_lookup :=
  unfold setattr;
  repeat first
    [ rewrite lookup_insert_eq
    | rewrite lookup_insert_ne by discriminate ];
  try reflexivity.

(** Running one step of a constructor whose outcome is known. *)
Ltac run_read H :=
  unfold mbind at 1, Init_bind at 1, read at 1 in H;
  lazymatch type of H with
  | context [match ?f (data ?s) with _ => _ end] =>
      let a := fresh "a" in
      let d := fresh "d" in
      let Hread := fresh "Hread" in
      destruct (f (data s)) as [[a d]|] eqn:Hread; [|discriminate H]
  end.

Ltac run_assign H :=
  unfold mbind at 1, Init_bind at 1, assign at 1 in H; simpl in H.

Lemma small_preview_two_step :
  two_step (fun t => t = 2) "small_preview_type" "small_preview_path"
    small_preview.
Proof.
  intros s s' H. unfold small_preview in H.
  run_read H. run_assign H. run_assign H.
  exists a, d. split; [done|]. case_decide.
  - run_read H. unfold assign in H. injection H as <-. simpl.
    split; [by attr_lookup|].
    left. split; [done|]. exists a0. split; [done|by attr_lookup].
  - injection H as <-. simpl.
    split; [by attr_lookup|].
    right. split; [done|]. split; [done|by attr_lookup].
Qed.

Lemma large_preview_two_step :
  two_step (fun t => t = 2) "large_preview_type" "large_preview_path"
    large_preview.
Proof.
  intros s s' H. unfold large_preview in H.
  run_read H. run_assign H. run_assign H.
  exists a, d. split; [done|]. case_decide.
  - run_read H. unfold assign in H. injection H as <-. simpl.
    split; [by attr_lookup|].
    left. split; [done|]. exists a0. split; [done|by attr_lookup].
  - injection H as <-. simpl.
    split; [by attr_lookup|].
    right. split; [done|]. split; [done|by attr_lookup].
Qed.

Lemma load_screen_always_reads_path :
  two_step (fun _ => True) "load_screen_type" "load_screen_path" load_screen.
Proof.
  intros s s' H. unfold load_screen in H.
  run_read H. run_assign H. run_read H. unfold assign in H.
  injection H as <-. simpl.
  exists a, d. split; [done|].
  split; [by attr_lookup|].
  left. split; [done|]. exists a0. split; [done|by attr_lookup].
Qed.

(** C2, as the code has it.  The two preview descriptors follow the
    two-step pattern with 2 (Custom) as the type that carries a path; for
    any other type no byte is consumed for the path, which stays empty.
    The loading-screen descriptor does not: its path is read as a
    null-terminated text after the type, whatever the type is. *)
Theorem preview_paths_conditional_load_screen_path_always :
  two_step (fun t => t = 2) "small_preview_type" "small_preview_path"
    small_preview /\
  two_step (fun t => t = 2) "large_preview_type" "large_preview_path"
    large_preview /\
  two_step (fun _ => True) "load_screen_type" "load_screen_path" load_screen.
Proof.
  split; [apply small_preview_two_step|].
  split; [apply large_preview_two_step|apply load_screen_always_reads_path].
Qed.

Lemma preview_paths_conditional_load_screen_path_always_witness :
  exists t d,
    ByteDecoder.read_uint32 (data (start (Sample.u32 1 ++ Sample.u32 5)))
    = Ok (t, d) /\
    t = 1 /\ ByteDecoder.tell d = 4%nat.
Proof.
  destruct (proj1 preview_paths_conditional_load_screen_path_always
              (start (Sample.u32 1 ++ Sample.u32 5))
              {| data := {| ByteDecoder.tell := 4;
                            ByteDecoder.rest := Sample.u32 5 |};
                 self := setattr "small_preview_path" (VStr "")
                           (setattr "small_preview_type" (VInt 1) ∅);
                 logger := [] |}
              eq_refl) as (t & d & Hread & Htype & Hpath).
  exists t, d. split; [exact Hread|].
  vm_compute in Hread. injection Hread as <- <-. split; reflexivity.
Defined.

(** C2, as the claim has it, fails for the loading screen: with the
    default type 0 the path "x" is still taken from the stream, so the
    loading-screen descriptor follows the two-step pattern neither for
    the sentinel 1 (custom) nor for the sentinel 2. *)
Lemma load_screen_path_read_for_default_type :
  (exists m,
     MapInfo Sample.prefix = Ok (m, []) /\
     m !! "load_screen_type" = Some (VInt 0) /\
     m !! "load_screen_path" = Some (VStr "x")) /\
  ~ two_step (fun t => t = 1) "load_screen_type" "load_screen_path" load_screen /\
  ~ two_step (fun t => t = 2) "load_screen_type" "load_screen_path" load_screen.
Proof.
  split.
  { pose (look := fun (r : result (attrs * list (level * string))) name =>
                    match r with
                    | Ok (m, log) => Some (m !! name, log)
                    | Raise _ => None
                    end).
    assert (H1 : look (MapInfo Sample.prefix) "load_screen_type"
                 = Some (Some (VInt 0), [])) by (vm_compute; reflexivity).
    assert (H2 : look (MapInfo Sample.prefix) "load_screen_path"
                 = Some (Some (VStr "x"), [])) by (vm_compute; reflexivity).
    destruct (MapInfo Sample.prefix) as [[m log]|e]; [|discriminate H1].
    simpl in *. exists m. injection H1 as H1 ->. injection H2 as H2.
    by repeat split. }
  assert (Hrun : load_screen (start (Sample.u32 0 ++ Sample.cstring "x"))
                 = Ok (tt, {| data := {| ByteDecoder.tell := 6;
                                         ByteDecoder.rest := [] |};
                              self := setattr "load_screen_path" (VStr "x")
                                        (setattr "load_screen_type" (VInt 0) ∅);
                              logger := [] |})) by reflexivity.
  split; intros Htwo; destruct (Htwo _ _ Hrun) as (t & d & Hread & _ & Hcase);
    vm_compute in Hread; injection Hread as <- <-;
    destruct Hcase as [[? _]|(_ & ? & _)]; discriminate.
Qed.

(** ** Relation matrices *)

Section relation.

Lemma row_offset_S (count i : nat) :
  row_offset count (S i) = (row_offset count i + (count - S i))%nat.
Proof. reflexivity. Qed.

Lemma row_offset_mono (count i i' : nat) :
  (i <= i')%nat -> (row_offset count i <= row_offset count i')%nat.
Proof.
  induction 1 as [|i' _ IH]; [done|]. rewrite row_offset_S. lia.
Qed.

Lemma row_lookup (count i k : nat) (p : nat * nat) :
  row count i !! k = Some p <->
  (k < count - S i)%nat /\ p = (i, (S i + k)%nat).
Proof.
  unfold row. rewrite list_lookup_fmap, fmap_Some. split.
  - intros (j & Hj & ->). apply lookup_seq in Hj as [-> Hk]. done.
  - intros [Hk ->]. exists (S i + k)%nat. split; [|done].
    by apply lookup_seq.
Qed.

Lemma length_row (count i : nat) : length (row count i) = (count - S i)%nat.
Proof. unfold row. by rewrite length_fmap, length_seq. Qed.

(** The rows from [i0] on: the pair at place [k] is the pair whose rank
    is [k] more than the number of pairs before row [i0]. *)
Lemma rows_lookup (count n : nat) : forall i0 k i j,
  (seq i0 n ≫= row count) !! k = Some (i, j) <->
  (i0 <= i < i0 + n)%nat /\ (i < j < count)%nat /\
  (row_offset count i0 + k = pair_index count i j)%nat.
Proof.
  induction n as [|n IH]; intros i0 k i j.
  - simpl. split; [done|]. intros [? _]. lia.
  - cbn [seq]. rewrite bind_cons.
    destruct (decide (k < count - S i0)%nat) as [Hk|Hk].
    + rewrite lookup_app_l by (by rewrite length_row).
      rewrite row_lookup. unfold pair_index. split.
      * intros [_ [= -> ->]]. lia.
      * intros (Hi & Hj & Hrank).
        destruct (decide (i = i0)) as [->|Hne].
        -- split; [done|]. f_equal. lia.
        -- pose proof (row_offset_mono count (S i0) i ltac:(lia)) as Hmono.
           rewrite row_offset_S in Hmono. lia.
    + rewrite lookup_app_r by (rewrite length_row; lia).
      rewrite length_row, IH, row_offset_S. unfold pair_index. split.
      * intros (Hi & Hj & Hrank). lia.
      * intros (Hi & Hj & Hrank).
        destruct (decide (i = i0)) as [->|Hne]; [lia|]. lia.
Qed.

(** The pair at place [k] of the enumeration is the pair of rank [k]. *)
Lemma pairs_lookup (count k i j : nat) :
  pairs count !! k = Some (i, j) <->
  (i < j < count)%nat /\ k = pair_index count i j.
Proof.
  unfold pairs. rewrite rows_lookup. cbn [row_offset]. split.
  - intros (_ & Hj & Hrank). split; [done|lia].
  - intros (Hj & ->). split; [lia|]. split; [done|lia].
Qed.

(** A pair is marked exactly when the bit of its rank is set. *)
Lemma marked_spec (count : nat) (flags : Z) (i j : nat) :
  (i, j) ∈ marked count flags <->
  (i < j < count)%nat /\
  Z.testbit flags (Z.of_nat (pair_index count i j)) = true.
Proof.
  unfold marked. rewrite list_elem_of_fmap. split.
  - intros ([k p] & Hp & [Hbit Hin]%list_elem_of_filter).
    apply elem_of_lookup_imap in Hin as (k' & p' & [= -> ->] & Hlookup).
    cbn [fst snd] in *. subst p'.
    apply pairs_lookup in Hlookup as [Hj ->]. done.
  - intros [Hj Hbit]. exists (pair_index count i j, (i, j)).
    split; [done|]. apply list_elem_of_filter. split; [done|].
    apply elem_of_lookup_imap. exists (pair_index count i j), (i, j).
    split; [done|]. by apply pairs_lookup.
Qed.

End relation.

(** [int(math.ceil(n/8.0))] is the number of bytes that hold [n] bits. *)
Lemma ceil_div8 (n : Z) : Qceiling (inject_Z n / 8) = (n + 7) / 8.
Proof.
  unfold Qceiling, Qfloor, Qdiv, Qmult, Qinv, Qopp, inject_Z. simpl.
  rewrite Z.mul_1_r.
  Z.to_euclidean_division_equations. lia.
Qed.

(** The last byte read by [read_uint] is the least significant. *)
Lemma big_endian_snoc (bs : list byte) (b : byte) :
  ByteDecoder.big_endian (bs ++ [b])
  = 256 * ByteDecoder.big_endian bs + Z.of_N (Byte.to_N b).
Proof.
  unfold ByteDecoder.big_endian. rewrite fold_left_app. simpl.
  set (x := fold_left _ bs 0).
  assert (Hb : 0 <= Z.of_N (Byte.to_N b) < 2 ^ 8).
  { pose proof (Byte.to_N_bounded b). lia. }
  rewrite <- Z.add_nocarry_lor.
  - rewrite Z.shiftl_mul_pow2 by lia. lia.
  - apply Z.bits_inj'. intros n Hn.
    rewrite Z.land_spec, Z.bits_0.
    destruct (decide (n < 8)) as [Hlt|Hge].
    + by rewrite Z.shiftl_spec_low.
    + rewrite (Z.bits_above_log2 (Z.of_N (Byte.to_N b)) n); [apply andb_false_r|lia|].
      destruct (decide (Z.of_N (Byte.to_N b) = 0)) as [->|Hnz]; [simpl; lia|].
      apply Z.log2_lt_pow2; [lia|].
      eapply Z.lt_le_trans; [apply Hb|]. apply Z.pow_le_mono_r; lia.
Qed.

Lemma relation_flags_reads length_name flags_name s s' :
  relation_flags length_name flags_name s = Ok (tt, s') ->
  exists n d flags,
    ByteDecoder.read_uint32 (data s) = Ok (n, d) /\
    ByteDecoder.read_uint (Z.to_nat ((n + 7) / 8)) d = Ok (flags, data s') /\
    self s' = setattr flags_name (VInt flags)
                (setattr length_name (VInt n) (self s)).
Proof.
  intros H. unfold relation_flags in H.
  run_read H. run_assign H. run_read H. unfold assign in H.
  injection H as <-. simpl.
  exists a, d, a0. rewrite <- ceil_div8. auto.
Qed.

Lemma read_uint_big_endian count d flags d' :
  ByteDecoder.read_uint count d = Ok (flags, d') ->
  flags = ByteDecoder.big_endian (take count (ByteDecoder.rest d)) /\
  ByteDecoder.tell d' = (ByteDecoder.tell d + count)%nat.
Proof.
  unfold ByteDecoder.read_uint.
  destruct (ByteDecoder.read_bytes count d) as [[bs d1]|] eqn:H; [|discriminate].
  simpl. intros [= <- <-].
  by apply read_bytes_Ok in H as (_ & -> & ->).
Qed.



(** ** Participants *)

Lemma Ok_inj {A} (a b : A) : Ok a = Ok b -> a = b.
Proof. by intros [=]. Qed.

Lemma succeeds_is_Ok {A} (r : result A) : succeeds r = true -> is_Ok r.
Proof. destruct r as [a|e]; [by exists a|discriminate]. Qed.

Lemma bind_Ok {A B} (f : A -> result B) (a : A) : (Ok a ≫= f) = f a.
Proof. reflexivity. Qed.

Lemma index_here {A} (a : A) (l : list A) : index (a :: l) 0 = Ok a.
Proof. reflexivity. Qed.

Lemma index_later {A} (a : A) (l : list A) (i : nat) :
  index (a :: l) (S i) = index l i.
Proof. reflexivity. Qed.

Lemma subscript_Some `{Countable K} {V} (d : gmap K V) (k : K) (v : V) :
  d !! k = Some v -> subscript d k = Ok v.
Proof. intros Hk. unfold subscript. by rewrite Hk. Qed.

(** The instance a constructor returned, without computing with it. *)
Ltac returned H := apply Ok_inj in H; subst.

(** Running the next fallible step of a constructor that succeeded. *)
Ltac run_result H :=
  lazymatch type of H with
  | (?m ≫= _) = Ok _ =>
      let Hstep := fresh "Hstep" in
      destruct m eqn:Hstep; [|discriminate H];
      unfold mbind at 1, result_bind at 1 in H; cbv beta iota zeta in H
  end.

Section participants.

Context (GATEWAY_LOOKUP : gmap Z string).
Context (LOCALIZED_RACES : gmap string string).

(** The flags [Entity.__init__] derives from the observe code. *)
Definition observer_flags (observe : Z) (self : attrs) : Prop :=
  self !! "is_referee" = Some (VBool (bool_decide (observe = 2))) /\
  self !! "is_observer" = Some (VBool (bool_decide (observe ≠ 0))).

Lemma Entity_init_flags sid slot self e :
  Entity_init GATEWAY_LOOKUP sid slot self = Ok e ->
  observer_flags (sd_observe slot) e.
Proof.
  intros H. unfold Entity_init in H. cbv zeta in H.
  do 7 run_result H. returned H.
  split; attr_lookup.
Qed.

Lemma User_init_flags observe uid init self e :
  User_init uid init self = Ok e ->
  observer_flags observe self -> observer_flags observe e.
Proof.
  intros H [Href Hobs]. unfold User_init in H. cbv zeta in H. returned H.
  split; attr_lookup; assumption.
Qed.

Lemma Player_init_flags observe pid detail attribute_data self e :
  Player_init GATEWAY_LOOKUP LOCALIZED_RACES pid detail attribute_data self = Ok e ->
  observer_flags observe self -> observer_flags observe e.
Proof.
  intros H [Href Hobs]. unfold Player_init in H. cbv zeta in H.
  run_result H. returned H.
  split; repeat case_decide; attr_lookup; assumption.
Qed.

End participants.

(** C10.  For every slot record and every participant built from it
    (an observer, a computer or a human participant), [is_referee] is
    true exactly when the observe code is 2 and [is_observer] exactly
    when it is not 0; so a referee is always an observer. *)
Theorem referee_is_observer (GATEWAY_LOOKUP : gmap Z string)
    (LOCALIZED_RACES : gmap string string)
    (sid : Z) (slot : slot_data) (uid : Z) (init : init_data) (pid : Z)
    (detail : detail_data) (attribute_data : gmap string string) (p : object) :
  Observer_new GATEWAY_LOOKUP sid slot uid init pid = Ok p \/
  Computer_new GATEWAY_LOOKUP LOCALIZED_RACES sid slot pid detail attribute_data
  = Ok p \/
  Participant_new GATEWAY_LOOKUP LOCALIZED_RACES sid slot uid init pid detail
    attribute_data = Ok p ->
  dict p !! "is_referee" = Some (VBool (bool_decide (sd_observe slot = 2))) /\
  dict p !! "is_observer" = Some (VBool (bool_decide (sd_observe slot ≠ 0))) /\
  (dict p !! "is_referee" = Some (VBool true) ->
   dict p !! "is_observer" = Some (VBool true)).
Proof.
  intros Hnew.
  assert (Hflags : observer_flags (sd_observe slot) (dict p)).
  { destruct Hnew as [H|[H|H]].
    - unfold Observer_new in H. do 2 run_result H. injection H as <-. simpl.
      eapply User_init_flags in Hstep0; [|by eapply Entity_init_flags].
      destruct Hstep0. split; attr_lookup; assumption.
    - unfold Computer_new in H. do 2 run_result H. injection H as <-. simpl.
      eapply Player_init_flags in Hstep0; [|by eapply Entity_init_flags].
      destruct Hstep0. split; attr_lookup; assumption.
    - unfold Participant_new in H. do 3 run_result H. injection H as <-. simpl.
      eapply Player_init_flags; [done|].
      eapply User_init_flags; [done|]. by eapply Entity_init_flags. }
  destruct Hflags as [Href Hobs]. split; [done|]. split; [done|].
  rewrite Href, Hobs. intros [= Htrue]. do 2 f_equal.
  apply bool_decide_eq_true in Htrue. apply bool_decide_eq_true. lia.
Qed.

Lemma referee_is_observer_witness :
  exists p,
    Observer_new Sample.GATEWAY_LOOKUP 4 (Sample.slot 2 (Some "1-S2-3-12345"))
      7 (Sample.init "ref") 0 = Ok p /\
    dict p !! "is_referee" = Some (VBool true) /\
    dict p !! "is_observer" = Some (VBool true).
Proof.
  destruct (succeeds_is_Ok
              (Observer_new Sample.GATEWAY_LOOKUP 4
                 (Sample.slot 2 (Some "1-S2-3-12345")) 7 (Sample.init "ref") 0))
    as [p Hnew]; [vm_compute; reflexivity|].
  exists p. split; [exact Hnew|].
  destruct (referee_is_observer Sample.GATEWAY_LOOKUP Sample.LOCALIZED_RACES
              4 (Sample.slot 2 (Some "1-S2-3-12345")) 7 (Sample.init "ref") 0
              (Sample.detail "x") ∅ p (or_introl Hnew)) as (Href & Hobs & _).
  split; [exact Href | exact Hobs].
Defined.

(** ** Account handles *)

(** [Entity.__init__] on a handle whose parts are known. *)
Lemma Entity_init_handle (GATEWAY_LOOKUP : gmap Z string) sid slot self
    part0 part1 part2 part3 parts region_id region subregion toon_id :
  Py.split "-" (or_default (sd_toon_handle slot) "0-S2-0-0")
  = part0 :: part1 :: part2 :: part3 :: parts ->
  Py.int part0 = Ok region_id ->
  GATEWAY_LOOKUP !! region_id = Some region ->
  Py.int part2 = Ok subregion ->
  Py.int part3 = Ok toon_id ->
  exists e,
    Entity_init GATEWAY_LOOKUP sid slot self = Ok e /\
    e !! "region" = Some (VStr region) /\
    e !! "subregion" = Some (VInt subregion) /\
    e !! "toon_id" = Some (VInt toon_id).
Proof.
  intros Hsplit H0 Hregion H2 H3. unfold Entity_init. cbv zeta.
  rewrite Hsplit, !index_later, !index_here.
  rewrite bind_Ok, H0, bind_Ok, (subscript_Some _ _ _ Hregion), bind_Ok.
  rewrite bind_Ok, H2, bind_Ok, bind_Ok, H3, bind_Ok.
  eexists. split; [reflexivity|]. repeat split; attr_lookup.
Qed.

(** C5, as the code has it.  An absent or empty handle is replaced by
    the zero handle "0-S2-0-0" before splitting, and then yields region =
    lookup(0), subregion = 0, accountId = 0; the handle "1-S2-3-12345"
    yields region = lookup(1), subregion = 3, accountId = 12345 (the
    region table holding the code in both cases).  Any other handle is
    split as it is, without a fallback. *)
Theorem toon_handle_fallback_and_parse (GATEWAY_LOOKUP : gmap Z string)
    (sid : Z) (slot : slot_data) (self : attrs) (region : string) :
  (sd_toon_handle slot = None \/ sd_toon_handle slot = Some "" ->
   GATEWAY_LOOKUP !! 0 = Some region ->
   exists e,
     Entity_init GATEWAY_LOOKUP sid slot self = Ok e /\
     e !! "region" = Some (VStr region) /\
     e !! "subregion" = Some (VInt 0) /\
     e !! "toon_id" = Some (VInt 0)) /\
  (sd_toon_handle slot = Some "1-S2-3-12345" ->
   GATEWAY_LOOKUP !! 1 = Some region ->
   exists e,
     Entity_init GATEWAY_LOOKUP sid slot self = Ok e /\
     e !! "region" = Some (VStr region) /\
     e !! "subregion" = Some (VInt 3) /\
     e !! "toon_id" = Some (VInt 12345)) /\
  (forall handle, handle ≠ "" ->
     or_default (Some handle) "0-S2-0-0" = handle).
Proof.
  split; [|split].
  - intros Hhandle Hregion.
    eapply (Entity_init_handle _ _ _ _ "0" "S2" "0" "0" []); [|done..].
    by destruct Hhandle as [-> | ->].
  - intros Hhandle Hregion.
    eapply (Entity_init_handle _ _ _ _ "1" "S2" "3" "12345" []); [|done..].
    by rewrite Hhandle.
  - by intros [|c handle].
Qed.

Lemma toon_handle_fallback_and_parse_witness :
  (exists e,
     Entity_init Sample.GATEWAY_LOOKUP 4 (Sample.slot 0 None) ∅ = Ok e /\
     e !! "region" = Some (VStr "") /\
     e !! "subregion" = Some (VInt 0) /\
     e !! "toon_id" = Some (VInt 0)) /\
  (exists e,
     Entity_init Sample.GATEWAY_LOOKUP 4
       (Sample.slot 0 (Some "1-S2-3-12345")) ∅ = Ok e /\
     e !! "region" = Some (VStr "us") /\
     e !! "subregion" = Some (VInt 3) /\
     e !! "toon_id" = Some (VInt 12345)).
Proof.
  split.
  - exact (proj1 (toon_handle_fallback_and_parse Sample.GATEWAY_LOOKUP 4
                    (Sample.slot 0 None) ∅ "")
             (or_introl eq_refl) eq_refl).
  - exact (proj1 (proj2 (toon_handle_fallback_and_parse Sample.GATEWAY_LOOKUP 4
                           (Sample.slot 0 (Some "1-S2-3-12345")) ∅ "us"))
             eq_refl eq_refl).
Defined.

(** C5, as the claim has it, fails: a malformed handle is not replaced
    by the zero handle.  The handle "x" makes [int] raise [ValueError],
    and the handle "1-S2", which has too few parts, [IndexError]. *)
Lemma malformed_toon_handle_raises :
  Entity_init Sample.GATEWAY_LOOKUP 4 (Sample.slot 0 (Some "x")) ∅
  = Raise ValueError /\
  Entity_init Sample.GATEWAY_LOOKUP 4 (Sample.slot 0 (Some "1-S2")) ∅
  = Raise IndexError.
Proof. split; vm_compute; reflexivity. Qed.

(** ** Attributes *)

Lemma append_cons (c : ascii) (s t : string) :
  String c s +:+ t = String c (s +:+ t).
Proof. reflexivity. Qed.

Lemma append_assoc (s t u : string) : (s +:+ t) +:+ u = s +:+ (t +:+ u).
Proof.
  induction s as [|c s IH]; [done|]. by rewrite !append_cons, IH.
Qed.

Section strip.

Context (chars : list ascii).

Lemma rev_app_append (s t : string) :
  String.rev_app s t = String.rev_app s "" +:+ t.
Proof.
  revert t. induction s as [|c s IH]; intros t; simpl; [done|].
  rewrite (IH (String c t)), (IH (String c "")).
  by rewrite append_assoc.
Qed.

Lemma reversed_cons (c : ascii) (s : string) :
  Py.reversed (String c s) = Py.reversed s +:+ String c "".
Proof. unfold Py.reversed, String.rev. simpl. apply rev_app_append. Qed.

Lemma reversed_snoc (s : string) (c : ascii) :
  Py.reversed (s +:+ String c "") = String c (Py.reversed s).
Proof.
  induction s as [|a s IH]; [done|].
  by rewrite append_cons, !reversed_cons, IH.
Qed.

Lemma reversed_involutive (s : string) : Py.reversed (Py.reversed s) = s.
Proof.
  induction s as [|c s IH]; [done|].
  by rewrite reversed_cons, reversed_snoc, IH.
Qed.

Lemma lstrip_snoc (s : string) (c : ascii) :
  Py.lstrip chars (s +:+ String c "")
  = match Py.lstrip chars s with
    | EmptyString => if bool_decide (c ∈ chars) then "" else String c ""
    | r => r +:+ String c ""
    end.
Proof.
  induction s as [|a s IH].
  - change ("" +:+ String c "") with (String c ""). cbn [Py.lstrip].
    by case_bool_decide.
  - rewrite append_cons. cbn [Py.lstrip].
    destruct (bool_decide (a ∈ chars)); [exact IH|reflexivity].
Qed.

Lemma reversed_rstrip (s : string) :
  Py.reversed (Py.rstrip chars s) = Py.lstrip chars (Py.reversed s).
Proof.
  induction s as [|c s IH]; [done|].
  rewrite reversed_cons, lstrip_snoc, <- IH. cbn [Py.rstrip].
  destruct (Py.rstrip chars s) as [|a r].
  - change (Py.reversed "") with "". by destruct (bool_decide (c ∈ chars)).
  - rewrite (reversed_cons c), (reversed_cons a).
    by destruct (Py.reversed r).
Qed.

Lemma reversed_lstrip (s : string) :
  Py.reversed (Py.lstrip chars s) = Py.rstrip chars (Py.reversed s).
Proof.
  rewrite <- (reversed_involutive (Py.rstrip chars (Py.reversed s))).
  by rewrite reversed_rstrip, reversed_involutive.
Qed.

Lemma lstrip_rstrip (s : string) :
  Py.lstrip chars (Py.rstrip chars s) = Py.rstrip chars (Py.lstrip chars s).
Proof.
  induction s as [|c s IH]; [done|]. simpl.
  case_bool_decide as Hc.
  - rewrite <- IH. destruct (Py.rstrip chars s); simpl; [done|].
    by rewrite bool_decide_eq_true_2.
  - simpl. destruct (Py.rstrip chars s); simpl; by rewrite bool_decide_eq_false_2.
Qed.

(** Stripping and reversing commute. *)
Lemma reversed_strip (s : string) :
  Py.reversed (Py.strip chars s) = Py.strip chars (Py.reversed s).
Proof.
  unfold Py.strip.
  by rewrite reversed_rstrip, reversed_lstrip, lstrip_rstrip.
Qed.

End strip.

(** The padding stripped from a raw attribute value: null and space. *)
Definition padding : list ascii := ["000"; " "]%char.

(** The key as the specification words it: the raw value reversed, then
    stripped of its padding. *)
Definition reversed_then_stripped (raw : string) : string :=
  Py.strip padding (Py.reversed raw).

Section attributes.

Context (LOBBY_PROPERTIES : gmap Z (string * gmap string string)).

Lemma Attribute_new_unknown header attr_id player raw :
  LOBBY_PROPERTIES !! attr_id = None ->
  exists self,
    Attribute_new LOBBY_PROPERTIES header attr_id player raw
    = Ok (self, [(INFO, "Unknown attribute id: " +:+ Py.str_int attr_id)]) /\
    self !! "name" = Some (VStr "Unknown") /\
    self !! "value" = Some VNone.
Proof.
  intros Hid. unfold Attribute_new. rewrite Hid.
  eexists. split; [reflexivity|]. split; attr_lookup.
Qed.

Lemma Attribute_new_known header attr_id player raw name lookup :
  LOBBY_PROPERTIES !! attr_id = Some (name, lookup) ->
  Attribute_new LOBBY_PROPERTIES header attr_id player raw
  = match lookup !! Py.reversed (Py.strip padding raw) with
    | Some v =>
        Ok (setattr "value" (VStr v)
              (setattr "name" (VStr name)
                 (setattr "player" (VInt player)
                    (setattr "id" (VInt attr_id)
                       (setattr "header" (VInt header) ∅)))), [])
    | None => Raise KeyError
    end.
Proof.
  intros Hid. unfold Attribute_new. rewrite Hid.
  unfold subscript, padding. by destruct (lookup !! _).
Qed.

End attributes.

(** C8.  Building an attribute raises exactly when its id is known and
    the normalized raw value is not a key of the id's value table; the
    exception is then [KeyError].  For an unknown id the attribute gets
    the name "Unknown" and the value [None], and the one thing logged is
    an informational note. *)
Theorem Attribute_raises_iff_known_id_missing_key
    (LOBBY_PROPERTIES : gmap Z (string * gmap string string))
    (header attr_id player : Z) (raw : string) :
  ((exists e, Attribute_new LOBBY_PROPERTIES header attr_id player raw = Raise e)
   <-> exists name lookup,
         LOBBY_PROPERTIES !! attr_id = Some (name, lookup) /\
         lookup !! Py.reversed (Py.strip padding raw) = None) /\
  (forall e, Attribute_new LOBBY_PROPERTIES header attr_id player raw = Raise e ->
             e = KeyError) /\
  (LOBBY_PROPERTIES !! attr_id = None ->
   exists self,
     Attribute_new LOBBY_PROPERTIES header attr_id player raw
     = Ok (self, [(INFO, "Unknown attribute id: " +:+ Py.str_int attr_id)]) /\
     self !! "name" = Some (VStr "Unknown") /\
     self !! "value" = Some VNone).
Proof.
  destruct (LOBBY_PROPERTIES !! attr_id) as [[name lookup]|] eqn:Hid.
  - rewrite (Attribute_new_known _ _ _ _ _ _ _ Hid).
    destruct (lookup !! _) as [v|] eqn:Hkey.
    + split; [|split]; [|by intros e [=]|by intros [=]].
      split; [by intros [e [=]]|]. intros (n & l & [= <- <-] & Hnone).
      by rewrite Hkey in Hnone.
    + split; [|split]; [|by intros e [= <-]|by intros [=]].
      split; [|by eexists]. intros _. by exists name, lookup.
  - destruct (Attribute_new_unknown LOBBY_PROPERTIES header attr_id player raw Hid)
      as (self & Hnew & Hname & Hvalue).
    rewrite Hnew. split; [|split]; [|by intros e [=]|by exists self].
    split; [by intros [e [=]]|by intros (n & l & [=] & _)].
Qed.

Lemma Attribute_raises_iff_known_id_missing_key_witness :
  exists self,
    Attribute_new Sample.LOBBY_PROPERTIES 1 9999 2 "xxxx"
    = Ok (self, [(INFO, "Unknown attribute id: 9999")]) /\
    self !! "name" = Some (VStr "Unknown") /\
    self !! "value" = Some VNone.
Proof.
  exact (proj2 (proj2 (Attribute_raises_iff_known_id_missing_key
                         Sample.LOBBY_PROPERTIES 1 9999 2 "xxxx")) eq_refl).
Defined.

(** C9.  For a known attribute id the key looked up in the id's value
    table is the raw value stripped of its null and space padding and
    reversed, which is the same text as the raw value reversed and then
    stripped; the attribute's value is what the table holds under that
    key.  The raw value "\x00\x00ME" has the key "EM"; stripping alone
    gives "ME", and reversing alone leaves the padding. *)
Theorem Attribute_value_key_reversed_and_stripped
    (LOBBY_PROPERTIES : gmap Z (string * gmap string string))
    (header attr_id player : Z) (raw name : string)
    (lookup : gmap string string) (v : string) :
  (LOBBY_PROPERTIES !! attr_id = Some (name, lookup) ->
   lookup !! reversed_then_stripped raw = Some v ->
   exists self,
     Attribute_new LOBBY_PROPERTIES header attr_id player raw = Ok (self, []) /\
     self !! "name" = Some (VStr name) /\
     self !! "value" = Some (VStr v)) /\
  Py.reversed (Py.strip padding raw) = reversed_then_stripped raw /\
  reversed_then_stripped (String "000" (String "000" "ME")) = "EM" /\
  Py.strip padding (String "000" (String "000" "ME")) = "ME" /\
  Py.reversed (String "000" (String "000" "ME"))
  = String "E" (String "M" (String "000" (String "000" ""))).
Proof.
  split; [|split; [apply reversed_strip|repeat split]].
  intros Hid Hkey. rewrite (Attribute_new_known _ _ _ _ _ _ _ Hid).
  rewrite reversed_strip. fold (reversed_then_stripped raw). rewrite Hkey.
  eexists. split; [reflexivity|]. split; attr_lookup.
Qed.

Lemma Attribute_value_key_reversed_and_stripped_witness :
  exists self,
    Attribute_new Sample.LOBBY_PROPERTIES 1 3004 2
      (String "000" (String "000" "ME")) = Ok (self, []) /\
    self !! "name" = Some (VStr "Difficulty") /\
    self !! "value" = Some (VStr "Medium").
Proof.
  exact (proj1 (Attribute_value_key_reversed_and_stripped
                  Sample.LOBBY_PROPERTIES 1 3004 2
                  (String "000" (String "000" "ME")) "Difficulty"
                  {[ "EM" := "Medium"; "yEyV" := "Very Easy" ]} "Medium")
           eq_refl eq_refl).
Defined.

(** ** Teams *)

Lemma urls_app (ps qs : list object) :
  urls (ps ++ qs) = us ← urls ps; vs ← urls qs; Ok (us ++ vs).
Proof.
  induction ps as [|p ps IH]; simpl.
  - by destruct (urls qs).
  - destruct (url p) as [u|e]; simpl; [|done]. rewrite IH.
    destruct (urls ps) as [us|e]; simpl; [|done].
    by destruct (urls qs).
Qed.

Lemma urls_two (a b : object) :
  urls [a; b] = u ← url a; v ← url b; Ok [u; v].
Proof. simpl. destruct (url a); simpl; [|done]. by destruct (url b). Qed.

(** Sorting forgets the order of its input. *)
Lemma sorted_Permutation (l1 l2 : list string) :
  l1 ≡ₚ l2 -> Py.sorted l1 = Py.sorted l2.
Proof.
  intros Hperm. unfold Py.sorted.
  apply (Sorted_unique String.le).
  - apply Sorted_merge_sort, _.
  - apply Sorted_merge_sort, _.
  - by rewrite !merge_sort_Permutation.
Qed.

Lemma Team_hash_add_add sha256_hexdigest t a b :
  Team_hash sha256_hexdigest (Team_add b (Team_add a t))
  = us ← urls (players t); u ← url a; v ← url b;
    sha256_hexdigest (Py.join "," (Py.sorted (us ++ [u; v]))).
Proof.
  unfold Team_hash, Team_add. simpl.
  rewrite <- app_assoc. simpl. rewrite urls_app, urls_two.
  destruct (urls (players t)) as [us|]; simpl; [|done].
  destruct (url a) as [u|]; simpl; [|done].
  by destruct (url b) as [v|].
Qed.

Section urls.

Context (GATEWAY_LOOKUP : gmap Z string).
Context (LOCALIZED_RACES : gmap string string).

Lemma format_field_str (self : attrs) (name s : string) :
  self !! name = Some (VStr s) -> format_field self name = Ok s.
Proof. intros Hname. unfold format_field, subscript. by rewrite Hname. Qed.

Lemma format_field_int (self : attrs) (name : string) (n : Z) :
  self !! name = Some (VInt n) -> format_field self name = Ok (Py.str_int n).
Proof. intros Hname. unfold format_field, subscript. by rewrite Hname. Qed.

(** The account fields [Entity.__init__] assigns. *)
Lemma Entity_init_account sid slot self e :
  Entity_init GATEWAY_LOOKUP sid slot self = Ok e ->
  exists region subregion toon_id,
    e !! "region" = Some (VStr region) /\
    e !! "subregion" = Some (VInt subregion) /\
    e !! "toon_id" = Some (VInt toon_id).
Proof.
  intros H. unfold Entity_init in H. cbv zeta in H.
  do 7 run_result H. returned H.
  eexists _, _, _. repeat split; attr_lookup.
Qed.

(** The profile URL of an observer is made of the region, subregion and
    account id of its handle and of its name. *)
Lemma Observer_url sid slot uid init pid p :
  Observer_new GATEWAY_LOOKUP sid slot uid init pid = Ok p ->
  exists region toon_id subregion,
    url p = Ok ("http://" +:+ region +:+ ".battle.net/sc2/en/profile/"
                +:+ Py.str_int toon_id +:+ "/" +:+ Py.str_int subregion
                +:+ "/" +:+ id_name init +:+ "/").
Proof.
  intros H. unfold Observer_new in H. do 2 run_result H.
  unfold User_init in Hstep0. cbv zeta in Hstep0. returned Hstep0.
  returned H.
  destruct (Entity_init_account _ _ _ _ Hstep)
    as (region & subregion & toon_id & Hregion & Hsubregion & Htoon_id).
  exists region, toon_id, subregion. unfold url. cbn [class_of is_User dict].
  rewrite (format_field_str _ "region" region) by (by attr_lookup).
  rewrite (format_field_int _ "toon_id" toon_id) by (by attr_lookup).
  rewrite (format_field_int _ "subregion" subregion) by (by attr_lookup).
  rewrite (format_field_str _ "name" (id_name init)) by (by attr_lookup).
  reflexivity.
Qed.

(** The profile URL of a human participant uses the account data of the
    detail record, which [Player.__init__] assigns last. *)
Lemma Participant_url sid slot uid init pid detail attribute_data p :
  Participant_new GATEWAY_LOOKUP LOCALIZED_RACES sid slot uid init pid detail
    attribute_data = Ok p ->
  exists region,
    GATEWAY_LOOKUP !! bd_region (dd_bnet detail) = Some region /\
    url p = Ok ("http://" +:+ region +:+ ".battle.net/sc2/en/profile/"
                +:+ Py.str_int (bd_uid (dd_bnet detail)) +:+ "/"
                +:+ Py.str_int (bd_subregion (dd_bnet detail))
                +:+ "/" +:+ id_name init +:+ "/").
Proof.
  intros H. unfold Participant_new in H. do 3 run_result H. returned H.
  unfold User_init in Hstep0. cbv zeta in Hstep0. returned Hstep0.
  unfold Player_init in Hstep1. cbv zeta in Hstep1. run_result Hstep1.
  returned Hstep1.
  unfold subscript in Hstep0.
  destruct (GATEWAY_LOOKUP !! _) as [region|] eqn:Hregion; [|discriminate].
  apply Ok_inj in Hstep0. subst a0.
  exists region. split; [done|]. unfold url. cbn [class_of is_User dict].
  rewrite (format_field_str _ "region" region) by (by attr_lookup).
  rewrite (format_field_int _ "toon_id" (bd_uid (dd_bnet detail)))
    by (by attr_lookup).
  rewrite (format_field_int _ "subregion" (bd_subregion (dd_bnet detail)))
    by (by attr_lookup).
  rewrite (format_field_str _ "name" (id_name init)).
  - reflexivity.
  - repeat case_decide; by attr_lookup.
Qed.

(** A computer player has no [url]: its class does not inherit from
    [User]. *)
Lemma Computer_url sid slot pid detail attribute_data p :
  Computer_new GATEWAY_LOOKUP LOCALIZED_RACES sid slot pid detail attribute_data
  = Ok p ->
  url p = Raise AttributeError.
Proof.
  intros H. unfold Computer_new in H. do 2 run_result H. by returned H.
Qed.

End urls.

(** C7.  For every team [t] and participants [A] and [B], the hash after
    adding [A] then [B] can be computed exactly when the hash after
    adding [B] then [A] can, and it is the same digest; when the only
    exception a member's [url] can raise is [AttributeError] (which is so
    for every participant a constructor builds) the two outcomes are
    equal altogether.  The hash is not stored: each call takes the
    members' URLs as they are then, sorts them, joins them with "," and
    passes the text to the digest. *)
Theorem Team_hash_insertion_order
    (sha256_hexdigest : string -> result string) (t : Team) (A B : object) :
  (forall h,
     Team_hash sha256_hexdigest (Team_add B (Team_add A t)) = Ok h <->
     Team_hash sha256_hexdigest (Team_add A (Team_add B t)) = Ok h) /\
  ((forall e, url A = Raise e -> e = AttributeError) ->
   (forall e, url B = Raise e -> e = AttributeError) ->
   Team_hash sha256_hexdigest (Team_add B (Team_add A t))
   = Team_hash sha256_hexdigest (Team_add A (Team_add B t))) /\
  (forall us,
     urls (players t) = Ok us ->
     Team_hash sha256_hexdigest t
     = sha256_hexdigest (Py.join "," (Py.sorted us))) /\
  (forall us, Sorted String.le (Py.sorted us) /\ Py.sorted us ≡ₚ us).
Proof.
  assert (Hswap : forall us u v,
            Py.sorted (us ++ [u; v]) = Py.sorted (us ++ [v; u])).
  { intros us u v. apply sorted_Permutation.
    apply Permutation_app_head, perm_swap. }
  rewrite !Team_hash_add_add.
  split; [|split; [|split]].
  - intros h. destruct (urls (players t)) as [us|]; simpl; [|done].
    destruct (url A) as [a|], (url B) as [b|]; simpl; try done.
    by rewrite Hswap.
  - intros HA HB. destruct (urls (players t)) as [us|]; simpl; [|done].
    destruct (url A) as [a|ea] eqn:HuA, (url B) as [b|eb] eqn:HuB; simpl;
      try done.
    + by rewrite Hswap.
    + by rewrite (HA ea), (HB eb).
  - intros us Hus. unfold Team_hash. by rewrite Hus.
  - intros us. split; [apply Sorted_merge_sort, _|apply merge_sort_Permutation].
Qed.

Lemma Team_hash_insertion_order_witness :
  url Sample.bob = Ok "http://us.battle.net/sc2/en/profile/12345/3/bob/" /\
  url Sample.al = Ok "http://eu.battle.net/sc2/en/profile/77/1/al/" /\
  Team_hash Ok (Team_add Sample.al (Team_add Sample.bob (Team_init 1)))
  = Team_hash Ok (Team_add Sample.bob (Team_add Sample.al (Team_init 1))) /\
  Team_hash Ok (Team_add Sample.bob (Team_add Sample.al (Team_init 1)))
  = Ok ("http://eu.battle.net/sc2/en/profile/77/1/al/" +:+ "," +:+
        "http://us.battle.net/sc2/en/profile/12345/3/bob/").
Proof.
  assert (Hbob : url Sample.bob
                 = Ok "http://us.battle.net/sc2/en/profile/12345/3/bob/")
    by (vm_compute; reflexivity).
  assert (Hal : url Sample.al
                = Ok "http://eu.battle.net/sc2/en/profile/77/1/al/")
    by (vm_compute; reflexivity).
  split; [exact Hbob|]. split; [exact Hal|]. split.
  - apply (proj1 (proj2 (Team_hash_insertion_order Ok (Team_init 1)
                           Sample.bob Sample.al))).
    + intros e He. rewrite Hbob in He. discriminate He.
    + intros e He. rewrite Hal in He. discriminate He.
  - vm_compute. reflexivity.
Defined.

(** ** Composition *)

Section composition.

Context (GATEWAY_LOOKUP : gmap Z string).
Context (LOCALIZED_RACES : gmap string string).

Lemma Observer_new_class sid slot uid init pid p :
  Observer_new GATEWAY_LOOKUP sid slot uid init pid = Ok p ->
  class_of p = Observer.
Proof.
  intros H. unfold Observer_new in H. do 2 run_result H. by injection H as <-.
Qed.

Lemma Computer_new_class sid slot pid detail attribute_data p :
  Computer_new GATEWAY_LOOKUP LOCALIZED_RACES sid slot pid detail attribute_data
  = Ok p ->
  class_of p = Computer.
Proof.
  intros H. unfold Computer_new in H. do 2 run_result H. by injection H as <-.
Qed.

Lemma Participant_new_class sid slot uid init pid detail attribute_data p :
  Participant_new GATEWAY_LOOKUP LOCALIZED_RACES sid slot uid init pid detail
    attribute_data = Ok p ->
  class_of p = Participant.
Proof.
  intros H. unfold Participant_new in H. do 3 run_result H.
  by injection H as <-.
Qed.

End composition.

(** C6.  Composition picks the class from which of the user and detail
    records are present: detail data without user data gives a
    [Computer], both give a [Participant], user data without detail data
    gives an [Observer], in each case whenever the constructor of that
    class does not raise on the records; with neither record the outcome
    is the fault InconsistentInput, never a participant, and that fault
    arises in no other case. *)
Theorem compose_by_presence (GATEWAY_LOOKUP : gmap Z string)
    (LOCALIZED_RACES : gmap string string)
    (sid : Z) (slot : slot_data) (uid pid : Z)
    (attributes : option (gmap string string)) :
  (forall detail,
     is_Ok (Computer_new GATEWAY_LOOKUP LOCALIZED_RACES sid slot pid detail
              (default ∅ attributes)) ->
     exists p,
       compose GATEWAY_LOOKUP LOCALIZED_RACES sid slot uid pid
         None (Some detail) attributes = Composed p /\
       class_of p = Computer) /\
  (forall init detail,
     is_Ok (Participant_new GATEWAY_LOOKUP LOCALIZED_RACES sid slot uid init
              pid detail (default ∅ attributes)) ->
     exists p,
       compose GATEWAY_LOOKUP LOCALIZED_RACES sid slot uid pid
         (Some init) (Some detail) attributes = Composed p /\
       class_of p = Participant) /\
  (forall init,
     is_Ok (Observer_new GATEWAY_LOOKUP sid slot uid init pid) ->
     exists p,
       compose GATEWAY_LOOKUP LOCALIZED_RACES sid slot uid pid
         (Some init) None attributes = Composed p /\
       class_of p = Observer) /\
  compose GATEWAY_LOOKUP LOCALIZED_RACES sid slot uid pid None None attributes
  = InconsistentInput /\
  (forall user detail,
     compose GATEWAY_LOOKUP LOCALIZED_RACES sid slot uid pid user detail
       attributes = InconsistentInput ->
     user = None /\ detail = None).
Proof.
  split; [|split; [|split; [|split]]].
  - intros detail [p Hp]. exists p. simpl. rewrite Hp.
    split; [done|]. by eapply Computer_new_class.
  - intros init detail [p Hp]. exists p. simpl. rewrite Hp.
    split; [done|]. by eapply Participant_new_class.
  - intros init [p Hp]. exists p. simpl. rewrite Hp.
    split; [done|]. by eapply Observer_new_class.
  - reflexivity.
  - intros [init|] [detail|]; simpl; [..|done].
    + by destruct (Participant_new _ _ _ _ _ _ _ _ _).
    + by destruct (Observer_new _ _ _ _ _ _).
    + by destruct (Computer_new _ _ _ _ _ _ _).
Qed.

Lemma compose_by_presence_witness :
  (exists p,
     compose Sample.GATEWAY_LOOKUP Sample.LOCALIZED_RACES 4
       (Sample.slot 0 None) 7 2 None (Some (Sample.detail "A.I. 1")) None
     = Composed p /\ class_of p = Computer) /\
  (exists p,
     compose Sample.GATEWAY_LOOKUP Sample.LOCALIZED_RACES 4
       (Sample.slot 0 (Some "1-S2-3-12345")) 7 2 (Some (Sample.init "bob"))
       (Some (Sample.detail "bob")) None
     = Composed p /\ class_of p = Participant) /\
  (exists p,
     compose Sample.GATEWAY_LOOKUP Sample.LOCALIZED_RACES 4
       (Sample.slot 1 (Some "1-S2-3-12345")) 7 2 (Some (Sample.init "bob"))
       None None
     = Composed p /\ class_of p = Observer).
Proof.
  pose proof (compose_by_presence Sample.GATEWAY_LOOKUP Sample.LOCALIZED_RACES
                4 (Sample.slot 0 None) 7 2 None) as (Hcomputer & _).
  pose proof (compose_by_presence Sample.GATEWAY_LOOKUP Sample.LOCALIZED_RACES
                4 (Sample.slot 0 (Some "1-S2-3-12345")) 7 2 None)
    as (_ & Hparticipant & _).
  pose proof (compose_by_presence Sample.GATEWAY_LOOKUP Sample.LOCALIZED_RACES
                4 (Sample.slot 1 (Some "1-S2-3-12345")) 7 2 None)
    as (_ & _ & Hobserver & _).
  split; [|split].
  - apply Hcomputer, succeeds_is_Ok. vm_compute. reflexivity.
  - apply Hparticipant, succeeds_is_Ok. vm_compute. reflexivity.
  - apply Hobserver, succeeds_is_Ok. vm_compute. reflexivity.
Defined.

(** * More of the module *)

(** ** Graph *)

(** [Graph]: the class attributes [times] and [values] are replaced by
    instance attributes in [__init__]. *)
Record Graph (A B : Type) : Type := { times : list A; values : list B }.
Arguments times {A B} g.
Arguments values {A B} g.

(** [Graph.__init__(self, x, y, xy_list=None)]: a list of pairs that is
    not empty fills both attributes; otherwise [x] and [y] are taken as
    they are. *)
Definition Graph_init {A B} (x : list A) (y : list B)
    (xy_list : option (list (A * B))) : Graph A B :=
  match xy_list with
  | Some (p :: ps) =>
      fold_left
        (fun g '(x, y) => {| times := times g ++ [x]; values := values g ++ [y] |})
        (p :: ps) {| times := []; values := [] |}
  | Some [] | None => {| times := x; values := y |}
  end.

(** [Graph.as_points(self)]: [zip] stops at the shorter list. *)
Definition as_points {A B} (g : Graph A B) : list (A * B) :=
  zip (times g) (values g).

(** [Graph.__str__(self)] *)
Definition Graph_str {A B} (g : Graph A B) : string :=
  "Graph with " +:+ Py.str_int (Z.of_nat (length (times g))) +:+ " values".

Section graph.

Context {A B : Type}.

Lemma Graph_fill (ps : list (A * B)) (g : Graph A B) :
  fold_left
    (fun g '(x, y) => {| times := times g ++ [x]; values := values g ++ [y] |})
    ps g
  = {| times := times g ++ ps.*1; values := values g ++ ps.*2 |}.
Proof.
  revert g. induction ps as [|[x y] ps IH]; intros g; simpl.
  - rewrite !app_nil_r. by destruct g.
  - rewrite IH. simpl. by rewrite <- !app_assoc.
Qed.

(** A graph built from a list of points gives the points back; the
    lists [x] and [y] are then ignored.  Built from no list, or from an
    empty one, it pairs [x] with [y]. *)
Theorem Graph_points_round_trip (x : list A) (y : list B)
    (xy_list : list (A * B)) :
  (xy_list ≠ [] ->
   as_points (Graph_init x y (Some xy_list)) = xy_list /\
   times (Graph_init x y (Some xy_list)) = xy_list.*1 /\
   values (Graph_init x y (Some xy_list)) = xy_list.*2) /\
  as_points (Graph_init x y (Some [])) = zip x y /\
  as_points (Graph_init x y None) = zip x y.
Proof.
  split; [|done]. intros Hne. destruct xy_list as [|p ps]; [done|].
  unfold as_points, Graph_init. rewrite Graph_fill. simpl.
  split; [|done]. f_equal; [by destruct p|apply zip_fst_snd].
Qed.

(** Built from two lists, a graph has as many points as the shorter
    list; with lists of equal length the points give both lists back,
    and the text of the graph counts the times, not the points. *)
Theorem Graph_points_of_lists (x : list A) (y : list B) :
  length (as_points (Graph_init x y None)) = (length x `min` length y)%nat /\
  (length x = length y ->
   (as_points (Graph_init x y None)).*1 = x /\
   (as_points (Graph_init x y None)).*2 = y) /\
  Graph_str (Graph_init x y None)
  = "Graph with " +:+ Py.str_int (Z.of_nat (length x)) +:+ " values".
Proof.
  unfold as_points. simpl. split; [apply length_zip|]. split; [|done].
  intros Hlen. split; [apply fst_zip|apply snd_zip]; lia.
Qed.

End graph.

Lemma Graph_points_round_trip_witness :
  as_points (Graph_init [9%nat] [true; false] (Some [(1%nat, true); (2%nat, false)]))
  = [(1%nat, true); (2%nat, false)].
Proof.
  apply (proj1 (Graph_points_round_trip [9%nat] [true; false]
                  [(1%nat, true); (2%nat, false)])).
  discriminate.
Defined.

Lemma Graph_points_of_lists_witness :
  (as_points (Graph_init [0; 30; 60] ["a"; "b"; "c"] None)).*1 = [0; 30; 60] /\
  (as_points (Graph_init [0; 30; 60] ["a"; "b"; "c"] None)).*2 = ["a"; "b"; "c"].
Proof.
  apply (proj1 (proj2 (Graph_points_of_lists [0; 30; 60] ["a"; "b"; "c"]))).
  reflexivity.
Defined.

(** ** Attribute values and their padding *)

(** A text made of the given characters only. *)
Fixpoint only (chars : list ascii) (s : string) : bool :=
  match s with
  | EmptyString => true
  | String c s' => bool_decide (c ∈ chars) && only chars s'
  end.

Section padding.

Context (chars : list ascii).

Lemma lstrip_only_app (pad s : string) :
  only chars pad = true -> Py.lstrip chars (pad +:+ s) = Py.lstrip chars s.
Proof.
  induction pad as [|c pad IH]; [done|].
  cbn [only]. intros [Hc Hpad]%andb_true_iff.
  rewrite append_cons. cbn [Py.lstrip]. rewrite Hc. by apply IH.
Qed.

Lemma only_reversed (pad : string) :
  only chars pad = true -> only chars (Py.reversed pad) = true.
Proof.
  induction pad as [|c pad IH]; [done|].
  cbn [only]. intros [Hc Hpad]%andb_true_iff.
  rewrite reversed_cons. specialize (IH Hpad).
  revert IH. generalize (Py.reversed pad). intros r.
  induction r as [|a r IHr]; intros Hr.
  - change ("" +:+ String c "") with (String c ""). cbn [only].
    by rewrite Hc.
  - rewrite append_cons. cbn [only] in *.
    apply andb_true_iff in Hr as [Ha Hr]. rewrite Ha. by apply IHr.
Qed.

Lemma reversed_append (s t : string) :
  Py.reversed (s +:+ t) = Py.reversed t +:+ Py.reversed s.
Proof.
  induction s as [|c s IH].
  - change ("" +:+ t) with t. change (Py.reversed "") with "".
    generalize (Py.reversed t). intros r.
    induction r as [|a r IHr]; [done|]. by rewrite append_cons, <- IHr.
  - by rewrite append_cons, !reversed_cons, IH, append_assoc.
Qed.

Lemma rstrip_app_only (s pad : string) :
  only chars pad = true -> Py.rstrip chars (s +:+ pad) = Py.rstrip chars s.
Proof.
  intros Hpad.
  rewrite <- (reversed_involutive (Py.rstrip chars (s +:+ pad))).
  rewrite reversed_rstrip, reversed_append.
  rewrite lstrip_only_app by (by apply only_reversed).
  by rewrite <- reversed_rstrip, reversed_involutive.
Qed.

(** Padding on either side does not change what [strip] returns. *)
Lemma strip_padded (l s r : string) :
  only chars l = true -> only chars r = true ->
  Py.strip chars (l +:+ s +:+ r) = Py.strip chars s.
Proof.
  intros Hl Hr. unfold Py.strip.
  rewrite lstrip_only_app by done.
  by rewrite <- !lstrip_rstrip, rstrip_app_only.
Qed.

End padding.

(** An attribute does not depend on the padding of its raw value: null
    bytes and spaces added before or after the value give the same
    instance, the same log and the same exception. *)
Theorem Attribute_padding_irrelevant
    (LOBBY_PROPERTIES : gmap Z (string * gmap string string))
    (header attr_id player : Z) (raw before after : string) :
  only padding before = true -> only padding after = true ->
  Attribute_new LOBBY_PROPERTIES header attr_id player (before +:+ raw +:+ after)
  = Attribute_new LOBBY_PROPERTIES header attr_id player raw.
Proof.
  intros Hbefore Hafter. unfold Attribute_new.
  destruct (LOBBY_PROPERTIES !! attr_id) as [[name lookup]|]; [|done].
  fold padding. by rewrite strip_padded.
Qed.

Lemma Attribute_padding_irrelevant_witness :
  Attribute_new Sample.LOBBY_PROPERTIES 1 3004 2
    (String "000" " " +:+ "ME" +:+ String " " (String "000" ""))
  = Attribute_new Sample.LOBBY_PROPERTIES 1 3004 2 "ME".
Proof.
  apply (Attribute_padding_irrelevant Sample.LOBBY_PROPERTIES 1 3004 2 "ME"
           (String "000" " ") (String " " (String "000" "")));
    reflexivity.
Defined.

(** ** Fields of the participants *)

Section fields.

Context (GATEWAY_LOOKUP : gmap Z string).
Context (LOCALIZED_RACES : gmap string string).

(** [Player.result]: "Win" for the code 1, "Loss" for 2, [None] for any
    other code. *)
Definition result_of_code (code : Z) : value :=
  if decide (code = 1) then VStr "Win"
  else if decide (code = 2) then VStr "Loss"
  else VNone.

(** What [Player.__init__] assigns, and that it leaves the other
    attributes alone. *)
Lemma Player_init_fields pid detail attribute_data self e :
  Player_init GATEWAY_LOOKUP LOCALIZED_RACES pid detail attribute_data self
  = Ok e ->
  exists region,
    GATEWAY_LOOKUP !! bd_region (dd_bnet detail) = Some region /\
    e !! "region" = Some (VStr region) /\
    e !! "gateway" = Some (VStr region) /\
    e !! "subregion" = Some (VInt (bd_subregion (dd_bnet detail))) /\
    e !! "toon_id" = Some (VInt (bd_uid (dd_bnet detail))) /\
    e !! "result" = Some (result_of_code (dd_result detail)) /\
    e !! "pick_race"
    = Some (VStr (default "Unknown" (attribute_data !! "Race"))) /\
    e !! "difficulty"
    = Some (VStr (default "Unknown" (attribute_data !! "Difficulty"))) /\
    e !! "play_race"
    = Some (VStr (default (dd_race detail) (LOCALIZED_RACES !! dd_race detail))) /\
    e !! "pid" = Some (VInt pid) /\
    e !! "toon_handle" = self !! "toon_handle" /\
    e !! "team_id" = self !! "team_id" /\
    e !! "handicap" = self !! "handicap" /\
    e !! "is_human" = self !! "is_human" /\
    e !! "name" = self !! "name".
Proof.
  intros H. unfold Player_init in H. cbv zeta in H. run_result H.
  unfold subscript in Hstep.
  destruct (GATEWAY_LOOKUP !! _) as [region|] eqn:Hregion; [|discriminate].
  apply Ok_inj in Hstep. subst a. returned H.
  exists region. split; [done|]. unfold result_of_code.
  repeat split; repeat case_decide; by attr_lookup.
Qed.

(** The slot fields [Entity.__init__] assigns. *)
Lemma Entity_init_slot_fields sid slot self e :
  Entity_init GATEWAY_LOOKUP sid slot self = Ok e ->
  e !! "sid" = Some (VInt sid) /\
  e !! "handicap" = Some (VInt (sd_handicap slot)) /\
  e !! "team_id" = Some (VInt (sd_team_id slot + 1)) /\
  e !! "is_human" = Some (VBool (bool_decide (sd_control slot = 2))) /\
  e !! "toon_handle" = Some (opt_str (sd_toon_handle slot)).
Proof.
  intros H. unfold Entity_init in H. cbv zeta in H.
  do 7 run_result H. returned H. repeat split; by attr_lookup.
Qed.

Lemma User_init_fields uid init self e :
  User_init uid init self = Ok e ->
  e !! "uid" = Some (VInt uid) /\
  e !! "name" = Some (VStr (id_name init)) /\
  e !! "clan_tag" = Some (VStr (id_clan_tag init)) /\
  e !! "toon_handle" = self !! "toon_handle" /\
  e !! "team_id" = self !! "team_id" /\
  e !! "handicap" = self !! "handicap" /\
  e !! "is_human" = self !! "is_human" /\
  e !! "region" = self !! "region" /\
  e !! "subregion" = self !! "subregion" /\
  e !! "toon_id" = self !! "toon_id".
Proof.
  intros H. unfold User_init in H. cbv zeta in H. returned H.
  repeat split; by attr_lookup.
Qed.

End fields.

(** The account fields of a human participant are those of the detail
    record: [Player.__init__] runs last and overwrites the region,
    subregion and account id that [Entity.__init__] parsed from the
    handle, while [toon_handle] keeps the handle of the slot. *)
Theorem Participant_account_from_detail (GATEWAY_LOOKUP : gmap Z string)
    (LOCALIZED_RACES : gmap string string)
    (sid : Z) (slot : slot_data) (uid : Z) (init : init_data) (pid : Z)
    (detail : detail_data) (attribute_data : gmap string string) (p : object) :
  Participant_new GATEWAY_LOOKUP LOCALIZED_RACES sid slot uid init pid detail
    attribute_data = Ok p ->
  exists region,
    GATEWAY_LOOKUP !! bd_region (dd_bnet detail) = Some region /\
    dict p !! "region" = Some (VStr region) /\
    dict p !! "gateway" = Some (VStr region) /\
    dict p !! "subregion" = Some (VInt (bd_subregion (dd_bnet detail))) /\
    dict p !! "toon_id" = Some (VInt (bd_uid (dd_bnet detail))) /\
    dict p !! "toon_handle" = Some (opt_str (sd_toon_handle slot)) /\
    dict p !! "name" = Some (VStr (id_name init)).
Proof.
  intros H. unfold Participant_new in H. do 3 run_result H. returned H.
  cbn [dict].
  destruct (Player_init_fields _ _ _ _ _ _ _ Hstep1)
    as (region & Hregion & H1 & H2 & H3 & H4 & _ & _ & _ & _ & _ & H5 & _ & _ & _ & H6).
  destruct (User_init_fields _ _ _ _ Hstep0) as (_ & Hname & _ & Hhandle & _).
  destruct (Entity_init_slot_fields _ _ _ _ _ Hstep) as (_ & _ & _ & _ & Hslot).
  exists region. repeat split; try done; congruence.
Qed.

Lemma Participant_account_from_detail_witness :
  exists p,
    Participant_new Sample.GATEWAY_LOOKUP Sample.LOCALIZED_RACES 4
      (Sample.slot 0 (Some "2-S2-1-77")) 7 (Sample.init "bob") 2
      (Sample.detail "bob") ∅ = Ok p /\
    dict p !! "region" = Some (VStr "us") /\
    dict p !! "toon_id" = Some (VInt 12345) /\
    dict p !! "toon_handle" = Some (VStr "2-S2-1-77").
Proof.
  destruct (succeeds_is_Ok
              (Participant_new Sample.GATEWAY_LOOKUP Sample.LOCALIZED_RACES 4
                 (Sample.slot 0 (Some "2-S2-1-77")) 7 (Sample.init "bob") 2
                 (Sample.detail "bob") ∅)) as [p Hp]; [vm_compute; reflexivity|].
  exists p. split; [exact Hp|].
  destruct (Participant_account_from_detail _ _ _ _ _ _ _ _ _ _ Hp)
    as (region & Hregion & H1 & _ & _ & H4 & H5 & _).
  vm_compute in Hregion. injection Hregion as <-.
  split; [exact H1|]. split; [exact H4|exact H5].
Defined.

(** The detail record with another result code. *)
Definition with_result (code : Z) (detail : detail_data) : detail_data :=
  {| dd_name := dd_name detail; dd_result := code; dd_race := dd_race detail;
     dd_color := dd_color detail; dd_bnet := dd_bnet detail |}.

(** The detail record with another race. *)
Definition with_race (race : string) (detail : detail_data) : detail_data :=
  {| dd_name := dd_name detail; dd_result := dd_result detail; dd_race := race;
     dd_color := dd_color detail; dd_bnet := dd_bnet detail |}.

Lemma succeeds_bind {A B} (m : result A) (f : A -> result B) :
  (forall a, succeeds (f a) = true) -> succeeds (m ≫= f) = succeeds m.
Proof. intros Hf. destruct m as [a|e]; [apply Hf|done]. Qed.

(** [Player.__init__] returns exactly when the region code of the detail
    record is a key of the region table: nothing else in it can raise. *)
Lemma Player_init_succeeds (GATEWAY_LOOKUP : gmap Z string)
    (LOCALIZED_RACES : gmap string string) (pid : Z) (detail : detail_data)
    (attribute_data : gmap string string) (self : attrs) :
  succeeds (Player_init GATEWAY_LOOKUP LOCALIZED_RACES pid detail
              attribute_data self)
  = succeeds (subscript GATEWAY_LOOKUP (bd_region (dd_bnet detail))).
Proof. unfold Player_init. cbv zeta. by apply succeeds_bind. Qed.

(** Whether [Computer] and [Participant] return depends on the slot and on
    the region code of the detail record, and on nothing else of the
    detail record, the attribute record or the race table. *)
Lemma Computer_new_succeeds GATEWAY_LOOKUP LOCALIZED_RACES sid slot pid
    detail attribute_data :
  succeeds (Computer_new GATEWAY_LOOKUP LOCALIZED_RACES sid slot pid detail
              attribute_data)
  = succeeds (Entity_init GATEWAY_LOOKUP sid slot ∅)
    && succeeds (subscript GATEWAY_LOOKUP (bd_region (dd_bnet detail))).
Proof.
  unfold Computer_new.
  destruct (Entity_init GATEWAY_LOOKUP sid slot ∅) as [e|]; [|done].
  rewrite bind_Ok, succeeds_bind by done. apply Player_init_succeeds.
Qed.

Lemma Participant_new_succeeds GATEWAY_LOOKUP LOCALIZED_RACES sid slot uid
    init pid detail attribute_data :
  succeeds (Participant_new GATEWAY_LOOKUP LOCALIZED_RACES sid slot uid init
              pid detail attribute_data)
  = succeeds (Entity_init GATEWAY_LOOKUP sid slot ∅)
    && succeeds (subscript GATEWAY_LOOKUP (bd_region (dd_bnet detail))).
Proof.
  unfold Participant_new.
  destruct (Entity_init GATEWAY_LOOKUP sid slot ∅) as [e|]; [|done].
  rewrite bind_Ok. unfold User_init. cbv zeta. rewrite bind_Ok.
  rewrite succeeds_bind by done. apply Player_init_succeeds.
Qed.

(** Every player built from a detail record has the result "Win" when
    the result code is 1, "Loss" when it is 2 and [None] for any other
    code; no code makes the constructor raise: whether [Computer] or
    [Participant] returns is the same for every result code. *)
Theorem Player_result_from_code (GATEWAY_LOOKUP : gmap Z string)
    (LOCALIZED_RACES : gmap string string)
    (sid : Z) (slot : slot_data) (uid : Z) (init : init_data) (pid : Z)
    (detail : detail_data) (attribute_data : gmap string string) :
  (forall code,
     succeeds (Computer_new GATEWAY_LOOKUP LOCALIZED_RACES sid slot pid
                 (with_result code detail) attribute_data)
     = succeeds (Computer_new GATEWAY_LOOKUP LOCALIZED_RACES sid slot pid
                   detail attribute_data)) /\
  (forall code,
     succeeds (Participant_new GATEWAY_LOOKUP LOCALIZED_RACES sid slot uid
                 init pid (with_result code detail) attribute_data)
     = succeeds (Participant_new GATEWAY_LOOKUP LOCALIZED_RACES sid slot uid
                   init pid detail attribute_data)) /\
  (forall p,
     Computer_new GATEWAY_LOOKUP LOCALIZED_RACES sid slot pid detail
       attribute_data = Ok p \/
     Participant_new GATEWAY_LOOKUP LOCALIZED_RACES sid slot uid init pid detail
       attribute_data = Ok p ->
     dict p !! "result" = Some (result_of_code (dd_result detail)) /\
     (dict p !! "result" = Some (VStr "Win") <-> dd_result detail = 1) /\
     (dict p !! "result" = Some (VStr "Loss") <-> dd_result detail = 2) /\
     (dict p !! "result" = Some VNone <->
      dd_result detail ≠ 1 /\ dd_result detail ≠ 2)).
Proof.
  split; [|split].
  - intros code. by rewrite !Computer_new_succeeds.
  - intros code. by rewrite !Participant_new_succeeds.
  - intros p Hnew.
    assert (Hresult : dict p !! "result"
                      = Some (result_of_code (dd_result detail))).
    { destruct Hnew as [H|H].
      - unfold Computer_new in H. do 2 run_result H. returned H. cbn [dict].
        destruct (Player_init_fields _ _ _ _ _ _ _ Hstep0)
          as (region & _ & _ & _ & _ & _ & Hresult & _).
        by attr_lookup.
      - unfold Participant_new in H. do 3 run_result H. returned H. cbn [dict].
        by destruct (Player_init_fields _ _ _ _ _ _ _ Hstep1)
          as (region & _ & _ & _ & _ & _ & Hresult & _). }
    split; [done|]. rewrite Hresult. unfold result_of_code.
    repeat case_decide; repeat split; intros; try done; try lia;
      try (by destruct_and?).
Qed.

Lemma Player_result_from_code_witness :
  exists p,
    Computer_new Sample.GATEWAY_LOOKUP Sample.LOCALIZED_RACES 4
      (Sample.slot 0 None) 2 (Sample.detail "A.I. 1") ∅ = Ok p /\
    dict p !! "result" = Some (VStr "Win").
Proof.
  destruct (succeeds_is_Ok
              (Computer_new Sample.GATEWAY_LOOKUP Sample.LOCALIZED_RACES 4
                 (Sample.slot 0 None) 2 (Sample.detail "A.I. 1") ∅))
    as [p Hp]; [vm_compute; reflexivity|].
  exists p. split; [exact Hp|].
  exact (proj1 (proj2 (proj2 (Player_result_from_code Sample.GATEWAY_LOOKUP
                  Sample.LOCALIZED_RACES 4 (Sample.slot 0 None) 0
                  (Sample.init "") 2 (Sample.detail "A.I. 1") ∅)) p
                  (or_introl Hp))).
Defined.

(** The race a player played is the detail record's race mapped through
    [LOCALIZED_RACES], or that race itself when the table does not hold
    it; the race picked and the difficulty are those of the attribute
    record, and "Unknown" when it lacks them.  None of the three lookups
    can make the constructor raise: whether [Computer] or [Participant]
    returns is the same for every race table, race and attribute
    record. *)
Theorem Player_races (GATEWAY_LOOKUP : gmap Z string)
    (LOCALIZED_RACES : gmap string string)
    (sid : Z) (slot : slot_data) (uid : Z) (init : init_data) (pid : Z)
    (detail : detail_data) (attribute_data : gmap string string) :
  (forall races race attributes,
     succeeds (Computer_new GATEWAY_LOOKUP races sid slot pid
                 (with_race race detail) attributes)
     = succeeds (Computer_new GATEWAY_LOOKUP LOCALIZED_RACES sid slot pid
                   detail attribute_data)) /\
  (forall races race attributes,
     succeeds (Participant_new GATEWAY_LOOKUP races sid slot uid init pid
                 (with_race race detail) attributes)
     = succeeds (Participant_new GATEWAY_LOOKUP LOCALIZED_RACES sid slot uid
                   init pid detail attribute_data)) /\
  (forall p,
     Computer_new GATEWAY_LOOKUP LOCALIZED_RACES sid slot pid detail
       attribute_data = Ok p \/
     Participant_new GATEWAY_LOOKUP LOCALIZED_RACES sid slot uid init pid detail
       attribute_data = Ok p ->
     (forall race, LOCALIZED_RACES !! dd_race detail = Some race ->
        dict p !! "play_race" = Some (VStr race)) /\
     (LOCALIZED_RACES !! dd_race detail = None ->
      dict p !! "play_race" = Some (VStr (dd_race detail))) /\
     (forall race, attribute_data !! "Race" = Some race ->
        dict p !! "pick_race" = Some (VStr race)) /\
     (attribute_data !! "Race" = None ->
      dict p !! "pick_race" = Some (VStr "Unknown")) /\
     (forall difficulty, attribute_data !! "Difficulty" = Some difficulty ->
        dict p !! "difficulty" = Some (VStr difficulty)) /\
     (attribute_data !! "Difficulty" = None ->
      dict p !! "difficulty" = Some (VStr "Unknown"))).
Proof.
  split; [|split].
  - intros races race attributes. by rewrite !Computer_new_succeeds.
  - intros races race attributes. by rewrite !Participant_new_succeeds.
  - intros p Hnew.
    assert (Hfields :
      dict p !! "play_race"
      = Some (VStr (default (dd_race detail)
                      (LOCALIZED_RACES !! dd_race detail))) /\
      dict p !! "pick_race"
      = Some (VStr (default "Unknown" (attribute_data !! "Race"))) /\
      dict p !! "difficulty"
      = Some (VStr (default "Unknown" (attribute_data !! "Difficulty")))).
    { destruct Hnew as [H|H].
      - unfold Computer_new in H. do 2 run_result H. returned H. cbn [dict].
        destruct (Player_init_fields _ _ _ _ _ _ _ Hstep0)
          as (region & _ & _ & _ & _ & _ & _ & Hpick & Hdiff & Hplay & _).
        repeat split; by attr_lookup.
      - unfold Participant_new in H. do 3 run_result H. returned H. cbn [dict].
        by destruct (Player_init_fields _ _ _ _ _ _ _ Hstep1)
          as (region & _ & _ & _ & _ & _ & _ & Hpick & Hdiff & Hplay & _). }
    destruct Hfields as (Hplay & Hpick & Hdiff).
    rewrite Hplay, Hpick, Hdiff.
    repeat split; intros; by simplify_option_eq.
Qed.

Lemma Player_races_witness :
  exists p,
    Computer_new Sample.GATEWAY_LOOKUP Sample.LOCALIZED_RACES 4
      (Sample.slot 0 None) 2 (Sample.detail "A.I. 1")
      {[ "Difficulty" := "Hard" ]} = Ok p /\
    dict p !! "play_race" = Some (VStr "Terran") /\
    dict p !! "pick_race" = Some (VStr "Unknown") /\
    dict p !! "difficulty" = Some (VStr "Hard").
Proof.
  destruct (succeeds_is_Ok
              (Computer_new Sample.GATEWAY_LOOKUP Sample.LOCALIZED_RACES 4
                 (Sample.slot 0 None) 2 (Sample.detail "A.I. 1")
                 {[ "Difficulty" := "Hard" ]}))
    as [p Hp]; [vm_compute; reflexivity|].
  exists p. split; [exact Hp|].
  destruct (proj2 (proj2 (Player_races Sample.GATEWAY_LOOKUP
              Sample.LOCALIZED_RACES 4
              (Sample.slot 0 None) 0 (Sample.init "") 2 (Sample.detail "A.I. 1")
              {[ "Difficulty" := "Hard" ]})) p (or_introl Hp))
    as (Hplay & _ & _ & Hpick & Hdiff & _).
  split; [apply Hplay; reflexivity|].
  split; [apply Hpick; reflexivity|apply Hdiff; reflexivity].
Defined.

(** The team number of every participant is the slot's team number plus
    one, so the 0-based numbers of the slots become 1-based; the handicap
    is the slot's, and a participant is human exactly when the slot's
    control code is 2. *)
Theorem slot_fields_of_participants (GATEWAY_LOOKUP : gmap Z string)
    (LOCALIZED_RACES : gmap string string)
    (sid : Z) (slot : slot_data) (uid : Z) (init : init_data) (pid : Z)
    (detail : detail_data) (attribute_data : gmap string string) (p : object) :
  Observer_new GATEWAY_LOOKUP sid slot uid init pid = Ok p \/
  Computer_new GATEWAY_LOOKUP LOCALIZED_RACES sid slot pid detail attribute_data
  = Ok p \/
  Participant_new GATEWAY_LOOKUP LOCALIZED_RACES sid slot uid init pid detail
    attribute_data = Ok p ->
  dict p !! "team_id" = Some (VInt (sd_team_id slot + 1)) /\
  dict p !! "handicap" = Some (VInt (sd_handicap slot)) /\
  dict p !! "is_human" = Some (VBool (bool_decide (sd_control slot = 2))) /\
  (0 <= sd_team_id slot ->
   exists n, dict p !! "team_id" = Some (VInt n) /\ 1 <= n).
Proof.
  intros Hnew.
  assert (Hfields :
    dict p !! "team_id" = Some (VInt (sd_team_id slot + 1)) /\
    dict p !! "handicap" = Some (VInt (sd_handicap slot)) /\
    dict p !! "is_human" = Some (VBool (bool_decide (sd_control slot = 2)))).
  { destruct Hnew as [H|[H|H]].
    - unfold Observer_new in H. do 2 run_result H. returned H. cbn [dict].
      destruct (User_init_fields _ _ _ _ Hstep0)
        as (_ & _ & _ & _ & Hteam & Hhandicap & Hhuman & _).
      destruct (Entity_init_slot_fields _ _ _ _ _ Hstep)
        as (_ & Hh & Ht & Hc & _).
      repeat split; attr_lookup; congruence.
    - unfold Computer_new in H. do 2 run_result H. returned H. cbn [dict].
      destruct (Player_init_fields _ _ _ _ _ _ _ Hstep0)
        as (region & _ & _ & _ & _ & _ & _ & _ & _ & _ & _ & _
            & Hteam & Hhandicap & Hhuman & _).
      destruct (Entity_init_slot_fields _ _ _ _ _ Hstep)
        as (_ & Hh & Ht & Hc & _).
      repeat split; attr_lookup; congruence.
    - unfold Participant_new in H. do 3 run_result H. returned H. cbn [dict].
      destruct (Player_init_fields _ _ _ _ _ _ _ Hstep1)
        as (region & _ & _ & _ & _ & _ & _ & _ & _ & _ & _ & _
            & Hteam & Hhandicap & Hhuman & _).
      destruct (User_init_fields _ _ _ _ Hstep0)
        as (_ & _ & _ & _ & Hteam' & Hhandicap' & Hhuman' & _).
      destruct (Entity_init_slot_fields _ _ _ _ _ Hstep)
        as (_ & Hh & Ht & Hc & _).
      repeat split; congruence. }
  destruct Hfields as (Hteam & Hhandicap & Hhuman).
  repeat split; try done. intros Hle. eexists. split; [exact Hteam|lia].
Qed.

Lemma slot_fields_of_participants_witness :
  exists p,
    Observer_new Sample.GATEWAY_LOOKUP 4 (Sample.slot 1 None) 7
      (Sample.init "obs") 0 = Ok p /\
    dict p !! "team_id" = Some (VInt 1).
Proof.
  destruct (succeeds_is_Ok
              (Observer_new Sample.GATEWAY_LOOKUP 4 (Sample.slot 1 None) 7
                 (Sample.init "obs") 0)) as [p Hp]; [vm_compute; reflexivity|].
  exists p. split; [exact Hp|].
  exact (proj1 (slot_fields_of_participants Sample.GATEWAY_LOOKUP
                  Sample.LOCALIZED_RACES 4 (Sample.slot 1 None) 7
                  (Sample.init "obs") 0 (Sample.detail "") ∅ p (or_introl Hp))).
Defined.

(** ** When [Entity.__init__] succeeds *)

Lemma index_Raise {A} (l : list A) (i : nat) (e : exn) :
  index l i = Raise e -> e = IndexError.
Proof. unfold index. destruct (l !! i); congruence. Qed.

Lemma subscript_Raise `{Countable K} {V} (d : gmap K V) (k : K) (e : exn) :
  subscript d k = Raise e -> e = KeyError.
Proof. unfold subscript. destruct (d !! k); congruence. Qed.

Lemma int_Raise (s : string) (e : exn) : Py.int s = Raise e -> e = ValueError.
Proof.
  unfold Py.int.
  destruct (Py.strip Py.whitespace s) as [|c body]; [congruence|].
  repeat match goal with
    | |- context [match ?x with _ => _ end] => destruct x
    end; congruence.
Qed.

(** A step of a constructor that may raise: either it does, or the
    constructor goes on. *)
Ltac step_or_raise :=
  lazymatch goal with
  | |- context [?m ≫= _] =>
      let Hstep := fresh "Hstep" in
      destruct m eqn:Hstep;
      [rewrite bind_Ok|]
  end.

(** The characters on which [Py.int] is Python's [int]: ASCII, other
    than the underscore and the separators 0x1c to 0x1f. *)
Definition plain_char (c : ascii) : bool :=
  let n := N_of_ascii c in
  ((n <? 128) && negb (n =? 95) && negb ((28 <=? n) && (n <=? 31)))%N.

Fixpoint plain (s : string) : bool :=
  match s with
  | EmptyString => true
  | String c s' => plain_char c && plain s'
  end.

(** A handle of plain characters, short enough for [int] to convert any
    of its parts: by default [int] refuses a text of more than 4300
    digits. *)
Definition plain_handle (s : string) : Prop :=
  plain s = true /\ Z.of_nat (String.length s) <= 4300.

(** For a handle of at most 4300 plain ASCII characters,
    [Entity.__init__] succeeds exactly when the handle (the zero handle for an absent or empty one)
    has at least four parts between dashes, the first, third and fourth
    parts are integers and the first is a key of the region table.  For
    every handle, when it fails it raises [ValueError], [KeyError] or
    [IndexError], and a handle with fewer than four parts always makes
    it fail. *)
Theorem Entity_init_succeeds_iff (GATEWAY_LOOKUP : gmap Z string)
    (sid : Z) (slot : slot_data) (self : attrs) :
  (plain_handle (or_default (sd_toon_handle slot) "0-S2-0-0") ->
   (is_Ok (Entity_init GATEWAY_LOOKUP sid slot self) <->
    exists part0 part1 part2 part3 parts region_id subregion toon_id,
      Py.split "-" (or_default (sd_toon_handle slot) "0-S2-0-0")
      = part0 :: part1 :: part2 :: part3 :: parts /\
      Py.int part0 = Ok region_id /\
      is_Some (GATEWAY_LOOKUP !! region_id) /\
      Py.int part2 = Ok subregion /\
      Py.int part3 = Ok toon_id)) /\
  (forall e, Entity_init GATEWAY_LOOKUP sid slot self = Raise e ->
             e = ValueError \/ e = KeyError \/ e = IndexError) /\
  ((length (Py.split "-" (or_default (sd_toon_handle slot) "0-S2-0-0")) < 4)%nat ->
   exists e, Entity_init GATEWAY_LOOKUP sid slot self = Raise e).
Proof.
  assert (Hiff :
    is_Ok (Entity_init GATEWAY_LOOKUP sid slot self) <->
    exists part0 part1 part2 part3 parts region_id subregion toon_id,
      Py.split "-" (or_default (sd_toon_handle slot) "0-S2-0-0")
      = part0 :: part1 :: part2 :: part3 :: parts /\
      Py.int part0 = Ok region_id /\
      is_Some (GATEWAY_LOOKUP !! region_id) /\
      Py.int part2 = Ok subregion /\
      Py.int part3 = Ok toon_id).
  { split.
    - intros [e H]. unfold Entity_init in H. cbv zeta in H.
      do 7 run_result H.
      destruct (Py.split "-" _) as [|p0 [|p1 [|p2 [|p3 parts]]]];
        try discriminate.
      apply Ok_inj in Hstep, Hstep2, Hstep4. subst.
      exists a, p1, a2, a4, parts, a0, a3, a5. repeat split; try done.
      unfold subscript in Hstep1.
      destruct (GATEWAY_LOOKUP !! a0); [by eexists|discriminate].
    - intros (p0 & p1 & p2 & p3 & parts & r & s & t & Hsplit & H0 & [region Hr]
              & H2 & H3).
      destruct (Entity_init_handle GATEWAY_LOOKUP sid slot self
                  p0 p1 p2 p3 parts r region s t) as (e & He & _); try done.
      by exists e. }
  split; [intros _; exact Hiff|]. split.
  - intros e. unfold Entity_init. cbv zeta.
    step_or_raise; [|intros [= <-]; right; right; by eapply index_Raise].
    step_or_raise; [|intros [= <-]; left; by eapply int_Raise].
    step_or_raise; [|intros [= <-]; right; left; by eapply subscript_Raise].
    step_or_raise; [|intros [= <-]; right; right; by eapply index_Raise].
    step_or_raise; [|intros [= <-]; left; by eapply int_Raise].
    step_or_raise; [|intros [= <-]; right; right; by eapply index_Raise].
    step_or_raise; [|intros [= <-]; left; by eapply int_Raise].
    discriminate.
  - intros Hlen.
    destruct (Entity_init GATEWAY_LOOKUP sid slot self) as [e|e] eqn:Hrun;
      [|by exists e].
    destruct (proj1 Hiff) as (p0 & p1 & p2 & p3 & parts & _ & _ & _ & Hsplit & _);
      [by exists e|].
    rewrite Hsplit in Hlen. simpl in Hlen. lia.
Qed.

Lemma Entity_init_succeeds_iff_witness :
  is_Ok (Entity_init Sample.GATEWAY_LOOKUP 4
           (Sample.slot 0 (Some "1-S2-3-12345")) ∅) /\
  exists e,
    Entity_init Sample.GATEWAY_LOOKUP 4 (Sample.slot 0 (Some "1-S2")) ∅
    = Raise e.
Proof.
  split.
  - apply (proj1 (Entity_init_succeeds_iff Sample.GATEWAY_LOOKUP 4
                    (Sample.slot 0 (Some "1-S2-3-12345")) ∅));
      [split; [vm_compute; reflexivity|by vm_compute]|].
    exists "1", "S2", "3", "12345", [], 1, 3, 12345.
    split; [vm_compute; reflexivity|].
    split; [vm_compute; reflexivity|].
    split; [exists "us"; vm_compute; reflexivity|].
    split; vm_compute; reflexivity.
  - apply (proj2 (proj2 (Entity_init_succeeds_iff Sample.GATEWAY_LOOKUP 4
                           (Sample.slot 0 (Some "1-S2")) ∅))).
    vm_compute. lia.
Defined.

(** ** Teams: the hash and the line-up *)

(** [f(p) for p in ps], stopping at the first exception. *)
Fixpoint collect {A} (f : object -> result A) (ps : list object) : result (list A) :=
  match ps with
  | [] => Ok []
  | p :: ps' => a ← f p; as' ← collect f ps'; Ok (a :: as')
  end.

(** [c.upper()] for one ASCII character: the letters a to z become A to
    Z and no other character changes.  Texts are kept as bytes: for a
    character outside ASCII, whose upper case can be several characters,
    this is not [str.upper]. *)
Definition upper_char (c : ascii) : ascii :=
  let n := N_of_ascii c in
  if decide (97 <= n <= 122)%N then ascii_of_N (n - 32) else c.

(** [p.play_race[0].upper()]: an instance without [play_race] raises
    [AttributeError], an empty race [IndexError].  The constructors store
    a text there; other values do not occur. *)
Definition race_initial (p : object) : result string :=
  v ← getattr (dict p) "play_race";
  match v with
  | VStr (String c _) => Ok (String (upper_char c) "")
  | VStr EmptyString => Raise IndexError
  | _ => Raise ValueError
  end.

(** The property [Team.lineup]. *)
Definition Team_lineup (t : Team) : result string :=
  initials ← collect race_initial (players t);
  Ok (Py.join "" (Py.sorted initials)).

Section collect.

Context {A : Type} (f : object -> result A).

Lemma collect_Ok (ps : list object) (xs : list A) :
  collect f ps = Ok xs <-> Forall2 (fun p x => f p = Ok x) ps xs.
Proof.
  revert xs. induction ps as [|p ps IH]; intros xs; simpl.
  - split; [intros [= <-]; constructor|by inversion 1].
  - destruct (f p) as [a|e] eqn:Hp; simpl.
    + destruct (collect f ps) as [as'|e] eqn:Hps; simpl.
      * split.
        -- intros [= <-]. constructor; [done|]. by apply IH.
        -- inversion 1 as [|? x ? xs' Hx Hxs]; subst.
           apply IH in Hxs. congruence.
      * split; [done|]. inversion 1 as [|? x ? xs' Hx Hxs]; subst.
        apply IH in Hxs. congruence.
    + split; [done|]. inversion 1; congruence.
Qed.

Lemma collect_Permutation (ps qs : list object) (xs : list A) :
  ps ≡ₚ qs -> collect f ps = Ok xs ->
  exists ys, collect f qs = Ok ys /\ xs ≡ₚ ys.
Proof.
  intros Hperm. revert xs.
  induction Hperm as [|p ps qs Hperm IH|p q ps|ps qs rs H1 IH1 H2 IH2];
    intros xs Hxs.
  - exists xs. by split.
  - simpl in *. destruct (f p) as [a|]; [|done]. simpl in *.
    destruct (collect f ps) as [as'|]; [|done]. simpl in *.
    injection Hxs as <-.
    destruct (IH as' eq_refl) as (ys & -> & Hys). exists (a :: ys).
    split; [done|]. by constructor.
  - simpl in *. destruct (f q) as [b|]; [|done]. simpl in *.
    destruct (f p) as [a|]; [|done]. simpl in *.
    destruct (collect f ps) as [as'|]; [|done]. simpl in *.
    injection Hxs as <-. exists (a :: b :: as'). split; [done|]. constructor.
  - destruct (IH1 xs Hxs) as (ys & Hys & Hp1).
    destruct (IH2 ys Hys) as (zs & Hzs & Hp2).
    exists zs. split; [done|]. by etrans.
Qed.

Lemma collect_length (ps : list object) (xs : list A) :
  collect f ps = Ok xs -> length xs = length ps.
Proof. intros Hxs%collect_Ok. symmetry. by eapply Forall2_length. Qed.

Lemma collect_elem_of (ps : list object) (xs : list A) (p : object) :
  collect f ps = Ok xs -> p ∈ ps -> is_Ok (f p).
Proof.
  intros Hxs%collect_Ok Hp.
  apply list_elem_of_lookup in Hp as [i Hi].
  destruct (Forall2_lookup_l _ _ _ i p Hxs Hi) as (x & _ & Hx).
  by exists x.
Qed.

End collect.

Lemma urls_collect (ps : list object) : urls ps = collect url ps.
Proof. induction ps as [|p ps IH]; simpl; [done|]. by rewrite IH. Qed.

(** The hash of a team depends on who its members are, not on the order
    in which they were added: two teams whose player lists are
    permutations of each other have the same hash, whenever it can be
    computed for one of them. *)
Theorem Team_hash_permutation
    (sha256_hexdigest : string -> result string) (t1 t2 : Team) :
  players t1 ≡ₚ players t2 ->
  forall h,
    Team_hash sha256_hexdigest t1 = Ok h <->
    Team_hash sha256_hexdigest t2 = Ok h.
Proof.
  assert (Hone : forall t1 t2 h,
            players t1 ≡ₚ players t2 ->
            Team_hash sha256_hexdigest t1 = Ok h ->
            Team_hash sha256_hexdigest t2 = Ok h).
  { clear. intros t1 t2 h Hperm. unfold Team_hash. rewrite !urls_collect.
    destruct (collect url (players t1)) as [us|] eqn:Hus; [|done].
    destruct (collect_Permutation url _ _ _ Hperm Hus) as (vs & -> & Hvs).
    rewrite !bind_Ok. by rewrite (sorted_Permutation _ _ Hvs). }
  intros Hperm h. split; apply Hone; [done|by symmetry].
Qed.

Lemma Team_hash_permutation_witness :
  Team_hash Ok
    {| number := 1; players := [Sample.bob; Sample.al; Sample.bob];
       result_of := "Win" |}
  = Ok ("http://eu.battle.net/sc2/en/profile/77/1/al/" +:+ "," +:+
        "http://us.battle.net/sc2/en/profile/12345/3/bob/" +:+ "," +:+
        "http://us.battle.net/sc2/en/profile/12345/3/bob/").
Proof.
  apply (Team_hash_permutation Ok
           {| number := 2; players := [Sample.bob; Sample.bob; Sample.al];
              result_of := "Unknown" |}
           {| number := 1; players := [Sample.bob; Sample.al; Sample.bob];
              result_of := "Win" |}).
  - simpl. apply perm_skip, perm_swap.
  - vm_compute. reflexivity.
Defined.

(** A team with a computer player has no hash: [Computer] does not
    inherit the [url] property, so [Team.hash] raises for every team one
    of whose members was built by the [Computer] constructor. *)
Theorem Team_hash_fails_with_computer
    (sha256_hexdigest : string -> result string)
    (GATEWAY_LOOKUP : gmap Z string) (LOCALIZED_RACES : gmap string string)
    (sid : Z) (slot : slot_data) (pid : Z) (detail : detail_data)
    (attribute_data : gmap string string) (c : object) (t : Team) :
  Computer_new GATEWAY_LOOKUP LOCALIZED_RACES sid slot pid detail attribute_data
  = Ok c ->
  c ∈ players t ->
  url c = Raise AttributeError /\
  exists e, Team_hash sha256_hexdigest t = Raise e.
Proof.
  intros Hc Hin. pose proof (Computer_url _ _ _ _ _ _ _ _ Hc) as Hurl.
  split; [done|]. unfold Team_hash. rewrite urls_collect.
  destruct (collect url (players t)) as [us|e] eqn:Hus; [|by exists e].
  destruct (collect_elem_of url _ _ _ Hus Hin) as [u Hu]. congruence.
Qed.

Lemma Team_hash_fails_with_computer_witness :
  exists c e,
    Computer_new Sample.GATEWAY_LOOKUP Sample.LOCALIZED_RACES 4
      (Sample.slot 0 None) 2 (Sample.detail "A.I. 1") ∅ = Ok c /\
    Team_hash Ok (Team_add c (Team_add Sample.bob (Team_init 1))) = Raise e.
Proof.
  destruct (succeeds_is_Ok
              (Computer_new Sample.GATEWAY_LOOKUP Sample.LOCALIZED_RACES 4
                 (Sample.slot 0 None) 2 (Sample.detail "A.I. 1") ∅))
    as [c Hc]; [vm_compute; reflexivity|].
  destruct (Team_hash_fails_with_computer Ok _ _ _ _ _ _ _ c
              (Team_add c (Team_add Sample.bob (Team_init 1))) Hc)
    as (_ & e & He).
  - simpl. apply list_elem_of_further, list_elem_of_here.
  - exists c, e. split; [exact Hc|exact He].
Defined.

Lemma join_empty_length (parts : list string) :
  Forall (fun part => String.length part = 1%nat) parts ->
  String.length (Py.join "" parts) = length parts.
Proof.
  induction 1 as [|part parts Hpart Hparts IH]; [done|].
  destruct part as [|c [|c' part]]; try discriminate.
  destruct parts as [|part' parts']; [done|].
  change (Py.join "" (String c "" :: part' :: parts'))
    with (String c (Py.join "" (part' :: parts'))).
  cbn [String.length length]. by rewrite IH.
Qed.

Lemma race_initial_length (p : object) (x : string) :
  race_initial p = Ok x -> String.length x = 1%nat.
Proof.
  unfold race_initial. destruct (getattr (dict p) "play_race") as [v|]; [|done].
  rewrite bind_Ok. destruct v as [| | | |[|c s]| | | | | | | |]; try done.
  by intros [= <-].
Qed.

(** A member whose race, when it is a text with a first character, starts
    with an ASCII character: for such a member [race_initial] is
    [p.play_race[0].upper()], one character. *)
Definition ascii_initial (p : object) : Prop :=
  forall c s,
    dict p !! "play_race" = Some (VStr (String c s)) ->
    (N_of_ascii c < 128)%N.

(** The line-up of a team depends on who its members are, not on their
    order: teams whose player lists are permutations of each other have
    the same line-up, whenever it can be computed for one of them.  When
    the races of the members start with ASCII characters it holds one
    character per member (the upper case of another letter can be
    longer), and a team without members has the empty line-up. *)
Theorem Team_lineup_permutation (t1 t2 : Team) :
  (players t1 ≡ₚ players t2 ->
   forall s, Team_lineup t1 = Ok s <-> Team_lineup t2 = Ok s) /\
  (Forall ascii_initial (players t1) ->
   forall s, Team_lineup t1 = Ok s -> String.length s = length (players t1)) /\
  (players t1 = [] -> Team_lineup t1 = Ok "").
Proof.
  assert (Hone : forall t1 t2 s,
            players t1 ≡ₚ players t2 ->
            Team_lineup t1 = Ok s -> Team_lineup t2 = Ok s).
  { clear. intros t1 t2 s Hperm. unfold Team_lineup.
    destruct (collect race_initial (players t1)) as [xs|] eqn:Hxs; [|done].
    destruct (collect_Permutation race_initial _ _ _ Hperm Hxs)
      as (ys & -> & Hys).
    rewrite !bind_Ok. by rewrite (sorted_Permutation _ _ Hys). }
  split; [|split].
  - intros Hperm s. split; apply Hone; [done|by symmetry].
  - intros _ s. unfold Team_lineup.
    destruct (collect race_initial (players t1)) as [xs|] eqn:Hxs; [|done].
    rewrite bind_Ok. intros [= <-].
    rewrite join_empty_length.
    + unfold Py.sorted. rewrite merge_sort_Permutation.
      by eapply collect_length.
    + unfold Py.sorted. rewrite merge_sort_Permutation.
      apply collect_Ok in Hxs. clear -Hxs.
      induction Hxs as [|p x ps xs Hp Hps IH]; constructor; [|done].
      by eapply race_initial_length.
  - intros Hnil. unfold Team_lineup. by rewrite Hnil.
Qed.

Lemma Team_lineup_permutation_witness :
  Team_lineup
    {| number := 1;
       players := [ {| class_of := Computer;
                       dict := {[ "play_race" := VStr "Protoss" ]} |};
                    {| class_of := Participant;
                       dict := {[ "play_race" := VStr "terran" ]} |};
                    {| class_of := Participant;
                       dict := {[ "play_race" := VStr "Protoss" ]} |} ];
       result_of := "Unknown" |}
  = Ok "PPT" /\
  String.length "PPT" = 3%nat.
Proof.
  set (p := {| class_of := Computer;
               dict := {[ "play_race" := VStr "Protoss" ]} |}).
  set (q := {| class_of := Participant;
               dict := {[ "play_race" := VStr "terran" ]} |}).
  set (r := {| class_of := Participant;
               dict := {[ "play_race" := VStr "Protoss" ]} |}).
  assert (Hrun : Team_lineup {| number := 1; players := [q; p; r];
                                result_of := "Unknown" |} = Ok "PPT")
    by (vm_compute; reflexivity).
  assert (Hascii : Forall ascii_initial [q; p; r]).
  { repeat constructor; intros c s Hrace; cbn [dict p q r] in Hrace;
      rewrite lookup_singleton_eq in Hrace;
      injection Hrace as <- _; vm_compute; reflexivity. }
  split.
  - exact (proj1 (proj1 (Team_lineup_permutation
                           {| number := 1; players := [q; p; r];
                              result_of := "Unknown" |}
                           {| number := 1; players := [p; q; r];
                              result_of := "Unknown" |})
                    (perm_swap p q [r]) "PPT") Hrun).
  - exact (proj1 (proj2 (Team_lineup_permutation
                           {| number := 1; players := [q; p; r];
                              result_of := "Unknown" |}
                           {| number := 1; players := [p; q; r];
                              result_of := "Unknown" |}))
             Hascii "PPT" Hrun).
Defined.

(** ** Handles written in decimal *)

(** The value of a decimal numeral read after the value [acc]. *)
Fixpoint uint_value (d : Decimal.uint) (acc : Z) : Z :=
  match d with
  | Decimal.Nil => acc
  | Decimal.D0 d => uint_value d (10 * acc)
  | Decimal.D1 d => uint_value d (10 * acc + 1)
  | Decimal.D2 d => uint_value d (10 * acc + 2)
  | Decimal.D3 d => uint_value d (10 * acc + 3)
  | Decimal.D4 d => uint_value d (10 * acc + 4)
  | Decimal.D5 d => uint_value d (10 * acc + 5)
  | Decimal.D6 d => uint_value d (10 * acc + 6)
  | Decimal.D7 d => uint_value d (10 * acc + 7)
  | Decimal.D8 d => uint_value d (10 * acc + 8)
  | Decimal.D9 d => uint_value d (10 * acc + 9)
  end.

Definition digit_chars : list ascii :=
  ["0"; "1"; "2"; "3"; "4"; "5"; "6"; "7"; "8"; "9"]%char.

(** A text in which the character [sep] does not occur. *)
Fixpoint free_of (sep : ascii) (s : string) : bool :=
  match s with
  | EmptyString => true
  | String c s' => bool_decide (c ≠ sep) && free_of sep s'
  end.

Lemma digits_uint (d : Decimal.uint) (acc : Z) :
  Py.digits acc (NilEmpty.string_of_uint d) = Some (uint_value d acc).
Proof.
  revert acc. induction d; intros acc; cbn [NilEmpty.string_of_uint uint_value];
    [done|..];
    (cbn [Py.digits];
     match goal with
     | |- context [Py.digit ?c] =>
         let v := eval vm_compute in (Py.digit c) in
         change (Py.digit c) with v
     end;
     cbn [mbind option_bind]; rewrite IHd; do 2 f_equal; lia).
Qed.

Lemma uint_value_acc (d : Decimal.uint) (p : positive) :
  uint_value d (Z.pos p) = Z.pos (Pos.of_uint_acc d p).
Proof.
  revert p. induction d; intros p; cbn [uint_value Pos.of_uint_acc]; [done|..];
    rewrite <- IHd; f_equal; lia.
Qed.

Lemma uint_value_0 (d : Decimal.uint) :
  uint_value d 0 = Z.of_N (Pos.of_uint d).
Proof.
  induction d; cbn [uint_value Pos.of_uint]; [done|done|..];
    exact (uint_value_acc d _).
Qed.

Lemma only_digits_uint (d : Decimal.uint) :
  only digit_chars (NilEmpty.string_of_uint d) = true.
Proof. induction d; cbn [NilEmpty.string_of_uint only]; [done|..]; by rewrite IHd. Qed.

(** [str(n)] for a natural number: decimal digits, at least one, whose
    value is [n]. *)
Lemma str_int_digits (n : Z) :
  0 <= n ->
  only digit_chars (Py.str_int n) = true /\
  Py.str_int n ≠ "" /\
  Py.digits 0 (Py.str_int n) = Some n.
Proof.
  intros Hn. unfold Py.str_int. destruct n as [|p|p]; [done| |lia].
  cbn [Z.to_int NilZero.string_of_int]. unfold NilZero.string_of_uint.
  pose proof (DecimalPos.Unsigned.to_uint_nonnil p) as Hnil.
  pose proof (DecimalPos.Unsigned.of_to p) as Hof.
  destruct (Pos.to_uint p) as [|d|d|d|d|d|d|d|d|d|d] eqn:Hd; [done|..];
    (split; [apply (only_digits_uint (_ d))|]; split; [done|];
     rewrite (digits_uint (_ d)), uint_value_0, Hof; done).
Qed.

Section untouched.

Context (chars keep : list ascii).
Context (Hdisjoint : forall c, c ∈ keep -> c ∉ chars).

Lemma rstrip_untouched (s : string) :
  only keep s = true -> Py.rstrip chars s = s.
Proof.
  induction s as [|c s IH]; [done|].
  cbn [only Py.rstrip]. intros [Hc Hs]%andb_true_iff.
  apply bool_decide_eq_true in Hc. rewrite (IH Hs).
  destruct s; [|done]. by rewrite bool_decide_eq_false_2 by auto.
Qed.

Lemma lstrip_untouched (s : string) :
  only keep s = true -> Py.lstrip chars s = s.
Proof.
  destruct s as [|c s]; [done|].
  cbn [only Py.lstrip]. intros [Hc Hs]%andb_true_iff.
  apply bool_decide_eq_true in Hc. by rewrite bool_decide_eq_false_2 by auto.
Qed.

Lemma strip_untouched (s : string) :
  only keep s = true -> Py.strip chars s = s.
Proof.
  intros Hs. unfold Py.strip. by rewrite lstrip_untouched, rstrip_untouched.
Qed.

End untouched.

Lemma digit_not_whitespace (c : ascii) :
  c ∈ digit_chars -> c ∉ Py.whitespace.
Proof.
  unfold digit_chars. rewrite !elem_of_cons, elem_of_nil.
  intros Hc. apply (bool_decide_unpack _).
  repeat destruct Hc as [->|Hc]; try done.
Qed.

(** [int] reads a numeral made of digits. *)
Lemma int_of_digits (s : string) (n : Z) :
  only digit_chars s = true -> s ≠ "" -> Py.digits 0 s = Some n ->
  Py.int s = Ok n.
Proof.
  intros Honly Hne Hdigits. unfold Py.int.
  rewrite (strip_untouched _ digit_chars digit_not_whitespace) by done.
  destruct s as [|c s]; [done|].
  cbn [only] in Honly. apply andb_true_iff in Honly as [Hc _].
  apply bool_decide_eq_true in Hc.
  unfold digit_chars in Hc. rewrite !elem_of_cons, elem_of_nil in Hc.
  repeat destruct Hc as [->|Hc]; try done;
    cbv beta iota zeta; rewrite Hdigits; f_equal; lia.
Qed.

Lemma int_str_int (n : Z) : 0 <= n -> Py.int (Py.str_int n) = Ok n.
Proof.
  intros Hn. destruct (str_int_digits n Hn) as (Honly & Hne & Hdigits).
  by apply int_of_digits.
Qed.

Lemma split_free (sep : ascii) (s : string) :
  free_of sep s = true -> Py.split sep s = [s].
Proof.
  induction s as [|c s IH]; [done|].
  cbn [free_of Py.split]. intros [Hc Hs]%andb_true_iff.
  apply bool_decide_eq_true in Hc. rewrite decide_False by done.
  by rewrite (IH Hs).
Qed.

Lemma split_first (sep : ascii) (s rest : string) :
  free_of sep s = true ->
  Py.split sep (s +:+ String sep rest) = s :: Py.split sep rest.
Proof.
  induction s as [|c s IH].
  - intros _. change ("" +:+ String sep rest) with (String sep rest).
    cbn [Py.split]. by rewrite decide_True.
  - cbn [free_of]. intros [Hc Hs]%andb_true_iff.
    apply bool_decide_eq_true in Hc.
    rewrite append_cons. cbn [Py.split]. rewrite decide_False by done.
    by rewrite (IH Hs).
Qed.

Lemma digits_free_of_dash (s : string) :
  only digit_chars s = true -> free_of "-" s = true.
Proof.
  induction s as [|c s IH]; [done|].
  cbn [only free_of]. intros [Hc Hs]%andb_true_iff.
  rewrite (IH Hs), andb_true_r. apply bool_decide_eq_true.
  apply bool_decide_eq_true in Hc. intros ->.
  revert Hc. apply (bool_decide_unpack _). done.
Qed.

(** The handle "<region_id>-<realm>-<subregion>-<toon_id>" of the
    comment in [Entity.__init__], the numbers written in decimal. *)
Definition handle_text (region_id : Z) (realm : string) (subregion toon_id : Z)
    : string :=
  Py.str_int region_id +:+ "-" +:+ realm +:+ "-" +:+ Py.str_int subregion
  +:+ "-" +:+ Py.str_int toon_id.

Lemma handle_text_split (region_id : Z) (realm : string) (subregion toon_id : Z) :
  0 <= region_id -> 0 <= subregion -> 0 <= toon_id ->
  free_of "-" realm = true ->
  Py.split "-" (handle_text region_id realm subregion toon_id)
  = [Py.str_int region_id; realm; Py.str_int subregion; Py.str_int toon_id].
Proof.
  intros Hr Hs Ht Hrealm.
  destruct (str_int_digits _ Hr) as (Hr1 & _ & _).
  destruct (str_int_digits _ Hs) as (Hs1 & _ & _).
  destruct (str_int_digits _ Ht) as (Ht1 & _ & _).
  unfold handle_text.
  assert (Hdash : forall x, "-" +:+ x = String "-" x) by done.
  rewrite !Hdash.
  repeat (rewrite split_first by auto using digits_free_of_dash).
  by rewrite split_free by auto using digits_free_of_dash.
Qed.

Lemma handle_text_not_empty (region_id : Z) (realm : string)
    (subregion toon_id : Z) :
  0 <= region_id ->
  or_default (Some (handle_text region_id realm subregion toon_id)) "0-S2-0-0"
  = handle_text region_id realm subregion toon_id.
Proof.
  intros Hr. destruct (str_int_digits _ Hr) as (_ & Hne & _).
  unfold handle_text. by destruct (Py.str_int region_id).
Qed.

(** Parsing undoes formatting: from a handle made of a region code, a
    realm without a dash, a subregion and an account id, all numbers
    natural and written in decimal, [Entity.__init__] gets the region of
    that code, that subregion and that account id. *)
Theorem toon_handle_round_trip (GATEWAY_LOOKUP : gmap Z string)
    (sid : Z) (slot : slot_data) (self : attrs)
    (region_id : Z) (realm : string) (subregion toon_id : Z) (region : string) :
  0 <= region_id -> 0 <= subregion -> 0 <= toon_id ->
  free_of "-" realm = true ->
  sd_toon_handle slot = Some (handle_text region_id realm subregion toon_id) ->
  GATEWAY_LOOKUP !! region_id = Some region ->
  exists e,
    Entity_init GATEWAY_LOOKUP sid slot self = Ok e /\
    e !! "region" = Some (VStr region) /\
    e !! "subregion" = Some (VInt subregion) /\
    e !! "toon_id" = Some (VInt toon_id).
Proof.
  intros Hr Hs Ht Hrealm Hhandle Hregion.
  eapply (Entity_init_handle _ _ _ _ (Py.str_int region_id) realm
            (Py.str_int subregion) (Py.str_int toon_id) []);
    [|by apply int_str_int|done|by apply int_str_int..].
  rewrite Hhandle, handle_text_not_empty by done.
  by apply handle_text_split.
Qed.

Lemma toon_handle_round_trip_witness :
  exists e,
    Entity_init Sample.GATEWAY_LOOKUP 4
      (Sample.slot 0 (Some (handle_text 2 "S2" 1 3507832))) ∅ = Ok e /\
    e !! "region" = Some (VStr "eu") /\
    e !! "subregion" = Some (VInt 1) /\
    e !! "toon_id" = Some (VInt 3507832).
Proof.
  apply (toon_handle_round_trip Sample.GATEWAY_LOOKUP 4
           (Sample.slot 0 (Some (handle_text 2 "S2" 1 3507832))) ∅
           2 "S2" 1 3507832 "eu"); try lia; reflexivity.
Defined.

(** The profile URL of an observer whose handle is written in decimal
    names the region of the handle's region code, then the account id,
    the subregion and the name of the user. *)
Theorem Observer_url_of_handle (GATEWAY_LOOKUP : gmap Z string)
    (sid : Z) (slot : slot_data) (uid : Z) (init : init_data) (pid : Z)
    (region_id : Z) (realm : string) (subregion toon_id : Z) (region : string) :
  0 <= region_id -> 0 <= subregion -> 0 <= toon_id ->
  free_of "-" realm = true ->
  sd_toon_handle slot = Some (handle_text region_id realm subregion toon_id) ->
  GATEWAY_LOOKUP !! region_id = Some region ->
  exists p,
    Observer_new GATEWAY_LOOKUP sid slot uid init pid = Ok p /\
    url p = Ok ("http://" +:+ region +:+ ".battle.net/sc2/en/profile/"
                +:+ Py.str_int toon_id +:+ "/" +:+ Py.str_int subregion
                +:+ "/" +:+ id_name init +:+ "/").
Proof.
  intros Hr Hs Ht Hrealm Hhandle Hregion.
  destruct (toon_handle_round_trip GATEWAY_LOOKUP sid slot ∅ region_id realm
              subregion toon_id region Hr Hs Ht Hrealm Hhandle Hregion)
    as (e & He & Hreg & Hsub & Htoon).
  unfold Observer_new. rewrite He, bind_Ok.
  unfold User_init. cbv zeta. rewrite bind_Ok.
  eexists. split; [reflexivity|]. unfold url. cbn [class_of is_User dict].
  rewrite (format_field_str _ "region" region) by (by attr_lookup).
  rewrite (format_field_int _ "toon_id" toon_id) by (by attr_lookup).
  rewrite (format_field_int _ "subregion" subregion) by (by attr_lookup).
  rewrite (format_field_str _ "name" (id_name init)) by (by attr_lookup).
  reflexivity.
Qed.

Lemma Observer_url_of_handle_witness :
  exists p,
    Observer_new Sample.GATEWAY_LOOKUP 4
      (Sample.slot 1 (Some (handle_text 2 "S2" 1 3507832))) 7
      (Sample.init "al") 0 = Ok p /\
    url p = Ok ("http://" +:+ "eu" +:+ ".battle.net/sc2/en/profile/"
                +:+ Py.str_int 3507832 +:+ "/" +:+ Py.str_int 1
                +:+ "/" +:+ "al" +:+ "/").
Proof.
  apply (Observer_url_of_handle Sample.GATEWAY_LOOKUP 4
           (Sample.slot 1 (Some (handle_text 2 "S2" 1 3507832))) 7
           (Sample.init "al") 0 2 "S2" 1 3507832 "eu"); try lia; reflexivity.
Defined.

(** ** More on MapInfo *)

(** [MapInfo.__str__(self)]: returns [self.map_name]. *)
Definition MapInfo_str (self : attrs) : result value := getattr self "map_name".

(** The attributes that the statements up to the [return] assign. *)
Definition prefix_attributes : list string :=
  [ "version"; "unknown1"; "unknown2"; "width"; "height";
    "small_preview_type"; "small_preview_path";
    "large_preview_type"; "large_preview_path";
    "unknown3"; "unknown4"; "unknown5"; "fog_type"; "tile_set";
    "camera_left"; "camera_bottom"; "camera_right"; "camera_top";
    "base_height"; "load_screen_type"; "load_screen_path"; "unknown6";
    "load_screen_scaling"; "text_position";
    "text_position_offset_x"; "text_position_offset_y";
    "text_position_size_x"; "text_position_size_y";
    "data_flags"; "unknown7"; "unknown8"; "unknown9"; "unknown10";
    "player_count" ].

(** Only attributes of the prefix are set. *)
Definition within_prefix (s : init_state) : Prop :=
  forall name, is_Some (self s !! name) -> name ∈ prefix_attributes.

Ltac keeps_within_prefix :=
  let s := fresh "s" in
  let Hs := fresh "Hs" in
  let name := fresh "name" in
  let Hname := fresh "Hname" in
  intros s Hs name Hname; cbn [self] in Hname; unfold setattr in Hname;
  apply lookup_insert_is_Some in Hname as [<-|[_ Hname]];
  [apply (bool_decide_unpack _); vm_compute; exact I | by apply Hs].

Lemma MapInfo_fields_within_prefix :
  triple within_prefix MapInfo_fields (fun _ => within_prefix) (fun _ => True).
Proof. triple_inv within_prefix; keeps_within_prefix. Qed.

Lemma MapInfo_init_within_prefix :
  triple within_prefix MapInfo_init (fun _ => within_prefix) (fun _ => True).
Proof.
  unfold MapInfo_init.
  eapply triple_bind with (R := fun _ => within_prefix).
  - intros s Hs. unfold read. by destruct (ByteDecoder.read_string 4 (data s))
      as [[magic d]|].
  - intros magic. case_decide; [by intros s Hs|].
    apply MapInfo_fields_within_prefix.
Qed.

(** An instance of [MapInfo] has no attribute but those of the prefix,
    whatever the buffer; [map_name] is not among them, so [__str__]
    raises [AttributeError] on every instance the constructor returns. *)
Theorem MapInfo_str_raises (contents : list byte) (m : attrs)
    (log : list (level * string)) :
  MapInfo contents = Ok (m, log) ->
  (forall name, is_Some (m !! name) -> name ∈ prefix_attributes) /\
  MapInfo_str m = Raise AttributeError.
Proof.
  intros H. unfold MapInfo in H.
  pose proof (MapInfo_init_within_prefix (start contents)) as Hinit.
  destruct (MapInfo_init (start contents)) as [[[] s]|e]; [|discriminate].
  apply Ok_inj in H.
  assert (Hm : m = self s) by congruence. subst m.
  assert (Hs : within_prefix s).
  { apply Hinit. intros name [v Hv]. cbn [start self] in Hv.
    by rewrite lookup_empty in Hv. }
  split; [exact Hs|]. unfold MapInfo_str, getattr.
  destruct (self s !! "map_name") as [v|] eqn:Hv; [|done].
  exfalso. assert (Hin : "map_name" ∈ prefix_attributes) by (apply Hs; eauto).
  revert Hin. apply (bool_decide_unpack _). vm_compute. exact I.
Qed.

Lemma MapInfo_str_raises_witness :
  exists m log,
    MapInfo Sample.prefix = Ok (m, log) /\
    MapInfo_str m = Raise AttributeError.
Proof.
  destruct (succeeds_is_Ok (MapInfo Sample.prefix)) as [[m log] Hm];
    [vm_compute; reflexivity|].
  exists m, log. split; [exact Hm|].
  exact (proj2 (MapInfo_str_raises Sample.prefix m log Hm)).
Defined.

(** *** The range of the decoded numbers *)

Lemma little_endian_range (bs : list byte) :
  0 <= ByteDecoder.little_endian bs < 256 ^ Z.of_nat (length bs).
Proof.
  induction bs as [|b bs IH]; [simpl; lia|].
  cbn [ByteDecoder.little_endian length].
  rewrite Nat2Z.inj_succ, Z.pow_succ_r by lia.
  pose proof (Byte.to_N_bounded b). lia.
Qed.

Lemma read_uint32_range (d d' : ByteDecoder.t) (n : Z) :
  ByteDecoder.read_uint32 d = Ok (n, d') -> 0 <= n < 2 ^ 32.
Proof.
  unfold ByteDecoder.read_uint32, ByteDecoder.read_uint_le.
  destruct (ByteDecoder.read_bytes 4 d) as [[bs d1]|] eqn:H; [|discriminate].
  rewrite bind_Ok. intros [= <- <-].
  apply read_bytes_Ok in H as (Hlen & -> & _).
  pose proof (little_endian_range (take 4 (ByteDecoder.rest d))) as Hrange.
  rewrite length_take, Nat.min_l in Hrange by done.
  exact Hrange.
Qed.

(** Every integer attribute is a 32-bit unsigned number, and every
    fraction is such a number over 4096. *)
Definition value_in_range (v : value) : Prop :=
  match v with
  | VInt n => 0 <= n < 2 ^ 32
  | VFloat q => exists n, 0 <= n < 2 ^ 32 /\ q = (inject_Z n / 4096)%Q
  | _ => True
  end.

Definition in_range (s : init_state) : Prop :=
  forall name v, self s !! name = Some v -> value_in_range v.

Lemma triple_read_uint32 (I : init_state -> Prop) (E : exn -> Prop) :
  E StructError ->
  (forall s d, I s -> I {| data := d; self := self s; logger := logger s |}) ->
  triple I (read ByteDecoder.read_uint32)
    (fun n s => I s /\ 0 <= n < 2 ^ 32) E.
Proof.
  intros HE HI s Hs. unfold read.
  destruct (ByteDecoder.read_uint32 (data s)) as [[n d]|e] eqn:Hread.
  - split; [by apply HI|]. by eapply read_uint32_range.
  - by rewrite (read_uint32_strict _ _ Hread).
Qed.

Lemma in_range_setattr name v (s : init_state) :
  in_range s -> value_in_range v ->
  in_range {| data := data s; self := setattr name v (self s);
              logger := logger s |}.
Proof.
  intros Hs Hv k w. cbn [self]. unfold setattr.
  rewrite lookup_insert. case_decide; [by intros [= <-]|by apply Hs].
Qed.

(** As [triple_inv], with the range of what [read_uint32] returns. *)
Ltac triple_range :=
  lazymatch goal with
  | |- triple _ (read ByteDecoder.read_uint32 ≫= _) _ _ =>
      eapply triple_bind with (R := fun n s => in_range s /\ 0 <= n < 2 ^ 32);
      [apply triple_read_uint32; [allowed | by intros ? ? ?]
      | intros ?; triple_range]
  | |- triple _ (_ ≫= _) _ _ =>
      eapply triple_bind with (R := fun _ => in_range);
      [triple_range | intros ?; triple_range]
  | |- triple _ (if decide _ then _ else _) _ _ =>
      case_decide; triple_range
  | |- triple _ (read _) _ _ =>
      apply triple_read; [auto with cursor | allowed | by intros ? ? ?]
  | |- triple _ (lift _) _ _ =>
      apply triple_lift;
      [intros ? ->%decode_utf8_strict; allowed | by intros ? ? ?]
  | |- triple _ (mret _) _ _ =>
      apply triple_ret; by intros ?
  | |- triple _ (assign _ _) _ _ =>
      apply triple_assign
  | |- triple _ ?m _ _ =>
      let h := head_of m in unfold h; triple_range
  end.

Ltac keeps_in_range :=
  let s := fresh "s" in
  let Hs := fresh "Hs" in
  intros s Hs;
  first [ destruct Hs as [Hs ?]; apply in_range_setattr; [exact Hs|];
          first [ assumption | by eexists | exact I ]
        | apply in_range_setattr; [exact Hs | exact I] ].

Lemma MapInfo_fields_in_range :
  triple in_range MapInfo_fields (fun _ => in_range) decoding_fault.
Proof. triple_range; keeps_in_range. Qed.

Lemma MapInfo_init_in_range :
  triple in_range MapInfo_init (fun _ => in_range) (fun _ => True).
Proof.
  unfold MapInfo_init.
  eapply triple_bind with (R := fun _ => in_range).
  - intros s Hs. unfold read. by destruct (ByteDecoder.read_string 4 (data s))
      as [[magic d]|].
  - intros magic. case_decide; [by intros s Hs|].
    intros s Hs. pose proof (MapInfo_fields_in_range s Hs) as Hfields.
    by destruct (MapInfo_fields s) as [[[] s']|e].
Qed.

(** Whatever the buffer, every integer attribute of a [MapInfo] instance
    is an unsigned 32-bit number, and [base_height] is such a number over
    4096: a fraction between 0 and 2^20, whose multiples of 1/4096 are
    exact. *)
Theorem MapInfo_numbers_in_range (contents : list byte) (m : attrs)
    (log : list (level * string)) :
  MapInfo contents = Ok (m, log) ->
  (forall name n, m !! name = Some (VInt n) -> 0 <= n < 2 ^ 32) /\
  (forall name q, m !! name = Some (VFloat q) ->
     (0 <= q)%Q /\ (q < 1048576)%Q /\
     exists n, 0 <= n < 2 ^ 32 /\ q = (inject_Z n / 4096)%Q).
Proof.
  intros H. unfold MapInfo in H.
  pose proof (MapInfo_init_in_range (start contents)) as Hinit.
  destruct (MapInfo_init (start contents)) as [[[] s]|e]; [|discriminate].
  apply Ok_inj in H.
  assert (Hm : m = self s) by congruence. subst m.
  assert (Hs : in_range s).
  { apply Hinit. intros name v Hv. cbn [start self] in Hv.
    by rewrite lookup_empty in Hv. }
  split.
  - intros name n Hn. exact (Hs name _ Hn).
  - intros name q Hq. destruct (Hs name _ Hq) as (n & Hn & ->).
    split; [|split; [|by exists n]].
    + unfold Qle, Qdiv, Qmult, Qinv, inject_Z; cbn. lia.
    + unfold Qlt, Qdiv, Qmult, Qinv, inject_Z; cbn. lia.
Qed.

Lemma MapInfo_numbers_in_range_witness :
  exists m log,
    MapInfo Sample.prefix = Ok (m, log) /\
    forall name n, m !! name = Some (VInt n) -> 0 <= n < 2 ^ 32.
Proof.
  destruct (succeeds_is_Ok (MapInfo Sample.prefix)) as [[m log] Hm];
    [vm_compute; reflexivity|].
  exists m, log. split; [exact Hm|].
  exact (proj1 (MapInfo_numbers_in_range Sample.prefix m log Hm)).
Defined.

(** *** The attributes of an instance, by version *)

(** The names [MapInfo.__init__] assigns for a file of the given version,
    in the order of the assignments. *)
Definition MapInfo_attributes (version : Z) : list string :=
  ["version"] ++
  (if decide (version >= 0x18) then ["unknown1"; "unknown2"] else []) ++
  ["width"; "height";
   "small_preview_type"; "small_preview_path";
   "large_preview_type"; "large_preview_path"] ++
  (if decide (version >= 0x1f) then ["unknown3"; "unknown4"] else []) ++
  ["unknown5"; "fog_type"; "tile_set";
   "camera_left"; "camera_bottom"; "camera_right"; "camera_top";
   "base_height"; "load_screen_type"; "load_screen_path"; "unknown6";
   "load_screen_scaling"; "text_position";
   "text_position_offset_x"; "text_position_offset_y";
   "text_position_size_x"; "text_position_size_y";
   "data_flags"; "unknown7"] ++
  (if decide (version >= 0x19) then ["unknown8"] else []) ++
  (if decide (version >= 0x1f) then ["unknown9"] else []) ++
  (if decide (version >= 0x20) then ["unknown10"] else []) ++
  ["player_count"].

(** [writes names m]: when [m] returns, the instance has the attributes
    it had and those of [names], and no other. *)
Definition writes {A} (names : list string) (m : Init A) : Prop :=
  forall s a s',
    m s = Ok (a, s') ->
    forall name,
      is_Some (self s' !! name) <-> is_Some (self s !! name) \/ name ∈ names.

Section writes.
Context {A B : Type}.

Lemma writes_ret (a : A) : writes [] (mret a).
Proof.
  intros s a' s' [= <- <-] name. split; [by left|].
  intros [H|H]; [done|]. by apply elem_of_nil in H.
Qed.

Lemma writes_read (f : ByteDecoder.t -> result (A * ByteDecoder.t)) :
  writes [] (read f).
Proof.
  intros s a s'. unfold read.
  destruct (f (data s)) as [[a1 d]|e]; [|discriminate].
  intros [= <- <-] name. cbn [self]. split; [by left|].
  intros [H|H]; [done|]. by apply elem_of_nil in H.
Qed.

Lemma writes_bind names1 names2 (m : Init A) (f : A -> Init B) :
  writes names1 m -> (forall a, writes names2 (f a)) ->
  writes (names1 ++ names2) (m ≫= f).
Proof.
  intros Hm Hf s b s'. unfold mbind, Init_bind.
  destruct (m s) as [[a s1]|e] eqn:Hs; [|discriminate].
  intros Hfa name. rewrite (Hf _ _ _ _ Hfa name), (Hm _ _ _ Hs name).
  rewrite elem_of_app. tauto.
Qed.

Lemma writes_if (c : Prop) `{Decision c} names1 names2 (m1 m2 : Init A) :
  writes names1 m1 -> writes names2 m2 ->
  writes (if decide c then names1 else names2) (if decide c then m1 else m2).
Proof. by case_decide. Qed.

Lemma writes_same names names' (m : Init A) :
  (forall name, name ∈ names <-> name ∈ names') ->
  writes names m -> writes names' m.
Proof.
  intros Hsame Hm s a s' Hrun name.
  rewrite (Hm _ _ _ Hrun name), Hsame. tauto.
Qed.

End writes.

Lemma writes_lift {A} (r : result A) : writes [] (lift r).
Proof.
  intros s a s'. unfold lift. destruct r; [|discriminate].
  intros [= <- <-] name. split; [by left|].
  intros [H|H]; [done|]. by apply elem_of_nil in H.
Qed.

Lemma writes_assign name v : writes [name] (assign name v).
Proof.
  intros s a s' [= <- <-] k. cbn [self]. unfold setattr.
  rewrite lookup_insert_is_Some, list_elem_of_singleton.
  destruct (decide (name = k)) as [->|Hne]; [by split; auto|].
  split; [intros [?|[_ ?]]; [done|by left]|].
  intros [?|?]; [right; by split|done].
Qed.

Lemma writes_warn msg : writes [] (warn msg).
Proof.
  intros s a s' [= <- <-] name. cbn [self]. split; [by left|].
  intros [H|H]; [done|]. by apply elem_of_nil in H.
Qed.

Ltac writes_steps :=
  lazymatch goal with
  | |- writes _ (_ ≫= _) =>
      eapply writes_bind; [writes_steps | intros ?; writes_steps]
  | |- writes _ (if decide _ then _ else _) =>
      eapply writes_if; writes_steps
  | |- writes _ (read _) => apply writes_read
  | |- writes _ (lift _) => apply writes_lift
  | |- writes _ (mret _) => apply writes_ret
  | |- writes _ (assign _ _) => apply writes_assign
  | |- writes _ (warn _) => apply writes_warn
  end.

(** A preview block assigns its two attributes whatever the type is: the
    path is set to the empty text before the type is tested. *)
Lemma small_preview_writes :
  writes ["small_preview_type"; "small_preview_path"] small_preview.
Proof.
  apply (writes_bind [] ["small_preview_type"; "small_preview_path"]);
    [apply writes_read|].
  intros t. case_decide; (eapply writes_same; [|writes_steps]);
    intros name; cbn [app]; rewrite !elem_of_cons; tauto.
Qed.

Lemma large_preview_writes :
  writes ["large_preview_type"; "large_preview_path"] large_preview.
Proof.
  apply (writes_bind [] ["large_preview_type"; "large_preview_path"]);
    [apply writes_read|].
  intros t. case_decide; (eapply writes_same; [|writes_steps]);
    intros name; cbn [app]; rewrite !elem_of_cons; tauto.
Qed.

Lemma load_screen_writes :
  writes ["load_screen_type"; "load_screen_path"] load_screen.
Proof.
  unfold load_screen. eapply writes_same; [|writes_steps].
  intros name. cbn [app]. tauto.
Qed.

Ltac writes_blocks :=
  lazymatch goal with
  | |- writes _ small_preview => apply small_preview_writes
  | |- writes _ large_preview => apply large_preview_writes
  | |- writes _ load_screen => apply load_screen_writes
  | |- writes _ (_ ≫= _) =>
      eapply writes_bind; [writes_blocks | intros ?; writes_blocks]
  | |- writes _ (if decide _ then _ else _) =>
      eapply writes_if; writes_blocks
  | |- _ => writes_steps
  end.

Lemma writes_returned {A} (names : list string) (m : Init A) s a s' :
  m s = Ok (a, s') -> writes names m ->
  forall name,
    is_Some (self s' !! name) <-> is_Some (self s !! name) \/ name ∈ names.
Proof. intros Hrun Hm. exact (Hm _ _ _ Hrun). Qed.

Lemma MapInfo_fields_attributes (s s' : init_state) :
  MapInfo_fields s = Ok (tt, s') ->
  exists version,
    self s' !! "version" = Some (VInt version) /\
    forall name,
      is_Some (self s' !! name) <->
      is_Some (self s !! name) \/ name ∈ MapInfo_attributes version.
Proof.
  intros H. unfold MapInfo_fields in H. run_read H.
  exists a. split.
  - lazymatch type of H with
    | ?m ?s1 = _ =>
        assert (Hkept : triple (fun _ => True) m
                          (fun _ s => self s !! "version" = Some (VInt a))
                          decoding_fault);
        [|specialize (Hkept s1 I); by rewrite H in Hkept]
    end.
    eapply triple_bind
      with (R := fun _ s => self s !! "version" = Some (VInt a)).
    + apply triple_assign. intros s0 _. cbn [self]. by attr_lookup.
    + intros _.
      triple_inv (fun s : init_state =>
                    self s !! "version" = Some (VInt a));
        intros s0 Hs0; cbn [self]; by attr_lookup.
  - lazymatch type of H with
    | ?m _ = _ => eassert (Hwrites : writes _ m) by writes_blocks
    end.
    exact (writes_returned _ _ _ _ _ H Hwrites).
Qed.

Ltac gate_side Hx :=
  first
    [ lia
    | apply (bool_decide_unpack _); vm_compute; exact I
    | exfalso; revert Hx; apply (bool_decide_unpack (¬ _));
      vm_compute; exact I ].

Lemma MapInfo_attributes_gates (version : Z) :
  ("unknown1" ∈ MapInfo_attributes version <-> version >= 0x18) /\
  ("unknown2" ∈ MapInfo_attributes version <-> version >= 0x18) /\
  ("unknown8" ∈ MapInfo_attributes version <-> version >= 0x19) /\
  ("unknown3" ∈ MapInfo_attributes version <-> version >= 0x1f) /\
  ("unknown4" ∈ MapInfo_attributes version <-> version >= 0x1f) /\
  ("unknown9" ∈ MapInfo_attributes version <-> version >= 0x1f) /\
  ("unknown10" ∈ MapInfo_attributes version <-> version >= 0x20).
Proof.
  unfold MapInfo_attributes.
  repeat case_decide; repeat split; intros Hx; gate_side Hx.
Qed.

(** The attributes of an instance are fixed by the version field alone.
    For a buffer with the signature on which the constructor returns, the
    instance has the attributes of [MapInfo_attributes version] and no
    other, where [version] is its [version] attribute: [unknown1] and
    [unknown2] from version 0x18 on, [unknown8] from 0x19 on, [unknown3],
    [unknown4] and [unknown9] from 0x1f on, [unknown10] from 0x20 on, and
    the other twenty-seven for every version. *)
Theorem MapInfo_attributes_by_version (contents : list byte) (m : attrs)
    (log : list (level * string)) :
  (4 <= length contents)%nat ->
  magic_of contents = "MapI" ->
  MapInfo contents = Ok (m, log) ->
  exists version,
    m !! "version" = Some (VInt version) /\
    (forall name, is_Some (m !! name) <-> name ∈ MapInfo_attributes version) /\
    (is_Some (m !! "unknown1") <-> version >= 0x18) /\
    (is_Some (m !! "unknown2") <-> version >= 0x18) /\
    (is_Some (m !! "unknown8") <-> version >= 0x19) /\
    (is_Some (m !! "unknown3") <-> version >= 0x1f) /\
    (is_Some (m !! "unknown4") <-> version >= 0x1f) /\
    (is_Some (m !! "unknown9") <-> version >= 0x1f) /\
    (is_Some (m !! "unknown10") <-> version >= 0x20).
Proof.
  intros Hlen Hmagic H. unfold MapInfo in H.
  rewrite MapInfo_init_valid_magic in H by done.
  destruct (MapInfo_fields _) as [[[] s]|e] eqn:Hrun; [|discriminate].
  apply Ok_inj in H.
  assert (Hm : m = self s) by congruence. subst m.
  destruct (MapInfo_fields_attributes _ _ Hrun) as (version & Hversion & Hnames).
  assert (Hset : forall name,
             is_Some (self s !! name) <-> name ∈ MapInfo_attributes version).
  { intros name. rewrite Hnames. cbn [self]. rewrite lookup_empty.
    split; [intros [[? [=]]|?]; done|by right]. }
  exists version. split; [exact Hversion|]. split; [exact Hset|].
  rewrite !Hset. apply MapInfo_attributes_gates.
Qed.

Lemma MapInfo_attributes_by_version_witness :
  exists m log version,
    MapInfo Sample.prefix = Ok (m, log) /\
    m !! "version" = Some (VInt version) /\
    (is_Some (m !! "unknown10") <-> version >= 0x20).
Proof.
  destruct (succeeds_is_Ok (MapInfo Sample.prefix)) as [[m log] Hm];
    [vm_compute; reflexivity|].
  assert (Hlen : (4 <= length Sample.prefix)%nat) by (vm_compute; lia).
  assert (Hmagic : magic_of Sample.prefix = "MapI") by (vm_compute; reflexivity).
  destruct (MapInfo_attributes_by_version Sample.prefix m log Hlen Hmagic Hm)
    as (version & Hversion & _ & _ & _ & _ & _ & _ & _ & Hgate).
  exists m, log, version.
  split; [exact Hm|]. split; [exact Hversion|exact Hgate].
Defined.

(** *** Decoding undoes encoding *)

(** An attribute of the instance that the assignments of a descriptor
    give. *)
Ltac assigned :=
  unfold assignments, preview_assignments, load_screen_assignments;
  repeat case_decide; vm_compute; reflexivity.

(** The layout of the prefix.  On the bytes of a well-formed descriptor
    (the signature, then the fields in little-endian and null-terminated
    form, with the blocks that the version and the preview types select),
    whatever bytes follow, the constructor returns, logs nothing, and the
    instance holds the fields of the descriptor: the attributes are those
    of its assignments made in order, so a preview path is the path of
    the file when the type is 2 and the empty text otherwise, the base
    height is the number of the file over 4096, [unknown6] is the text of
    its length-prefixed bytes and [unknown10] is there from version 0x20
    on. *)
Theorem MapInfo_decodes_encoding (d : descriptor) (extra : list byte) :
  well_formed d ->
  exists m,
    MapInfo (encode d ++ extra) = Ok (m, []) /\
    m = assign_all (assignments d) ∅ /\
    m !! "version" = Some (VInt (d_version d)) /\
    m !! "small_preview_path"
    = Some (if decide (d_small_preview_type d = 2)
            then text_of (d_small_preview_path d) else VStr "") /\
    m !! "large_preview_path"
    = Some (if decide (d_large_preview_type d = 2)
            then text_of (d_large_preview_path d) else VStr "") /\
    m !! "base_height" = Some (VFloat (inject_Z (d_base_height d) / 4096)) /\
    m !! "load_screen_path" = Some (text_of (d_load_screen_path d)) /\
    m !! "unknown6" = Some (text_of (d_unknown6 d)) /\
    m !! "unknown10"
    = (if decide (d_version d >= 0x20) then Some (VBytes (d_unknown10 d))
       else None) /\
    m !! "player_count" = Some (VInt (d_player_count d)).
Proof.
  intros Hd. exists (assign_all (assignments d) ∅).
  split; [by apply MapInfo_encode|]. split; [done|].
  split; [assigned|]. split; [assigned|]. split; [assigned|].
  split; [assigned|]. split; [assigned|]. split; [assigned|].
  split; [assigned|].
  unfold assignments. rewrite !app_assoc. apply assign_all_snoc.
Qed.

Lemma MapInfo_decodes_encoding_witness :
  encode sample_descriptor = Sample.prefix /\
  exists m,
    MapInfo (Sample.prefix ++ Sample.tail) = Ok (m, []) /\
    m !! "small_preview_path" = Some (VStr "Minimap.tga") /\
    m !! "large_preview_path" = Some (VStr "") /\
    m !! "player_count" = Some (VInt 1).
Proof.
  destruct sample_descriptor_well_formed as [Hd Hbytes].
  split; [exact Hbytes|]. rewrite <- Hbytes.
  destruct (MapInfo_decodes_encoding sample_descriptor Sample.tail Hd)
    as (m & Hrun & _ & _ & Hsmall & Hlarge & _ & _ & _ & _ & Hcount).
  exists m. split; [exact Hrun|].
  split; [exact Hsmall|]. split; [exact Hlarge|exact Hcount].
Defined.

(** ** PlayerSummary *)

(** What an attribute of a [PlayerSummary] holds: a scalar, or a
    dictionary with text keys in insertion order. *)
Inductive summary_value : Type :=
| Scalar (v : value)
| Dict (d : list (string * value)).

(** The class attributes of [PlayerSummary]. *)
Definition PlayerSummary_class : gmap string summary_value :=
  list_to_map
    [ ("pid", Scalar (VInt 0)); ("teamid", Scalar (VInt 0));
      ("play_race", Scalar (VStr "")); ("pick_race", Scalar (VStr ""));
      ("is_ai", Scalar (VBool false)); ("is_winner", Scalar (VBool false));
      ("bnetid", Scalar (VInt 0)); ("subregion", Scalar (VInt 0));
      ("gateway", Scalar (VStr "")); ("region", Scalar (VStr ""));
      ("unknown1", Scalar (VInt 0)); ("unknown2", Dict []);
      ("army_graph", Scalar VNone); ("income_graph", Scalar VNone);
      ("stats", Dict []) ].

(** [PlayerSummary.__init__(self, pid)] *)
Definition PlayerSummary_init (pid : Z) : gmap string summary_value :=
  <["pid" := Scalar (VInt pid)]> (<["unknown2" := Dict []]> ∅).

(** [self.name] on an instance of [PlayerSummary]: the instance
    dictionary, then the class. *)
Definition PlayerSummary_getattr (self : gmap string summary_value)
    (name : string) : result summary_value :=
  match self !! name with
  | Some v => Ok v
  | None =>
      match PlayerSummary_class !! name with
      | Some v => Ok v
      | None => Raise AttributeError
      end
  end.

(** [d[k]] for a dictionary attribute: a missing key raises [KeyError].
    The statistics and their names are dictionaries; [ValueError] stands
    for what subscripting another value would do, which is not
    modelled. *)
Definition item (d : summary_value) (k : string) : result value :=
  match d with
  | Dict d =>
      match list_find (fun kv => kv.1 = k) d with
      | Some (_, (_, v)) => Ok v
      | None => Raise KeyError
      end
  | Scalar _ => Raise ValueError
  end.

(** [str(v)] as [str.format] inserts it, for the scalars that have a
    text in this model. *)
Definition str_value (v : value) : result string :=
  match v with
  | VStr s => Ok s
  | VInt n => Ok (Py.str_int n)
  | VNone => Ok "None"
  | VBool true => Ok "True"
  | VBool false => Ok "False"
  | _ => Raise ValueError
  end.

(** ['{0}: {1}\n'.format(self.stats_pretty_names[k], self.stats[k])];
    the arguments are evaluated from left to right. *)
Definition stat_line (self : gmap string summary_value) (k : string) :
    result string :=
  names ← PlayerSummary_getattr self "stats_pretty_names";
  pretty ← item names k;
  stats ← PlayerSummary_getattr self "stats";
  v ← item stats k;
  pretty ← str_value pretty;
  v ← str_value v;
  Ok (pretty +:+ ": " +:+ v +:+ String "010" "").

(** The loop of [get_stats] over the keys that are left. *)
Fixpoint get_stats_loop (self : gmap string summary_value)
    (keys : list string) (s : string) : result string :=
  match keys with
  | [] => Ok s
  | k :: keys' =>
      line ← stat_line self k;
      get_stats_loop self keys' (s +:+ line)
  end.

(** The characters [s.strip()] removes from an ASCII text: the blank,
    tab, line feed, vertical tab, form feed, carriage return and the four
    separators 0x1c to 0x1f. *)
Definition blank : list ascii :=
  Py.whitespace ++ ["028"; "029"; "030"; "031"]%char.

(** [PlayerSummary.get_stats(self)]: the loop runs over the keys of
    [self.stats] in insertion order; iterating over a value that is not a
    dictionary is not modelled ([ValueError] stands for it). *)
Definition get_stats (self : gmap string summary_value) : result string :=
  stats ← PlayerSummary_getattr self "stats";
  match stats with
  | Dict d =>
      s ← get_stats_loop self d.*1 "";
      Ok (Py.strip blank s)
  | Scalar _ => Raise ValueError
  end.

Lemma stat_line_without_pretty_names (self : gmap string summary_value)
    (k : string) :
  self !! "stats_pretty_names" = None ->
  stat_line self k = Raise AttributeError.
Proof.
  intros Hnames. unfold stat_line, PlayerSummary_getattr.
  rewrite Hnames. reflexivity.
Qed.

(** Neither the class nor the constructor defines [stats_pretty_names],
    which [get_stats] reads in its loop.  On an instance on which nobody
    has set that attribute, [get_stats] returns the empty text when the
    statistics are empty, the class default, and raises [AttributeError]
    as soon as there is one statistic to print. *)
Theorem get_stats_without_pretty_names (self : gmap string summary_value)
    (d : list (string * value)) :
  self !! "stats_pretty_names" = None ->
  PlayerSummary_getattr self "stats" = Ok (Dict d) ->
  (d = [] -> get_stats self = Ok "") /\
  (d ≠ [] -> get_stats self = Raise AttributeError).
Proof.
  intros Hnames Hstats. unfold get_stats. rewrite Hstats, bind_Ok.
  split.
  - intros ->. reflexivity.
  - destruct d as [|[k v] d]; [done|]. intros _.
    rewrite fmap_cons. cbn [get_stats_loop].
    by rewrite stat_line_without_pretty_names.
Qed.

Lemma get_stats_without_pretty_names_witness :
  get_stats (<["stats" := Dict [("apm", VInt 120)]]> (PlayerSummary_init 1))
  = Raise AttributeError.
Proof.
  apply (get_stats_without_pretty_names
           (<["stats" := Dict [("apm", VInt 120)]]> (PlayerSummary_init 1))
           [("apm", VInt 120)]).
  - vm_compute. reflexivity.
  - vm_compute. reflexivity.
  - discriminate.
Defined.

(** ** Printing the participants *)

(** [str(self.name)] as a positional field of [str.format]: an attribute
    that was never set raises [AttributeError]. *)
Definition str_attr (self : attrs) (name : string) : result string :=
  v ← getattr self name; str_value v.

(** [Computer.__str__] and [Participant.__str__], the same statement:
    "Player {0} - {1} ({2})".format(self.pid, self.name, self.play_race) *)
Definition Player_str (p : object) : result string :=
  pid ← str_attr (dict p) "pid";
  name ← str_attr (dict p) "name";
  play_race ← str_attr (dict p) "play_race";
  Ok ("Player " +:+ pid +:+ " - " +:+ name +:+ " (" +:+ play_race +:+ ")").

(** [Observer.__str__]:
    "Observer {0} - {1}".format(self.uid, self.name) *)
Definition Observer_str (p : object) : result string :=
  uid ← str_attr (dict p) "uid";
  name ← str_attr (dict p) "name";
  Ok ("Observer " +:+ uid +:+ " - " +:+ name).

Lemma str_attr_str (self : attrs) (name s : string) :
  self !! name = Some (VStr s) -> str_attr self name = Ok s.
Proof. intros H. unfold str_attr, getattr. by rewrite H. Qed.

Lemma str_attr_int (self : attrs) (name : string) (n : Z) :
  self !! name = Some (VInt n) -> str_attr self name = Ok (Py.str_int n).
Proof. intros H. unfold str_attr, getattr. by rewrite H. Qed.

(** Every instance a constructor returns can be printed.  A human
    participant is printed with the name of the lobby record
    ([init_data]), a computer with the name of the detail record; both
    with the player id and the race played, which is the localized race
    when the table has the race of the detail record and that race as it
    is otherwise.  An observer is printed with its user id and lobby
    name. *)
Theorem constructed_instances_print (GATEWAY_LOOKUP : gmap Z string)
    (LOCALIZED_RACES : gmap string string)
    (sid : Z) (slot : slot_data) (uid : Z) (init : init_data) (pid : Z)
    (detail : detail_data) (attribute_data : gmap string string) :
  let race := default (dd_race detail) (LOCALIZED_RACES !! dd_race detail) in
  (forall p,
     Participant_new GATEWAY_LOOKUP LOCALIZED_RACES sid slot uid init pid
       detail attribute_data = Ok p ->
     Player_str p
     = Ok ("Player " +:+ Py.str_int pid +:+ " - " +:+ id_name init
           +:+ " (" +:+ race +:+ ")")) /\
  (forall p,
     Computer_new GATEWAY_LOOKUP LOCALIZED_RACES sid slot pid detail
       attribute_data = Ok p ->
     Player_str p
     = Ok ("Player " +:+ Py.str_int pid +:+ " - " +:+ dd_name detail
           +:+ " (" +:+ race +:+ ")")) /\
  (forall p,
     Observer_new GATEWAY_LOOKUP sid slot uid init pid = Ok p ->
     Observer_str p
     = Ok ("Observer " +:+ Py.str_int uid +:+ " - " +:+ id_name init)).
Proof.
  intros race. split; [|split]; intros p H.
  - unfold Participant_new in H. do 3 run_result H. returned H.
    destruct (Player_init_fields _ _ _ _ _ _ _ Hstep1)
      as (region & _ & _ & _ & _ & _ & _ & _ & _ & Hrace & Hpid
          & _ & _ & _ & _ & Hname).
    destruct (User_init_fields _ _ _ _ Hstep0) as (_ & Hinit & _).
    unfold Player_str. cbn [dict].
    rewrite (str_attr_int _ "pid" pid), bind_Ok by done.
    rewrite (str_attr_str _ "name" (id_name init)), bind_Ok by congruence.
    by rewrite (str_attr_str _ "play_race" race), bind_Ok by done.
  - unfold Computer_new in H. do 2 run_result H. returned H.
    destruct (Player_init_fields _ _ _ _ _ _ _ Hstep0)
      as (region & _ & _ & _ & _ & _ & _ & _ & _ & Hrace & Hpid & _).
    unfold Player_str. cbn [dict].
    rewrite (str_attr_int _ "pid" pid), bind_Ok
      by (attr_lookup; exact Hpid).
    rewrite (str_attr_str _ "name" (dd_name detail)), bind_Ok
      by (by attr_lookup).
    by rewrite (str_attr_str _ "play_race" race), bind_Ok
      by (attr_lookup; exact Hrace).
  - unfold Observer_new in H. do 2 run_result H. returned H.
    destruct (User_init_fields _ _ _ _ Hstep0) as (Huid & Hname & _).
    unfold Observer_str. cbn [dict].
    rewrite (str_attr_int _ "uid" uid), bind_Ok
      by (attr_lookup; exact Huid).
    by rewrite (str_attr_str _ "name" (id_name init)), bind_Ok
      by (attr_lookup; exact Hname).
Qed.

Lemma constructed_instances_print_witness :
  exists p c,
    Participant_new Sample.GATEWAY_LOOKUP Sample.LOCALIZED_RACES 4
      (Sample.slot 0 (Some "1-S2-3-12345")) 7 (Sample.init "bob") 2
      (Sample.detail "Bob") ∅ = Ok p /\
    Computer_new Sample.GATEWAY_LOOKUP Sample.LOCALIZED_RACES 5
      (Sample.slot 0 None) 3 (Sample.detail "A.I. 1 (Hard)") ∅ = Ok c /\
    Player_str p = Ok "Player 2 - bob (Terran)" /\
    Player_str c = Ok "Player 3 - A.I. 1 (Hard) (Terran)".
Proof.
  destruct (succeeds_is_Ok
              (Participant_new Sample.GATEWAY_LOOKUP Sample.LOCALIZED_RACES 4
                 (Sample.slot 0 (Some "1-S2-3-12345")) 7 (Sample.init "bob") 2
                 (Sample.detail "Bob") ∅)) as [p Hp]; [vm_compute; reflexivity|].
  destruct (succeeds_is_Ok
              (Computer_new Sample.GATEWAY_LOOKUP Sample.LOCALIZED_RACES 5
                 (Sample.slot 0 None) 3 (Sample.detail "A.I. 1 (Hard)") ∅))
    as [c Hc]; [vm_compute; reflexivity|].
  exists p, c. split; [exact Hp|]. split; [exact Hc|]. split.
  - exact (proj1 (constructed_instances_print Sample.GATEWAY_LOOKUP
                    Sample.LOCALIZED_RACES 4 (Sample.slot 0 (Some "1-S2-3-12345"))
                    7 (Sample.init "bob") 2 (Sample.detail "Bob") ∅) p Hp).
  - exact (proj1 (proj2 (constructed_instances_print Sample.GATEWAY_LOOKUP
                    Sample.LOCALIZED_RACES 5 (Sample.slot 0 None)
                    0 (Sample.init "") 3 (Sample.detail "A.I. 1 (Hard)") ∅))
             c Hc).
Defined.
